(** * kodewalibai: the static-analysis pipeline of the review endpoint

    A shallow embedding of
    - [src/app/api/review/route.js]: the security-pattern catalog,
      [scanForSecurityIssues], [lintCode], [guessFileExtension],
      [processRepositoryFiles] and the [POST] handler;
    - [src/utils/githubProcessor.js]: [parseGitHubUrl], [cloneRepository],
      [getCodeFiles] and [processRepository];
    - [src/app/page.js]: the two de-duplicating [reduce] passes of
      [handleSubmit].

    JavaScript strings are sequences of UTF-16 code units.  The platform
    functions the code calls ([String.prototype.includes], [split],
    [matchAll], [path.extname], ...) are modelled first, the repository's
    own functions after them, and the theorems come last. *)

From Stdlib Require Import List NArith ZArith PeanoNat Bool String Ascii Lia.
From Stdlib Require Import DecimalNat Sorted.
Import ListNotations.

Set Implicit Arguments.
Set Warnings "-register-all".

(** ** JavaScript strings *)

(** A string is the list of its UTF-16 code units. *)
Definition jsstring : Type := list N.

(** Literals of the source are written [str "..."]. *)
Fixpoint str (s : string) : jsstring :=
  match s with
  | EmptyString => []
  | String a s' => N_of_ascii a :: str s'
  end.

Arguments str s%_string.

Module JsString.

(** [===] on strings. *)
Fixpoint eqb (a b : jsstring) : bool :=
  match a, b with
  | [], [] => true
  | x :: a', y :: b' => N.eqb x y && eqb a' b'
  | _, _ => false
  end.

(** [s.startsWith(p)] *)
Fixpoint startsWith (p s : jsstring) : bool :=
  match p, s with
  | [], _ => true
  | x :: p', y :: s' => N.eqb x y && startsWith p' s'
  | _ :: _, [] => false
  end.

(** [s.includes(p)]: [p] occurs in [s] at some position. *)
Fixpoint includes (s p : jsstring) : bool :=
  startsWith p s ||
  match s with
  | [] => false
  | _ :: s' => includes s' p
  end.

(** [s.replace(c, "")] for a one-unit search string [c]: the first
    occurrence is removed, the others stay. *)
Fixpoint removeFirst (c : N) (s : jsstring) : jsstring :=
  match s with
  | [] => []
  | x :: s' => if N.eqb x c then s' else x :: removeFirst c s'
  end.

(** [s.substring(0, i)] *)
Definition substring0 (s : jsstring) (i : nat) : jsstring := firstn i s.

(** [s.split(c)] for a one-unit separator [c]: the pieces between the
    separators, in order; a string without separator is one piece. *)
Fixpoint split (c : N) (s : jsstring) : list jsstring :=
  match s with
  | [] => [[]]
  | x :: s' =>
      if N.eqb x c then [] :: split c s'
      else match split c s' with
           | [] => [[x]]
           | piece :: pieces => (x :: piece) :: pieces
           end
  end.

(** [pieces.join(sep)] *)
Fixpoint join (sep : jsstring) (pieces : list jsstring) : jsstring :=
  match pieces with
  | [] => []
  | [p] => p
  | p :: rest => p ++ sep ++ join sep rest
  end.

(** [s.toLowerCase()] on the ASCII range.  Code units outside it are
    left as they are; the extensions this program compares against are
    ASCII letters that no non-ASCII unit lowers to. *)
Definition lowerUnit (c : N) : N :=
  if (N.leb 65 c && N.leb c 90)%bool then (c + 32)%N else c.

Definition toLowerCase (s : jsstring) : jsstring := map lowerUnit s.

(** The decimal digits of a number, as [String(n)] and template literals
    print a non-negative integer. *)
Fixpoint digits (d : Decimal.uint) : jsstring :=
  match d with
  | Decimal.Nil => []
  | Decimal.D0 d' => 48%N :: digits d'
  | Decimal.D1 d' => 49%N :: digits d'
  | Decimal.D2 d' => 50%N :: digits d'
  | Decimal.D3 d' => 51%N :: digits d'
  | Decimal.D4 d' => 52%N :: digits d'
  | Decimal.D5 d' => 53%N :: digits d'
  | Decimal.D6 d' => 54%N :: digits d'
  | Decimal.D7 d' => 55%N :: digits d'
  | Decimal.D8 d' => 56%N :: digits d'
  | Decimal.D9 d' => 57%N :: digits d'
  end.

Definition ofNat (n : nat) : jsstring := digits (Nat.to_uint n).

(** [arr.includes(s)] on an array of strings. *)
Definition arrayIncludes (arr : list jsstring) (s : jsstring) : bool :=
  existsb (eqb s) arr.

End JsString.

(** The code units the source names. *)
Definition LF : N := 10.
Definition DOT : N := 46.
Definition SLASH : N := 47.
Definition DASH : N := 45.

(** ** Regular expressions *)

Module RegExp.

(** One member of a character class. *)
Inductive classItem :=
| One (c : N)
| Range (lo hi : N)
| Space.                      (* \s *)

(** The pattern syntax the catalog uses. *)
Inductive regex :=
| Eps
| Chr (c : N)
| Cls (invert : bool) (items : list classItem)
| Seq (r1 r2 : regex)
| Alt (r1 r2 : regex)
| Star (r : regex).           (* greedy *)

Definition Plus (r : regex) : regex := Seq r (Star r).

(** A pattern with its flags; every catalog pattern is global. *)
Record t := mk { source : regex; ignoreCase : bool }.

(** WhiteSpace and LineTerminator of ECMAScript: the members of [\s]. *)
Definition isSpace (c : N) : bool :=
  existsb (N.eqb c) [9; 10; 11; 12; 13; 32; 160; 5760; 8232; 8233; 8239; 8287; 12288; 65279]%N
  || (N.leb 8192 c && N.leb c 8202).

(** Canonicalize without the [u] flag, on the ASCII range: a lower-case
    letter becomes its upper-case one.  A unit from 128 up is never
    folded onto an ASCII letter, so for ASCII pattern characters this
    is the whole comparison. *)
Definition canonicalize (c : N) : N :=
  if (N.leb 97 c && N.leb c 122)%bool then (c - 32)%N else c.

(** The other case of an ASCII letter. *)
Definition swapCase (c : N) : N :=
  if (N.leb 97 c && N.leb c 122)%bool then (c - 32)%N
  else if (N.leb 65 c && N.leb c 90)%bool then (c + 32)%N
  else c.

Definition unitMatches (ic : bool) (p c : N) : bool :=
  if ic then N.eqb (canonicalize p) (canonicalize c) else N.eqb p c.

Definition inItem (it : classItem) (c : N) : bool :=
  match it with
  | One x => N.eqb x c
  | Range lo hi => N.leb lo c && N.leb c hi
  | Space => isSpace c
  end.

Definition inClass (ic : bool) (items : list classItem) (c : N) : bool :=
  existsb (fun it => inItem it c || (ic && inItem it (swapCase c))) items.

(** The greedy repetition of a matcher [once], which gives the lengths
    it can consume at the start of a string, best first.  Another turn
    is tried before stopping; a turn that consumes nothing is refused,
    as RepeatMatcher does.  Every turn consumes a unit, so [fuel] from
    the length of the string up is never used up. *)
Section Repeat.
Variable once : list N -> list nat.

Fixpoint repeatGreedy (fuel : nat) (s : list N) {struct fuel} : list nat :=
  match fuel with
  | O => [0]
  | S fuel' =>
      flat_map (fun n1 =>
                  if Nat.eqb n1 0 then []
                  else map (Nat.add n1) (repeatGreedy fuel' (skipn n1 s)))
               (once s)
      ++ [0]
  end.
End Repeat.

(** [ends ic r s]: the lengths of the prefixes of [s] that [r] matches,
    in the order in which the backtracking matcher finds them: the left
    alternative first, the longest repetition first. *)
Fixpoint ends (ic : bool) (r : regex) (s : list N) {struct r} : list nat :=
  match r with
  | Eps => [0]
  | Chr p =>
      match s with
      | c :: _ => if unitMatches ic p c then [1] else []
      | [] => []
      end
  | Cls invert items =>
      match s with
      | c :: _ => if xorb invert (inClass ic items c) then [1] else []
      | [] => []
      end
  | Seq r1 r2 =>
      flat_map (fun n1 => map (Nat.add n1) (ends ic r2 (skipn n1 s)))
               (ends ic r1 s)
  | Alt r1 r2 => ends ic r1 s ++ ends ic r2 s
  | Star r1 => repeatGreedy (ends ic r1) (List.length s) s
  end.

(** The match of the pattern at the start of [s]: its length. *)
Definition matchHere (re : t) (s : list N) : option nat :=
  hd_error (ends (ignoreCase re) (source re) s).

(** A match object: [match.index] and the length of [match[0]]. *)
Record result := mkResult { index : nat; matched : nat }.

(** [[...s.matchAll(re)]] for a global pattern, [lastIndex] starting
    at 0.  The walk is at position [pos] of the string with [s] still
    ahead; [skip] counts the units of the previous match that are still
    to be passed.  A match is searched at the first position after the
    previous match, and after an empty match one unit further on. *)
Fixpoint matchAllFrom (re : t) (pos skip : nat) (s : list N) {struct s}
  : list result :=
  match skip with
  | S k =>
      match s with
      | [] => []
      | _ :: s' => matchAllFrom re (S pos) k s'
      end
  | O =>
      match matchHere re s with
      | Some len =>
          mkResult pos len ::
          match s with
          | [] => []
          | _ :: s' => matchAllFrom re (S pos) (Nat.pred len) s'
          end
      | None =>
          match s with
          | [] => []
          | _ :: s' => matchAllFrom re (S pos) 0 s'
          end
      end
  end.

Definition matchAll (re : t) (s : list N) : list result :=
  matchAllFrom re 0 0 s.

(** Pattern literals. *)
Fixpoint lit (s : list N) : regex :=
  match s with
  | [] => Eps
  | [c] => Chr c
  | c :: s' => Seq (Chr c) (lit s')
  end.

Fixpoint seqs (rs : list regex) : regex :=
  match rs with
  | [] => Eps
  | [r] => r
  | r :: rs' => Seq r (seqs rs')
  end.

Definition spaces : regex := Star (Cls false [Space]).   (* \s* *)

End RegExp.

(** ** The review route: catalog and scanner *)

(** An entry of [securityPatterns].  [languages] is optional in the
    source ([pattern.languages && ...]): an entry without it applies to
    every file type. *)
Record securityPattern := mkPattern {
  sp_pattern : RegExp.t;
  sp_title : jsstring;
  sp_description : jsstring;
  sp_languages : option (list jsstring)
}.

(** An element of the [securityIssues] array: the scanner builds it
    without [filePath], the repository fan-out adds the property. *)
Record securityIssue := mkSecurityIssue {
  title : jsstring;
  description : jsstring;
  location : jsstring;
  si_filePath : option jsstring
}.

Definition jsAndPy : option (list jsstring) :=
  Some [str "js"; str "jsx"; str "ts"; str "tsx"; str "py"].
Definition jsOnly : option (list jsstring) :=
  Some [str "js"; str "jsx"; str "ts"; str "tsx"].
Definition pyOnly : option (list jsstring) :=
  Some [str "py"].

Section Catalog.
Import RegExp.

Let g (r : regex) : RegExp.t := RegExp.mk r false.    (* /.../g  *)
Let gi (r : regex) : RegExp.t := RegExp.mk r true.    (* /.../gi *)
Let l (s : string) : regex := lit (str s).
Let quotes : list classItem := [One 34; One 39].      (* the two quote marks *)

Definition securityPatterns : list securityPattern :=
  [ (* JavaScript patterns *)
    mkPattern (g (seqs [l "eval"; spaces; l "("]))
      (str "Dangerous use of eval()")
      (str "The eval() function can execute arbitrary code, posing a security risk.")
      jsAndPy;
    mkPattern (g (seqs [l "document.write"; spaces; l "("]))
      (str "Insecure DOM manipulation")
      (str "document.write() is vulnerable to XSS attacks.")
      jsOnly;
    mkPattern (g (seqs [l "innerHTML"; spaces; l "="]))
      (str "Potential XSS vulnerability")
      (str "Using innerHTML can lead to cross-site scripting attacks.")
      jsOnly;
    mkPattern (g (seqs [l "localStorage"; spaces; l "."; spaces; l "setItem"; spaces; l "("]))
      (str "Sensitive data storage")
      (str "Be cautious when storing data in localStorage as it is not secure for sensitive information.")
      jsOnly;
    mkPattern (gi (Alt (l "password") (Alt (l "token") (Alt (l "secret") (l "key")))))
      (str "Potential hardcoded credentials")
      (str "Possible sensitive information found. Never hardcode passwords or keys.")
      jsAndPy;
    mkPattern (g (Alt (seqs [l ".exec"; spaces; l "("; spaces; l "req.body"])
                      (seqs [l ".exec"; spaces; l "("; spaces; l "req.query"])))
      (str "SQL Injection risk")
      (str "Direct use of user input in database queries creates SQL injection vulnerabilities.")
      jsOnly;
    mkPattern (g (l "http:"))
      (str "Insecure HTTP protocol")
      (str "Using HTTP instead of HTTPS can expose data to eavesdropping.")
      jsAndPy;
    mkPattern (g (seqs [l "apiKey"; spaces; l "="; spaces;
                        Star (Cls false quotes); Plus (Cls true quotes)]))
      (str "Hardcoded API keys")
      (str "Hardcoded API keys or tokens expose your service to unauthorized access.")
      jsAndPy;
    (* Python-specific patterns *)
    mkPattern (g (seqs [l "exec"; spaces; l "("]))
      (str "Dangerous use of exec()")
      (str "The exec() function can execute arbitrary code, posing a security risk.")
      pyOnly;
    mkPattern (g (seqs [l "input"; spaces; l "("]))
      (str "Unsafe input usage")
      (str "Using input() without proper validation can lead to security vulnerabilities.")
      pyOnly;
    mkPattern (g (seqs [l "os.system"; spaces; l "("]))
      (str "Dangerous system command execution")
      (str "Direct execution of system commands can lead to command injection vulnerabilities.")
      pyOnly;
    mkPattern (g (seqs [l "subprocess.call"; spaces; l "("]))
      (str "Unsafe subprocess execution")
      (str "Make sure to sanitize inputs when using subprocess to prevent command injection.")
      pyOnly;
    mkPattern (g (l "pickle.load"))
      (str "Unsafe deserialization")
      (str "Using pickle for deserialization can lead to remote code execution vulnerabilities.")
      pyOnly ].
End Catalog.

(** [pattern.languages && !pattern.languages.includes(fileType)]: the
    entry is skipped for this file type. *)
Definition skipped (pattern : securityPattern) (fileType : jsstring) : bool :=
  match sp_languages pattern with
  | Some langs => negb (JsString.arrayIncludes langs fileType)
  | None => false
  end.

(** [code.substring(0, match.index).split("\n").length] *)
Definition lineNumberAt (code : jsstring) (index : nat) : nat :=
  List.length (JsString.split LF (JsString.substring0 code index)).

(** The object pushed for one match. *)
Definition issueOf (pattern : securityPattern) (code : jsstring)
           (m : RegExp.result) : securityIssue :=
  {| title := sp_title pattern;
     description := sp_description pattern;
     location := str "Line " ++ JsString.ofNat (lineNumberAt code (RegExp.index m));
     si_filePath := None |}.

(** [scanForSecurityIssues(code, fileExt)]: the two [forEach] loops push
    onto [issues]. *)
Definition scanForSecurityIssues (code fileExt : jsstring) : list securityIssue :=
  let fileType := JsString.removeFirst DOT fileExt in
  fold_left
    (fun issues pattern =>
       if skipped pattern fileType then issues
       else
         let matches := RegExp.matchAll (sp_pattern pattern) code in
         if Nat.ltb 0 (List.length matches) then
           fold_left (fun issues m => issues ++ [issueOf pattern code m])
                     matches issues
         else issues)
    securityPatterns [].

(** [code.includes("...")] with a literal argument. *)
Definition includesLit (code : jsstring) (s : string) : bool :=
  JsString.includes code (str s).

Arguments includesLit code s%_string.

(** [guessFileExtension(code)] *)
Definition guessFileExtension (code : jsstring) : jsstring :=
  if includesLit code "import React"
     || (includesLit code "class" && includesLit code "extends React.Component")
     || includesLit code "ReactDOM.render"
  then (if includesLit code "tsx" then str ".tsx" else str ".jsx")
  else if includesLit code "function" || includesLit code "=>" || includesLit code "const" || includesLit code "let" || includesLit code "var"
  then str ".js"
  else if includesLit code "<!DOCTYPE html>" || includesLit code "<html>"
  then str ".html"
  else if includesLit code "@import" || (includesLit code "{}" && includesLit code ";")
  then str ".css"
  else if includesLit code "def " || includesLit code "import " || includesLit code "class "
  then str ".py"
  else str ".js".

(** ** Node's [path] module (POSIX) *)

Module Path.

(** [path.join(dir, name)] for a normalized directory and an entry
    name (no separator inside, neither "." nor ".."). *)
Definition join (dir name : jsstring) : jsstring := dir ++ [SLASH] ++ name.

(** [path.relative(from, to)] for a [to] below [from]. *)
Definition relative (from to : jsstring) : jsstring :=
  if JsString.startsWith (from ++ [SLASH]) to
  then skipn (List.length from + 1) to
  else to.

(** The variables of the loop of [extname]. *)
Record scanState := mkScan {
  startDot : Z;
  startPart : Z;
  endIdx : Z;
  matchedSlash : bool;
  preDotState : Z;
  stopped : bool               (* [break] was taken *)
}.

(** One turn of [for (let i = path.length - 1; i >= 0; --i)]. *)
Definition step (st : scanState) (ic : Z * N) : scanState :=
  let (i, code) := ic in
  if stopped st then st
  else if N.eqb code SLASH then
    if negb (matchedSlash st)
    then mkScan (startDot st) (i + 1) (endIdx st) (matchedSlash st) (preDotState st) true
    else st
  else
    let st1 :=
      if Z.eqb (endIdx st) (-1)
      then mkScan (startDot st) (startPart st) (i + 1) false (preDotState st) false
      else st in
    if N.eqb code DOT then
      if Z.eqb (startDot st1) (-1)
      then mkScan i (startPart st1) (endIdx st1) (matchedSlash st1) (preDotState st1) false
      else if negb (Z.eqb (preDotState st1) 1)
      then mkScan (startDot st1) (startPart st1) (endIdx st1) (matchedSlash st1) 1 false
      else st1
    else if negb (Z.eqb (startDot st1) (-1))
    then mkScan (startDot st1) (startPart st1) (endIdx st1) (matchedSlash st1) (-1) false
    else st1.

(** The code units with their indices, last first. *)
Definition indexedFromEnd (p : jsstring) : list (Z * N) :=
  rev (combine (map Z.of_nat (seq 0 (List.length p))) p).

(** [path.extname(p)] *)
Definition extname (p : jsstring) : jsstring :=
  let st := fold_left step (indexedFromEnd p) (mkScan (-1) 0 (-1) true 0 false) in
  if Z.eqb (startDot st) (-1)
     || Z.eqb (endIdx st) (-1)
     || Z.eqb (preDotState st) 0
     || (Z.eqb (preDotState st) 1
         && Z.eqb (startDot st) (endIdx st - 1)
         && Z.eqb (startDot st) (startPart st + 1))
  then []
  else firstn (Z.to_nat (endIdx st - startDot st)) (skipn (Z.to_nat (startDot st)) p).

End Path.

(** ** Effects: the file system, the linter, git and the review service *)

(** What a call leaves: a value, or an exception with its [message]. *)
Inductive outcome (A : Type) : Type :=
| Returned (a : A)
| Thrown (message : jsstring).

Arguments Returned {A} a.
Arguments Thrown {A} message.

(** A computation over a state [St] that may throw. *)
Definition M (St A : Type) : Type := St -> outcome A * St.

Definition ret {St A} (a : A) : M St A := fun st => (Returned a, st).

Definition throw {St A} (message : jsstring) : M St A :=
  fun st => (Thrown message, st).

Definition bind {St A B} (m : M St A) (k : A -> M St B) : M St B :=
  fun st =>
    match m st with
    | (Returned a, st') => k a st'
    | (Thrown e, st') => (Thrown e, st')
    end.

(** [try { m } catch (error) { handler(error.message) }]: what [m] did to
    the state before it threw stays done. *)
Definition tryCatch {St A} (m : M St A) (handler : jsstring -> M St A) : M St A :=
  fun st =>
    match m st with
    | (Returned a, st') => (Returned a, st')
    | (Thrown e, st') => handler e st'
    end.

Declare Scope monad_scope.
Delimit Scope monad_scope with monad.
Notation "x <- c1 ;; c2" := (bind c1 (fun x => c2))
  (at level 100, c1 at next level, right associativity) : monad_scope.
Notation "c1 ;; c2" := (bind c1 (fun _ => c2))
  (at level 100, right associativity) : monad_scope.
Open Scope monad_scope.

(** An entry of a directory, as [readdir(..., { withFileTypes: true })]
    gives it. *)
Inductive dirent :=
| File (name : jsstring) (content : jsstring)
| Directory (name : jsstring) (entries : list dirent)
| Other (name : jsstring).       (* neither [isDirectory()] nor [isFile()] *)

Definition direntName (e : dirent) : jsstring :=
  match e with
  | File name _ => name
  | Directory name _ => name
  | Other name => name
  end.

(** The calls that leave the process. *)
Inductive event :=
| EvMkdir (dir : jsstring)
| EvWriteFile (file : jsstring)
| EvLintFiles (file : jsstring)
| EvRm (dir : jsstring)
| EvClone (url dir : jsstring)
| EvReaddir (dir : jsstring)
| EvReadFile (file : jsstring)
| EvReview (text : jsstring).

(** The directories present under the temporary area, each with its
    entries, and the calls made so far, oldest first. *)
Record world := mkWorld {
  directories : list (jsstring * list dirent);
  journal : list event
}.

Definition record (e : event) : M world unit :=
  fun w => (Returned tt, mkWorld (directories w) (journal w ++ [e])).

Definition present (dir : jsstring) (w : world) : bool :=
  existsb (fun d => JsString.eqb (fst d) dir) (directories w).

Definition lookupDir (dir : jsstring) (w : world) : option (list dirent) :=
  option_map snd (find (fun d => JsString.eqb (fst d) dir) (directories w)).

Definition removeDir (dir : jsstring) (w : world) : world :=
  mkWorld (filter (fun d => negb (JsString.eqb (fst d) dir)) (directories w))
          (journal w).

Definition setDir (dir : jsstring) (entries : list dirent) (w : world) : world :=
  mkWorld ((dir, entries) :: directories (removeDir dir w)) (journal w).

(** [mkdir(dir, { recursive: true })]; [ok] is whether the system lets
    the call succeed. *)
Definition mkdir (ok : bool) (dir : jsstring) : M world unit :=
  record (EvMkdir dir) ;;
  if ok then
    fun w => (Returned tt, if present dir w then w else setDir dir [] w)
  else throw (str "mkdir failed").

(** [writeFile(join(dir, name), data)] *)
Definition writeFile (ok : bool) (dir name data : jsstring) : M world unit :=
  record (EvWriteFile (Path.join dir name)) ;;
  if ok then
    fun w =>
      match lookupDir dir w with
      | Some entries =>
          (Returned tt,
           setDir dir (File name data ::
                       filter (fun e => negb (JsString.eqb (direntName e) name)) entries) w)
      | None => (Thrown (str "ENOENT"), w)
      end
  else throw (str "writeFile failed").

(** [rm(dir, { recursive: true, force: true })] *)
Definition rm (ok : bool) (dir : jsstring) : M world unit :=
  record (EvRm dir) ;;
  if ok then fun w => (Returned tt, removeDir dir w)
  else throw (str "rm failed").

(** ** The review route: linting *)

(** A message of ESLint's result. *)
Record eslintMessage := mkMessage {
  em_line : nat;
  em_column : nat;
  em_severity : nat;
  em_message : jsstring;
  em_ruleId : option jsstring
}.

(** An element of the [lintIssues] array; [filePath] is added by the
    repository fan-out. *)
Record lintIssue := mkLintIssue {
  line : nat;
  column : nat;
  severity : jsstring;
  message : jsstring;
  ruleId : option jsstring;
  li_filePath : option jsstring
}.

(** How the system answers during one call of [lintCode]: the directory
    names it hands out, which file-system calls it lets succeed, and what
    ESLint does ([None]: the constructor or [lintFiles] throws).  A file
    that ESLint cannot parse does not make [lintFiles] throw: its result
    holds the parsing error as a message. *)
Record lintEnv := mkLintEnv {
  le_tmpdir : jsstring;                        (* tmpdir() *)
  le_uuid : jsstring;                          (* uuidv4() *)
  le_mkdir : bool;
  le_writeFile : bool;
  le_eslint : option (list eslintMessage);
  le_rm : bool;                                (* the rm after linting *)
  le_rmCatch : bool                            (* the rm of the catch block *)
}.

Definition lintFiles (le : lintEnv) (file : jsstring) : M world (list eslintMessage) :=
  record (EvLintFiles file) ;;
  match le_eslint le with
  | Some messages => ret messages
  | None => throw (str "ESLint failed")
  end.

(** [results[0].messages.map(...)] *)
Definition formatMessage (m : eslintMessage) : lintIssue :=
  {| line := em_line m;
     column := em_column m;
     severity := if Nat.eqb (em_severity m) 2 then str "error" else str "warning";
     message := em_message m;
     ruleId := em_ruleId m;
     li_filePath := None |}.

(** The directory [lintCode] works in. *)
Definition lintTempDir (le : lintEnv) : jsstring :=
  Path.join (le_tmpdir le) (str "code-review-" ++ le_uuid le).

(** [lintCode(code, ext)].  [mkdir] and [writeFile] come before the
    [try]: what they throw leaves the function. *)
Definition lintCode (le : lintEnv) (code ext : jsstring) : M world (list lintIssue) :=
  let tempDir := lintTempDir le in
  mkdir (le_mkdir le) tempDir ;;
  let tempName := str "temp" ++ ext in
  writeFile (le_writeFile le) tempDir tempName code ;;
  tryCatch
    (messages <- lintFiles le (Path.join tempDir tempName) ;;
     let issues := map formatMessage messages in
     rm (le_rm le) tempDir ;;
     ret issues)
    (fun error =>
       tryCatch (rm (le_rmCatch le) tempDir) (fun rmError => ret tt) ;;
       ret []).

(** ** The review route: the repository fan-out *)

(** [results] while the loop runs: the issues are grouped by file. *)
Record fanout := mkFanout {
  lintByFile : list (jsstring * list lintIssue);
  securityByFile : list (jsstring * list securityIssue);
  fo_fileCount : nat;
  fo_processedFiles : list jsstring
}.

(** [results] as returned, the groups flattened. *)
Record results := mkResults {
  lintIssues : list lintIssue;
  securityIssues : list securityIssue;
  fileCount : nat;
  processedFiles : list jsstring
}.

(** The loop works on [results] and on the world. *)
Definition loopState : Type := fanout * world.

Definition onWorld {A} (m : M world A) : M loopState A :=
  fun st =>
    let (r, w') := m (snd st) in (r, (fst st, w')).

Definition update (f : fanout -> fanout) : M loopState unit :=
  fun st => (Returned tt, (f (fst st), snd st)).

Definition pushLint (filePath : jsstring) (issues : list lintIssue) : M loopState unit :=
  update (fun r => mkFanout (lintByFile r ++ [(filePath, issues)]) (securityByFile r)
                            (fo_fileCount r) (fo_processedFiles r)).

Definition pushSecurity (filePath : jsstring) (issues : list securityIssue) : M loopState unit :=
  update (fun r => mkFanout (lintByFile r) (securityByFile r ++ [(filePath, issues)])
                            (fo_fileCount r) (fo_processedFiles r)).

Definition pushProcessed (filePath : jsstring) : M loopState unit :=
  update (fun r => mkFanout (lintByFile r) (securityByFile r)
                            (fo_fileCount r) (fo_processedFiles r ++ [filePath])).

Definition analyzable : list jsstring :=
  [str ".js"; str ".jsx"; str ".ts"; str ".tsx"; str ".py"].

Definition lintable : list jsstring :=
  [str ".js"; str ".jsx"; str ".ts"; str ".tsx"].

(** The body of the [try] of the loop, for one file.  [lintOf] says how
    the system answers while that file is linted. *)
Definition analyzeFile (lintOf : jsstring -> lintEnv)
           (filePath content fileExt : jsstring) : M loopState unit :=
  (if JsString.arrayIncludes lintable fileExt then
     lintResult <- onWorld (lintCode (lintOf filePath) content fileExt) ;;
     if Nat.ltb 0 (List.length lintResult)
     then pushLint filePath lintResult
     else ret tt
   else ret tt) ;;
  let securityResult := scanForSecurityIssues content fileExt in
  (if Nat.ltb 0 (List.length securityResult)
   then pushSecurity filePath securityResult
   else ret tt) ;;
  pushProcessed filePath.

(** [for (const [filePath, content] of Object.entries(files))] *)
Fixpoint forEachEntry (lintOf : jsstring -> lintEnv)
         (entries : list (jsstring * jsstring)) : M loopState unit :=
  match entries with
  | [] => ret tt
  | (filePath, content) :: rest =>
      let fileExt := JsString.toLowerCase (Path.extname filePath) in
      (if JsString.arrayIncludes analyzable fileExt
       then tryCatch (analyzeFile lintOf filePath content fileExt)
                     (fun error => ret tt)
       else ret tt) ;;
      forEachEntry lintOf rest
  end.

(** [{ ...issue, filePath: fileResult.filePath }] *)
Definition withLintPath (filePath : jsstring) (issue : lintIssue) : lintIssue :=
  mkLintIssue (line issue) (column issue) (severity issue) (message issue)
              (ruleId issue) (Some filePath).

Definition withSecurityPath (filePath : jsstring) (issue : securityIssue) : securityIssue :=
  mkSecurityIssue (title issue) (description issue) (location issue) (Some filePath).

(** The two [flatMap]s and the returned object. *)
Definition flatten (r : fanout) : results :=
  {| lintIssues :=
       flat_map (fun fileResult => map (withLintPath (fst fileResult)) (snd fileResult))
                (lintByFile r);
     securityIssues :=
       flat_map (fun fileResult => map (withSecurityPath (fst fileResult)) (snd fileResult))
                (securityByFile r);
     fileCount := fo_fileCount r;
     processedFiles := fo_processedFiles r |}.

(** [processRepositoryFiles(files)]; [files] is the object as
    [Object.entries] lists it: its keys are file paths, never array
    indices, so the order is the insertion order. *)
Definition processRepositoryFiles (lintOf : jsstring -> lintEnv)
           (files : list (jsstring * jsstring)) : M world results :=
  fun w =>
    let start := mkFanout [] [] (List.length files) [] in
    match forEachEntry lintOf files (start, w) with
    | (Returned _, (r, w')) => (Returned (flatten r), w')
    | (Thrown e, (_, w')) => (Thrown e, w')
    end.

(** ** The GitHub processor *)

(** What [new URL(url)] gives that the code reads. *)
Record parsedUrl := mkUrl { hostname : jsstring; pathname : jsstring }.

(** How the system answers during one call of [processRepository]. *)
Record repoEnv := mkRepoEnv {
  re_URL : jsstring -> option parsedUrl;       (* new URL(url); None: it throws *)
  re_tmpdir : jsstring;                        (* tmpdir() *)
  re_uuid : jsstring;                          (* uuidv4() *)
  re_mkdir : bool;
  re_clone : option (list dirent);             (* the tree git.clone leaves; None: it fails *)
  re_readFile : jsstring -> bool;              (* readFile(path) succeeds *)
  re_rmCatch : bool;                           (* the rm after a failed clone *)
  re_rmFinally : bool                          (* the rm of the finally block *)
}.

(** [parts = parsed.pathname.split("/").filter(Boolean)] *)
Definition pathParts (pathname : jsstring) : list jsstring :=
  filter (fun part => negb (JsString.eqb part [])) (JsString.split SLASH pathname).

(** [parseGitHubUrl(url)]: owner and repo. *)
Definition parseGitHubUrl (URL : jsstring -> option parsedUrl) (url : jsstring)
  : outcome (jsstring * jsstring) :=
  let attempt : outcome (jsstring * jsstring) :=
    match URL url with
    | None => Thrown (str "Invalid URL")
    | Some parsed =>
        if negb (JsString.includes (hostname parsed) (str "github.com"))
        then Thrown (str "Not a GitHub URL")
        else
          match pathParts (pathname parsed) with
          | owner :: repo :: _ => Returned (owner, repo)
          | _ => Thrown (str "Invalid GitHub repository URL format")
          end
    end in
  match attempt with
  | Returned r => Returned r
  | Thrown error => Thrown (str "Invalid GitHub URL: " ++ error)
  end.

Definition lift {St A} (r : outcome A) : M St A := fun st => (r, st).

(** [git.clone(url, dir)] *)
Definition gitClone (re : repoEnv) (url dir : jsstring) : M world unit :=
  record (EvClone url dir) ;;
  match re_clone re with
  | Some tree => fun w => (Returned tt, setDir dir tree w)
  | None => throw (str "git clone failed")
  end.

(** [cloneRepository(url)] *)
Definition cloneRepository (re : repoEnv) (url : jsstring) : M world jsstring :=
  ownerRepo <- lift (parseGitHubUrl (re_URL re) url) ;;
  let (owner, repo) := ownerRepo : jsstring * jsstring in
  let tempDir :=
    Path.join (re_tmpdir re)
              (str "github-" ++ owner ++ [DASH] ++ repo ++ [DASH] ++ re_uuid re) in
  tryCatch
    (mkdir (re_mkdir re) tempDir ;;
     gitClone re url tempDir ;;
     ret tempDir)
    (fun error =>
       tryCatch (rm (re_rmCatch re) tempDir) (fun cleanupError => ret tt) ;;
       throw (str "Failed to clone repository: " ++ error)).

(** The directory names [scanDirectory] does not enter. *)
Definition skippedDirectories : list jsstring :=
  [str "node_modules"; str ".git"; str "dist"; str "build"; str "out";
   str ".next"; str "coverage"; str "__pycache__"; str "venv"; str "env";
   str ".venv"].

(** The default of the [extensions] parameter. *)
Definition defaultExtensions : list jsstring :=
  [str ".js"; str ".jsx"; str ".py"].

(** The array [files] and the directories read so far. *)
Record collector := mkCollector {
  files : list jsstring;
  visited : list jsstring
}.

Definition readdirOf (dir : jsstring) (st : collector) : collector :=
  mkCollector (files st) (visited st ++ [dir]).

Definition pushFile (fullPath : jsstring) (st : collector) : collector :=
  mkCollector (files st ++ [fullPath]) (visited st).

(** The body of [for (const entry of entries)]. *)
Fixpoint scanEntry (extensions : list jsstring) (currentDir : jsstring)
         (entry : dirent) (st : collector) {struct entry} : collector :=
  let fullPath := Path.join currentDir (direntName entry) in
  match entry with
  | Directory name children =>
      if negb (JsString.arrayIncludes skippedDirectories name)
      then fold_left (fun st child => scanEntry extensions fullPath child st)
                     children (readdirOf fullPath st)
      else st
  | File name _ =>
      let ext := JsString.toLowerCase (Path.extname name) in
      if JsString.arrayIncludes extensions ext
      then pushFile fullPath st
      else st
  | Other _ => st
  end.

(** [scanDirectory(currentDir)], where [entries] is what [readdir] finds
    there. *)
Definition scanDirectory (extensions : list jsstring) (currentDir : jsstring)
           (entries : list dirent) (st : collector) : collector :=
  fold_left (fun st entry => scanEntry extensions currentDir entry st)
            entries (readdirOf currentDir st).

(** [getCodeFiles(dir, extensions)] on the tree found at [dir].  The
    [readdir] of a directory that is there is taken to succeed: only a
    missing root makes it reject.  In the source a [readdir] that
    rejects below the root leaves [getCodeFiles] as an exception as
    well, and no file is returned then. *)
Definition collect (extensions : list jsstring) (dir : jsstring)
           (entries : list dirent) : collector :=
  scanDirectory extensions dir entries (mkCollector [] []).

Definition getCodeFiles (extensions : list jsstring) (dir : jsstring)
  : M world (list jsstring) :=
  fun w =>
    match lookupDir dir w with
    | Some entries =>
        let st := collect extensions dir entries in
        (Returned (files st),
         mkWorld (directories w) (journal w ++ map EvReaddir (visited st)))
    | None =>
        (Thrown (str "ENOENT"), mkWorld (directories w) (journal w ++ [EvReaddir dir]))
    end.

(** Every file of a tree with its full path. *)
Fixpoint filesOfEntry (dir : jsstring) (entry : dirent) {struct entry}
  : list (jsstring * jsstring) :=
  match entry with
  | File name content => [(Path.join dir name, content)]
  | Directory name children =>
      flat_map (filesOfEntry (Path.join dir name)) children
  | Other _ => []
  end.

(** [readFile(filePath, "utf8")] *)
Definition readFile (re : repoEnv) (filePath : jsstring) : M world jsstring :=
  record (EvReadFile filePath) ;;
  fun w =>
    let stored :=
      flat_map (fun d => flat_map (filesOfEntry (fst d)) (snd d)) (directories w) in
    match find (fun f => JsString.eqb (fst f) filePath) stored with
    | Some f => if re_readFile re filePath then (Returned (snd f), w)
                else (Thrown (str "readFile failed"), w)
    | None => (Thrown (str "ENOENT"), w)
    end.

(** [fileContents[key] = value]: a key already there keeps its place. *)
Fixpoint setProperty (obj : list (jsstring * jsstring)) (key value : jsstring)
  : list (jsstring * jsstring) :=
  match obj with
  | [] => [(key, value)]
  | (k, v) :: rest =>
      if JsString.eqb k key then (k, value) :: rest
      else (k, v) :: setProperty rest key value
  end.

(** [for (const filePath of codeFiles)] *)
Fixpoint readAll (re : repoEnv) (repoDir : jsstring) (codeFiles : list jsstring)
         (fileContents : list (jsstring * jsstring))
  : M world (list (jsstring * jsstring)) :=
  match codeFiles with
  | [] => ret fileContents
  | filePath :: rest =>
      fileContents' <-
        tryCatch
          (content <- readFile re filePath ;;
           let relativePath := Path.relative repoDir filePath in
           ret (setProperty fileContents relativePath content))
          (fun error => ret fileContents) ;;
      readAll re repoDir rest fileContents'
  end.

(** [processRepository(url)].  When [cloneRepository] throws, [repoDir]
    is still [null] and the [finally] block removes nothing. *)
Definition processRepository (re : repoEnv) (url : jsstring)
  : M world (list (jsstring * jsstring)) :=
  fun w =>
    match cloneRepository re url w with
    | (Thrown error, w1) =>
        (Thrown (str "Error processing repository: " ++ error), w1)
    | (Returned repoDir, w1) =>
        let (r, w2) :=
          tryCatch
            (codeFiles <- getCodeFiles defaultExtensions repoDir ;;
             readAll re repoDir codeFiles [])
            (fun error => throw (str "Error processing repository: " ++ error))
            w1 in
        let (_, w3) :=
          tryCatch (rm (re_rmFinally re) repoDir) (fun error => ret tt) w2 in
        (r, w3)
    end.

(** ** The review route: the handler *)

(** [getAIReview(code)]: [completion.choices[0].message.content] as the
    service gives it, a string or [null] (here [None]), or the empty
    string when the call fails.  [openai code] is [None] when the call
    throws. *)
Definition getAIReview (openai : jsstring -> option (option jsstring)) (code : jsstring)
  : M world (option jsstring) :=
  record (EvReview code) ;;
  match openai code with
  | Some content => ret content
  | None => ret (Some [])
  end.

(** The request body, [{ type, content }]. *)
Record request := mkRequest { req_type : jsstring; req_content : jsstring }.

(** The JSON of a response. *)
Inductive responseBody :=
| ErrorBody (error : jsstring)
| SnippetBody (lint : list lintIssue) (security : list securityIssue)
              (aiReview : option jsstring)
| RepositoryBody (repositoryUrl : jsstring) (count : nat)
                 (processed : list jsstring)
                 (lint : list lintIssue) (security : list securityIssue)
                 (aiReview : option jsstring).

Record response := mkResponse { status : nat; body : responseBody }.

(** How the system answers during one request. *)
Record environment := mkEnvironment {
  snippetLint : lintEnv;                    (* while the snippet is linted *)
  fileLint : jsstring -> lintEnv;           (* while the file of that path is linted *)
  repoEnvOf : repoEnv;
  openai : jsstring -> option (option jsstring)
}.

(** [`// File: ${path}\n\n${content}`] of the first three files, joined
    by ["\n\n"]. *)
Definition combinedContent (files : list (jsstring * jsstring)) : jsstring :=
  JsString.join [LF; LF]
    (map (fun f => str "// File: " ++ fst f ++ [LF; LF] ++ snd f) (firstn 3 files)).

(** The branch [type === "code"]. *)
Definition handleSnippet (env : environment) (content : jsstring) : M world response :=
  tryCatch
    (let fileExt := guessFileExtension content in
     if negb (JsString.eqb fileExt (str ".py"))
        && negb (JsString.eqb fileExt (str ".js"))
        && negb (JsString.eqb fileExt (str ".jsx"))
     then ret (mkResponse 400 (ErrorBody
                (str "Unsupported file type. Only Python and JavaScript/JSX are supported.")))
     else
       lint <- lintCode (snippetLint env) content fileExt ;;
       let security := scanForSecurityIssues content fileExt in
       aiReview <- getAIReview (openai env) content ;;
       ret (mkResponse 200 (SnippetBody lint security aiReview)))
    (fun error => ret (mkResponse 500 (ErrorBody (str "Failed to analyze code: " ++ error)))).

(** The branch [type === "repo"]. *)
Definition handleRepository (env : environment) (content : jsstring) : M world response :=
  tryCatch
    (if negb (JsString.includes content (str "github.com"))
     then ret (mkResponse 400 (ErrorBody
                (str "Invalid GitHub URL. Please provide a valid GitHub repository URL.")))
     else
       files <- processRepository (repoEnvOf env) content ;;
       if Nat.eqb (List.length files) 0
       then ret (mkResponse 404 (ErrorBody
                  (str "No JavaScript or Python files found in the repository.")))
       else
         results <- processRepositoryFiles (fileLint env) files ;;
         aiReview <-
           (if Nat.ltb 0 (List.length (firstn 3 files))
            then getAIReview (openai env) (combinedContent files)
            else ret None) ;;
         ret (mkResponse 200
                (RepositoryBody content (fileCount results) (processedFiles results)
                                (lintIssues results) (securityIssues results) aiReview)))
    (fun error => ret (mkResponse 500 (ErrorBody (str "Error processing repository: " ++ error)))).

(** [POST(request)]; [None] is a body that [request.json()] rejects. *)
Definition POST (env : environment) (req : option request) : M world response :=
  match req with
  | None => ret (mkResponse 500 (ErrorBody (str "Internal server error: invalid JSON")))
  | Some r =>
      let content := req_content r in
      if JsString.eqb content []
      then ret (mkResponse 400 (ErrorBody (str "No content provided")))
      else if JsString.eqb (req_type r) (str "code")
      then handleSnippet env content
      else if JsString.eqb (req_type r) (str "repo")
      then handleRepository env content
      else ret (mkResponse 400 (ErrorBody (str "Invalid request type. Must be 'code' or 'repo'.")))
  end.

(** ** The page: de-duplication in [handleSubmit] *)

(** [`${item.line}-${item.message}`] *)
Definition lintIdentifier (item : lintIssue) : jsstring :=
  JsString.ofNat (line item) ++ [DASH] ++ message item.

(** [`${item.location}-${item.title}`] *)
Definition securityIdentifier (item : securityIssue) : jsstring :=
  location item ++ [DASH] ++ title item.

(** [data.lintIssues.reduce(...)] *)
Definition uniqueLintIssues (issues : list lintIssue) : list lintIssue :=
  fold_left
    (fun unique item =>
       let identifier := lintIdentifier item in
       if existsb (fun issue => JsString.eqb (lintIdentifier issue) identifier) unique
       then unique
       else unique ++ [item])
    issues [].

(** [data.securityIssues.reduce(...)] *)
Definition uniqueSecurityIssues (issues : list securityIssue) : list securityIssue :=
  fold_left
    (fun unique item =>
       let identifier := securityIdentifier item in
       if existsb (fun issue => JsString.eqb (securityIdentifier issue) identifier) unique
       then unique
       else unique ++ [item])
    issues [].

(** ** The page: the editor and the submission of the form *)

(** [value.split("\n").length] of the effect of [CodeEditor]. *)
Definition lineCount (value : jsstring) : nat :=
  List.length (JsString.split LF value).

(** [Array(lineCount).fill().map((_, i) => i + 1).join("\n")]: the text
    of the gutter. *)
Definition lineNumbers (value : jsstring) : jsstring :=
  JsString.join [LF] (map (fun i => JsString.ofNat (i + 1)) (seq 0 (lineCount value))).

(** [inputType]: the radio buttons set it to ["code"] or ["repo"]. *)
Inductive inputKind := CodeInput | RepoInput.

Definition kindName (k : inputKind) : jsstring :=
  match k with
  | CodeInput => str "code"
  | RepoInput => str "repo"
  end.

(** The state of [Home]. *)
Record pageState := mkPage {
  inputType : inputKind;
  codeInput : jsstring;
  repoInput : jsstring;
  isLoading : bool;
  pageResults : option responseBody;        (* [results]; [None] is [null] *)
  pageError : jsstring                      (* [error] *)
}.

Definition setIsLoading (b : bool) (st : pageState) : pageState :=
  mkPage (inputType st) (codeInput st) (repoInput st) b (pageResults st) (pageError st).

Definition setResults (data : responseBody) (st : pageState) : pageState :=
  mkPage (inputType st) (codeInput st) (repoInput st) (isLoading st) (Some data) (pageError st).

Definition setError (e : jsstring) (st : pageState) : pageState :=
  mkPage (inputType st) (codeInput st) (repoInput st) (isLoading st) (pageResults st) e.

(** [getCurrentInput()] *)
Definition getCurrentInput (st : pageState) : jsstring :=
  match inputType st with
  | CodeInput => codeInput st
  | RepoInput => repoInput st
  end.

(** [response.ok] *)
Definition responseOk (r : response) : bool :=
  Nat.leb 200 (status r) && Nat.leb (status r) 299.

(** The two [reduce] passes on [data], then [setResults(data)].  A body
    without [lintIssues] makes [data.lintIssues.reduce] throw. *)
Definition showData (data : responseBody) : outcome responseBody :=
  match data with
  | SnippetBody lint security aiReview =>
      Returned (SnippetBody (uniqueLintIssues lint) (uniqueSecurityIssues security) aiReview)
  | RepositoryBody url count processed lint security aiReview =>
      Returned (RepositoryBody url count processed
                               (uniqueLintIssues lint) (uniqueSecurityIssues security) aiReview)
  | ErrorBody _ =>
      Thrown (str "Cannot read properties of undefined (reading 'reduce')")
  end.

(** [handleSubmit(e)]: the state of the page once the handler has run to
    its end.  [fetch] is the answer of the network to the POST of the
    request: a response, or a rejection with its message. *)
Definition handleSubmit (fetch : request -> outcome response) (st : pageState) : pageState :=
  let currentInput := getCurrentInput st in
  if JsString.eqb currentInput []
  then setError (str "Please enter code or a GitHub repository URL") st
  else
    let st1 := setError [] (setIsLoading true st) in
    let attempt : outcome responseBody :=
      match fetch (mkRequest (kindName (inputType st)) currentInput) with
      | Thrown e => Thrown e
      | Returned response =>
          if negb (responseOk response)
          then Thrown (str "Failed to analyze code please check the code or link and try again")
          else showData (body response)
      end in
    let st2 :=
      match attempt with
      | Returned data => setResults data st1
      | Thrown e =>
          setError (if JsString.eqb e []
                    then str "An error occurred during code analysis" else e) st1
      end in
    setIsLoading false st2.

(** The page in front of the handler: [fetch] is [POST] run on the
    request in the world [w]. *)
Definition serverFetch (env : environment) (w : world) (req : request) : outcome response :=
  fst (POST env (Some req) w).

(** * Vocabulary of the statements *)

(** ** Strings and lists *)

(** The newline code units before position [i]. *)
Definition newlinesBefore (code : jsstring) (i : nat) : nat :=
  count_occ N.eq_dec (firstn i code) LF.

(** A string without the dash that separates the two halves of an
    identifier. *)
Definition dashFree (s : jsstring) : bool :=
  forallb (fun c => negb (N.eqb c DASH)) s.

(** No two strings of a list are equal. *)
Fixpoint distinct (l : list jsstring) : bool :=
  match l with
  | [] => true
  | x :: l' => negb (JsString.arrayIncludes l' x) && distinct l'
  end.

(** [l1] is [l2] with some elements left out, the others in their order. *)
Inductive Subsequence {A : Type} : list A -> list A -> Prop :=
| sub_nil : Subsequence [] []
| sub_skip x l1 l2 : Subsequence l1 l2 -> Subsequence l1 (x :: l2)
| sub_keep x l1 l2 : Subsequence l1 l2 -> Subsequence (x :: l1) (x :: l2).

(** ** Matches *)

(** The iteration of a global pattern over [s], as [matchAll] runs it:
    from [lastIndex] the next match is the one at the first position
    where the pattern matches; the search goes on behind it, one unit
    further after an empty match, and ends when no position up to the
    end of the string matches. *)
Inductive GlobalMatches (re : RegExp.t) (s : jsstring) : nat -> list RegExp.result -> Prop :=
| gm_done lastIndex :
    (forall p, lastIndex <= p <= List.length s ->
               RegExp.matchHere re (skipn p s) = None) ->
    GlobalMatches re s lastIndex []
| gm_next lastIndex i len rest :
    lastIndex <= i <= List.length s ->
    (forall p, lastIndex <= p < i -> RegExp.matchHere re (skipn p s) = None) ->
    RegExp.matchHere re (skipn i s) = Some len ->
    GlobalMatches re s (i + Nat.max len 1) rest ->
    GlobalMatches re s lastIndex (RegExp.mkResult i len :: rest).

(** The matches lie one behind the other inside a string of length [n]. *)
Fixpoint Disjoint (n : nat) (from : nat) (ms : list RegExp.result) : Prop :=
  match ms with
  | [] => True
  | m :: rest =>
      from <= RegExp.index m /\
      RegExp.index m + RegExp.matched m <= n /\
      Disjoint n (RegExp.index m + Nat.max (RegExp.matched m) 1) rest
  end.

(** ** Findings *)

(** The findings of one catalog entry on [code], and whether the entry
    applies to a file type. *)
Definition findingsOf (code : jsstring) (p : securityPattern) : list securityIssue :=
  map (issueOf p code) (RegExp.matchAll (sp_pattern p) code).

Definition applies (fileType : jsstring) (p : securityPattern) : bool :=
  negb (skipped p fileType).

(** The finding of an entry at a match, its line written as the number
    of newlines before the match, plus one. *)
Definition findingAtLine (p : securityPattern) (code : jsstring)
           (m : RegExp.result) : securityIssue :=
  {| title := sp_title p;
     description := sp_description p;
     location := str "Line " ++ JsString.ofNat (newlinesBefore code (RegExp.index m) + 1);
     si_filePath := None |}.

(** The file type is among the languages of the entry, or the entry has
    no language restriction. *)
Definition languageAllowed (p : securityPattern) (fileType : jsstring) : Prop :=
  match sp_languages p with
  | Some langs => In fileType langs
  | None => True
  end.

(** The snippet of the eval scenario and its finding. *)
Definition evalSnippet : jsstring := str "eval(userInput)".

Definition evalFinding : securityIssue :=
  {| title := str "Dangerous use of eval()";
     description := str "The eval() function can execute arbitrary code, posing a security risk.";
     location := str "Line 1";
     si_filePath := None |}.

(** ** Linting *)

(** What [lintCode] leaves: the exception of a failed [mkdir] or
    [writeFile], otherwise the formatted messages, or nothing when ESLint
    or the removal of the directory failed. *)
Definition lintOutput (le : lintEnv) : list lintIssue :=
  match le_eslint le with
  | Some messages => if le_rm le then map formatMessage messages else []
  | None => []
  end.

Definition lintCodeResult (le : lintEnv) : outcome (list lintIssue) :=
  if negb (le_mkdir le) then Thrown (str "mkdir failed")
  else if negb (le_writeFile le) then Thrown (str "writeFile failed")
  else Returned (lintOutput le).

(** Whether the working directory of [lintCode] is there afterwards, in a
    world [w] to start from. *)
Definition tempDirLeft (le : lintEnv) (w : world) : bool :=
  if le_mkdir le then
    if le_writeFile le then
      match le_eslint le with
      | Some _ => if le_rm le then false else negb (le_rmCatch le)
      | None => negb (le_rmCatch le)
      end
    else true
  else present (lintTempDir le) w.

(** A temporary volume on which the directory can be made and the file
    cannot be written. *)
Definition fullVolume : lintEnv :=
  mkLintEnv (str "/tmp") (str "0001") true false (Some []) true true.

(** ** The fan-out *)

(** The extension the fan-out computes for an entry of [files]. *)
Definition extOf (f : jsstring * jsstring) : jsstring :=
  JsString.toLowerCase (Path.extname (fst f)).

(** [lintCode] throws on this entry. *)
Definition lintThrows (lintOf : jsstring -> lintEnv) (f : jsstring * jsstring) : bool :=
  JsString.arrayIncludes lintable (extOf f)
  && negb (le_mkdir (lintOf (fst f)) && le_writeFile (lintOf (fst f))).

(** The [try] block of the entry runs to its end. *)
Definition completes (lintOf : jsstring -> lintEnv) (f : jsstring * jsstring) : bool :=
  JsString.arrayIncludes analyzable (extOf f) && negb (lintThrows lintOf f).

(** What one turn of the loop does to [results]. *)
Definition turn (lintOf : jsstring -> lintEnv) (r : fanout) (f : jsstring * jsstring)
  : fanout :=
  if completes lintOf f then
    let lintResult :=
      if JsString.arrayIncludes lintable (extOf f)
      then lintOutput (lintOf (fst f)) else [] in
    let securityResult := scanForSecurityIssues (snd f) (extOf f) in
    mkFanout
      (lintByFile r ++
         if Nat.ltb 0 (List.length lintResult) then [(fst f, lintResult)] else [])
      (securityByFile r ++
         if Nat.ltb 0 (List.length securityResult) then [(fst f, securityResult)] else [])
      (fo_fileCount r)
      (fo_processedFiles r ++ [fst f])
  else r.

(** The issues an entry brings into the report. *)
Definition lintIssuesOf (lintOf : jsstring -> lintEnv) (f : jsstring * jsstring)
  : list lintIssue :=
  if completes lintOf f && JsString.arrayIncludes lintable (extOf f)
  then map (withLintPath (fst f)) (lintOutput (lintOf (fst f)))
  else [].

Definition securityIssuesOf (lintOf : jsstring -> lintEnv) (f : jsstring * jsstring)
  : list securityIssue :=
  if completes lintOf f
  then map (withSecurityPath (fst f)) (scanForSecurityIssues (snd f) (extOf f))
  else [].

(** The report of the fan-out, entry by entry. *)
Definition reportOf (lintOf : jsstring -> lintEnv) (files : list (jsstring * jsstring))
  : results :=
  {| lintIssues := flat_map (lintIssuesOf lintOf) files;
     securityIssues := flat_map (securityIssuesOf lintOf) files;
     fileCount := List.length files;
     processedFiles := map fst (filter (completes lintOf) files) |}.

(** The call of [lintCode] the fan-out makes for an entry throws, from
    some state of the temporary area. *)
Definition LintCodeThrows (lintOf : jsstring -> lintEnv) (f : jsstring * jsstring) : Prop :=
  exists w e w',
    lintCode (lintOf (fst f)) (snd f) (extOf f) w = (Thrown e, w').

(** That call returns [issues], from some state of the temporary area. *)
Definition LintCodeReturns (lintOf : jsstring -> lintEnv) (f : jsstring * jsstring)
           (issues : list lintIssue) : Prop :=
  exists w w',
    lintCode (lintOf (fst f)) (snd f) (extOf f) w = (Returned issues, w').

(** An entry the fan-out analyzes to the end: its extension is one of
    the analyzed ones and, where it is linted, [lintCode] returns. *)
Definition Clean (lintOf : jsstring -> lintEnv) (f : jsstring * jsstring) : Prop :=
  JsString.arrayIncludes analyzable (extOf f) = true
  /\ (JsString.arrayIncludes lintable (extOf f) = true ->
      exists issues, LintCodeReturns lintOf f issues).

(** What ESLint reports for a file it cannot parse: one fatal message
    of severity 2 that comes from no rule. *)
Definition parsingError : eslintMessage :=
  mkMessage 1 10 2 (str "Parsing error: Unexpected token (") None.

(** A system on which everything works, while a file that does not
    parse is linted. *)
Definition unparsableLint : lintEnv :=
  mkLintEnv (str "/tmp") (str "0001") true true (Some [parsingError]) true true.

(** A system on which everything works and ESLint has nothing to
    report. *)
Definition quietLint : lintEnv :=
  mkLintEnv (str "/tmp") (str "0001") true true (Some []) true true.

(** The repository of one file that does not parse and two clean files,
    and how the system answers while each is linted. *)
Definition unparsableFiles : list (jsstring * jsstring) :=
  [(str "bad.js", str "function ("); (str "a.js", str "let a = 1;");
   (str "b.py", str "print(1)")].

Definition unparsableLintOf (path : jsstring) : lintEnv :=
  if JsString.eqb path (str "bad.js") then unparsableLint else quietLint.

(** The two-file repository of the scenario, and the findings expected
    of it. *)
Definition scenarioFiles : list (jsstring * jsstring) :=
  [(str "a.py", str "os.system(cmd)"); (str "b.js", str "el.innerHTML = x")].

Definition systemFinding : securityIssue :=
  {| title := str "Dangerous system command execution";
     description := str "Direct execution of system commands can lead to command injection vulnerabilities.";
     location := str "Line 1";
     si_filePath := Some (str "a.py") |}.

Definition innerHtmlFinding : securityIssue :=
  {| title := str "Potential XSS vulnerability";
     description := str "Using innerHTML can lead to cross-site scripting attacks.";
     location := str "Line 1";
     si_filePath := Some (str "b.js") |}.

(** ** Trees *)

(** [name] is a file of the tree [entries], found by going down the
    directories [dirs], outermost first. *)
Inductive FileAt : list dirent -> list jsstring -> jsstring -> Prop :=
| fa_here entries name content :
    In (File name content) entries -> FileAt entries [] name
| fa_below entries d children dirs name :
    In (Directory d children) entries -> FileAt children dirs name ->
    FileAt entries (d :: dirs) name.

(** Going down [dirs] from the top of the tree leads to a directory. *)
Inductive DirAt : list dirent -> list jsstring -> Prop :=
| da_top entries : DirAt entries []
| da_below entries d children dirs :
    In (Directory d children) entries -> DirAt children dirs ->
    DirAt entries (d :: dirs).

(** The path [path.join] builds going down [names] from [dir]. *)
Definition pathBelow (dir : jsstring) (names : list jsstring) : jsstring :=
  fold_left Path.join names dir.

(** None of the names is one [scanDirectory] skips. *)
Definition allEntered (dirs : list jsstring) : Prop :=
  Forall (fun d => JsString.arrayIncludes skippedDirectories d = false) dirs.

(** The extension of the name, lower-cased, is one of [extensions]. *)
Definition extensionKept (extensions : list jsstring) (name : jsstring) : Prop :=
  JsString.arrayIncludes extensions (JsString.toLowerCase (Path.extname name)) = true.

(** A file that is found going down from [cur] through directories that
    are all entered, and whose extension is kept. *)
Definition foundBelow (extensions : list jsstring) (cur : jsstring)
           (entries : list dirent) (p : jsstring) : Prop :=
  exists dirs name,
    FileAt entries dirs name
    /\ allEntered dirs
    /\ extensionKept extensions name
    /\ p = Path.join (pathBelow cur dirs) name.

(** A directory below [cur] that is reached through directories that
    are all entered, itself included. *)
Definition readBelow (cur : jsstring) (entries : list dirent) (v : jsstring) : Prop :=
  exists d dirs,
    DirAt entries (d :: dirs)
    /\ allEntered (d :: dirs)
    /\ v = pathBelow cur (d :: dirs).

(** A checkout with a dependency directory, a source directory and a
    file whose extension is in upper case. *)
Definition sampleTree : list dirent :=
  [File (str "a.js") (str "let a = 1;");
   Directory (str "node_modules") [File (str "x.js") (str "eval(1)")];
   Directory (str "src") [File (str "B.PY") (str "print(1)");
                          File (str "c.txt") (str "notes");
                          Other (str "link.js")]].

(** ** De-duplication *)

(** The [reduce] of [handleSubmit] for an arbitrary identifier: both
    passes are instances of it. *)
Definition uniqueBy {A : Type} (identifier : A -> jsstring) (items : list A) : list A :=
  fold_left
    (fun unique item =>
       if existsb (fun issue => JsString.eqb (identifier issue) (identifier item)) unique
       then unique
       else unique ++ [item])
    items [].

(** The elements of [items] whose identifier is neither in [seen] nor
    carried by an earlier element. *)
Fixpoint firstOccurrences {A : Type} (identifier : A -> jsstring)
         (seen : list jsstring) (items : list A) : list A :=
  match items with
  | [] => []
  | item :: rest =>
      if JsString.arrayIncludes seen (identifier item)
      then firstOccurrences identifier seen rest
      else item :: firstOccurrences identifier (seen ++ [identifier item]) rest
  end.

(** [item] is a duplicate of [other]: they have the same identifier. *)
Definition duplicateOf {A : Type} (identifier : A -> jsstring) (other item : A) : bool :=
  JsString.eqb (identifier item) (identifier other).

(** ** Requests *)

(** The two repository requests of the scenarios. *)
Definition notGithubUrl : jsstring := str "https://example.com/not-github".
Definition lookalikeUrl : jsstring := str "https://notgithub.com/a/b".

Definition repoRequest (content : jsstring) : option request :=
  Some (mkRequest (str "repo") content).

Definition invalidUrlResponse : response :=
  mkResponse 400 (ErrorBody
    (str "Invalid GitHub URL. Please provide a valid GitHub repository URL.")).

(** The journal has a call of [git.clone]. *)
Definition cloneAttempted (w : world) : Prop :=
  exists url dir, In (EvClone url dir) (journal w).

(** A system on which the clone of the look-alike address fails. *)
Definition lookalikeEnvironment : environment :=
  let lint := mkLintEnv (str "/tmp") (str "0001") true true (Some []) true true in
  mkEnvironment lint (fun _ => lint)
    (mkRepoEnv
       (fun url => if JsString.eqb url lookalikeUrl
                   then Some (mkUrl (str "notgithub.com") (str "/a/b"))
                   else None)
       (str "/tmp") (str "0002") true None (fun _ => true) true true)
    (fun _ => None).

(** A GitHub address behind which the sample checkout is cloned, on a
    system whose temporary volume takes no JavaScript file. *)
Definition sampleUrl : jsstring := str "https://github.com/owner/repo".

Definition sampleEnvironment : environment :=
  mkEnvironment fullVolume (fun _ => fullVolume)
    (mkRepoEnv
       (fun url => if JsString.eqb url sampleUrl
                   then Some (mkUrl (str "github.com") (str "/owner/repo"))
                   else None)
       (str "/tmp") (str "0002") true (Some sampleTree) (fun _ => true) true true)
    (fun _ => None).

(** ** Further vocabulary: the scanner *)

(** The file types some catalog entry names. *)
Definition knownTypes : list jsstring :=
  [str "js"; str "jsx"; str "ts"; str "tsx"; str "py"].

(** The pattern can match the empty string. *)
Fixpoint nullable (r : RegExp.regex) : bool :=
  match r with
  | RegExp.Eps => true
  | RegExp.Chr _ => false
  | RegExp.Cls _ _ => false
  | RegExp.Seq r1 r2 => nullable r1 && nullable r2
  | RegExp.Alt r1 r2 => nullable r1 || nullable r2
  | RegExp.Star _ => true
  end.

(** The line numbers of the findings of an entry, in the order of the
    findings. *)
Definition linesOf (code : jsstring) (p : securityPattern) : list nat :=
  map (fun m => lineNumberAt code (RegExp.index m)) (RegExp.matchAll (sp_pattern p) code).

(** ** Further vocabulary: the calls on the temporary area *)

(** From [w] to [w'] the calls [evs] were made, and no directory other
    than [dir] was touched. *)
Definition Extends (dir : jsstring) (evs : list event) (w w' : world) : Prop :=
  journal w' = journal w ++ evs
  /\ forall d, d <> dir -> lookupDir d w' = lookupDir d w.

(** The calls one run of [lintCode] makes. *)
Definition lintCalls (le : lintEnv) (ext : jsstring) : list event :=
  let dir := lintTempDir le in
  let file := Path.join dir (str "temp" ++ ext) in
  EvMkdir dir ::
  if le_mkdir le then
    EvWriteFile file ::
    if le_writeFile le then
      EvLintFiles file ::
      match le_eslint le with
      | Some _ => EvRm dir :: if le_rm le then [] else [EvRm dir]
      | None => [EvRm dir]
      end
    else []
  else [].

(** A system on which everything works and ESLint reports one unused
    variable and one missing semicolon. *)
Definition twoMessages : list eslintMessage :=
  [mkMessage 1 5 1 (str "'a' is assigned a value but never used.") (Some (str "no-unused-vars"));
   mkMessage 1 10 2 (str "Missing semicolon.") (Some (str "semi"))].

Definition workingLint : lintEnv :=
  mkLintEnv (str "/tmp") (str "0003") true true (Some twoMessages) true true.

(** The same system, where the directory cannot be removed after the
    linting. *)
Definition stuckLint : lintEnv :=
  mkLintEnv (str "/tmp") (str "0003") true true (Some twoMessages) false true.

(** A system on which ESLint throws. *)
Definition brokenLinter : lintEnv :=
  mkLintEnv (str "/tmp") (str "0003") true true None true true.

(** ** Further vocabulary: the handler *)

Definition codeRequest (content : jsstring) : option request :=
  Some (mkRequest (str "code") content).

(** The test of the snippet branch on the guessed extension. *)
Definition unsupportedSnippet (fileExt : jsstring) : bool :=
  negb (JsString.eqb fileExt (str ".py"))
  && negb (JsString.eqb fileExt (str ".js"))
  && negb (JsString.eqb fileExt (str ".jsx")).

(** What [getAIReview] returns: the content of the answer, [null]
    included, or the empty string when the call failed. *)
Definition reviewText (env : environment) (code : jsstring) : option jsstring :=
  match openai env code with
  | Some content => content
  | None => Some []
  end.

(** The answer of the snippet branch and the calls it makes. *)
Definition snippetResponse (env : environment) (content : jsstring) : response :=
  let fileExt := guessFileExtension content in
  if unsupportedSnippet fileExt
  then mkResponse 400 (ErrorBody
         (str "Unsupported file type. Only Python and JavaScript/JSX are supported."))
  else
    match lintCodeResult (snippetLint env) with
    | Thrown e => mkResponse 500 (ErrorBody (str "Failed to analyze code: " ++ e))
    | Returned lint =>
        mkResponse 200 (SnippetBody lint (scanForSecurityIssues content fileExt)
                                    (reviewText env content))
    end.

Definition snippetCalls (env : environment) (content : jsstring) : list event :=
  let fileExt := guessFileExtension content in
  if unsupportedSnippet fileExt then []
  else
    lintCalls (snippetLint env) fileExt ++
    match lintCodeResult (snippetLint env) with
    | Thrown _ => []
    | Returned _ => [EvReview content]
    end.

(** The body of a response without the text of the review. *)
Definition withoutReview (b : responseBody) : responseBody :=
  match b with
  | ErrorBody e => ErrorBody e
  | SnippetBody lint security _ => SnippetBody lint security None
  | RepositoryBody url count processed lint security _ =>
      RepositoryBody url count processed lint security None
  end.

(** The same system with another review service. *)
Definition withReview (env : environment) (service : jsstring -> option (option jsstring))
  : environment :=
  mkEnvironment (snippetLint env) (fileLint env) (repoEnvOf env) service.

(** The body carries results, not an error. *)
Definition isResults (b : responseBody) : bool :=
  match b with
  | ErrorBody _ => false
  | _ => true
  end.

(** A system on which everything works, with a review service that
    answers. *)
Definition workingEnvironment : environment :=
  mkEnvironment workingLint (fun _ => workingLint)
    (mkRepoEnv
       (fun url => if JsString.eqb url sampleUrl
                   then Some (mkUrl (str "github.com") (str "/owner/repo"))
                   else None)
       (str "/tmp") (str "0002") true (Some sampleTree) (fun _ => true) true true)
    (fun _ => Some (Some (str "Looks fine."))).

(** The same system, whose review service answers without content:
    [message.content] is [null]. *)
Definition emptyReviewEnvironment : environment :=
  withReview workingEnvironment (fun _ => Some None).


(** ** Further vocabulary: the checkout *)

(** The directory [cloneRepository] clones into. *)
Definition cloneDir (re : repoEnv) (owner repo : jsstring) : jsstring :=
  Path.join (re_tmpdir re)
            (str "github-" ++ owner ++ [DASH] ++ repo ++ [DASH] ++ re_uuid re).

(** What [cloneRepository] leaves for an address that parses, and the
    calls it makes. *)
Definition cloneResult (re : repoEnv) (dir : jsstring) : outcome jsstring :=
  if re_mkdir re then
    match re_clone re with
    | Some _ => Returned dir
    | None => Thrown (str "Failed to clone repository: " ++ str "git clone failed")
    end
  else Thrown (str "Failed to clone repository: " ++ str "mkdir failed").

Definition cloneCalls (re : repoEnv) (url dir : jsstring) : list event :=
  EvMkdir dir ::
  if re_mkdir re then
    EvClone url dir ::
    match re_clone re with
    | Some _ => []
    | None => [EvRm dir]
    end
  else [EvRm dir].


(** An address that names GitHub in its path only. *)
Definition pathOnlyUrl : jsstring := str "https://example.com/github.com/repo".

Definition pathOnlyEnvironment : environment :=
  mkEnvironment workingLint (fun _ => workingLint)
    (mkRepoEnv
       (fun url => if JsString.eqb url pathOnlyUrl
                   then Some (mkUrl (str "example.com") (str "/github.com/repo"))
                   else None)
       (str "/tmp") (str "0002") true (Some sampleTree) (fun _ => true) true true)
    (fun _ => None).

(** ** Further vocabulary: the guess of the file type *)

(** The second test of [guessFileExtension]: one of the five JavaScript
    words occurs somewhere in the code. *)
Definition javascriptWords (code : jsstring) : bool :=
  includesLit code "function" || includesLit code "=>" || includesLit code "const"
  || includesLit code "let" || includesLit code "var".


(** A Python snippet in which a name contains a JavaScript word. *)
Definition pythonLetter : jsstring :=
  str "def letter(cmd):" ++ [LF] ++ str "    os.system(cmd)".

(** ** Further vocabulary: the extension of a path *)







(** * Properties *)

(** ** Strings *)

Section StringFacts.

Lemma eqb_eq (a b : jsstring) : JsString.eqb a b = true <-> a = b.
Proof.
  revert b; induction a as [|x a IH]; intros [|y b]; simpl; split;
    try congruence; try reflexivity.
  - intros H. apply andb_true_iff in H as [Hx Hab].
    apply N.eqb_eq in Hx. apply IH in Hab. congruence.
  - intros H. injection H as -> ->.
    rewrite N.eqb_refl. simpl. now apply IH.
Qed.

Lemma eqb_refl (a : jsstring) : JsString.eqb a a = true.
Proof. now apply eqb_eq. Qed.

Lemma eqb_neq (a b : jsstring) : JsString.eqb a b = false <-> a <> b.
Proof.
  split.
  - intros H E. apply eqb_eq in E. congruence.
  - intros H. destruct (JsString.eqb a b) eqn:E; [|reflexivity].
    apply eqb_eq in E. contradiction.
Qed.

Lemma eqb_sym (a b : jsstring) : JsString.eqb a b = JsString.eqb b a.
Proof.
  destruct (JsString.eqb a b) eqn:E1, (JsString.eqb b a) eqn:E2; try reflexivity.
  - apply eqb_eq in E1. subst. now rewrite eqb_refl in E2.
  - apply eqb_eq in E2. subst. now rewrite eqb_refl in E1.
Qed.

Lemma arrayIncludes_In (arr : list jsstring) (s : jsstring) :
  JsString.arrayIncludes arr s = true <-> In s arr.
Proof.
  unfold JsString.arrayIncludes. rewrite existsb_exists. split.
  - intros (x & Hx & E). apply eqb_eq in E. now subst.
  - intros H. exists s. split; [assumption | apply eqb_refl].
Qed.

Lemma startsWith_spec (p s : jsstring) :
  JsString.startsWith p s = true <-> exists post, s = p ++ post.
Proof.
  revert s; induction p as [|x p IH]; intros s; simpl.
  - split; [intros _; now exists s | reflexivity].
  - destruct s as [|y s].
    + split; [discriminate | intros (post & E); discriminate].
    + rewrite andb_true_iff, N.eqb_eq, IH. split.
      * intros (-> & post & ->). now exists post.
      * intros (post & E). injection E as -> ->. split; [reflexivity | now exists post].
Qed.

(** [includes] is the substring test. *)
Lemma includes_spec (s p : jsstring) :
  JsString.includes s p = true <-> exists pre post, s = pre ++ p ++ post.
Proof.
  induction s as [|x s IH]; simpl.
  - rewrite orb_false_r, startsWith_spec. split.
    + intros (post & E). now exists [], post.
    + intros (pre & post & E). symmetry in E.
      apply app_eq_nil in E as [-> E]. exists post. now symmetry.
  - rewrite orb_true_iff, startsWith_spec, IH. split.
    + intros [(post & E) | (pre & post & E)].
      * now exists [], post.
      * exists (x :: pre), post. simpl. now rewrite E.
    + intros (pre & post & E). destruct pre as [|y pre]; simpl in E.
      * left. now exists post.
      * right. injection E as -> ->. now exists pre, post.
Qed.

Lemma split_not_nil (c : N) (s : jsstring) : JsString.split c s <> [].
Proof.
  destruct s as [|x s]; simpl; [discriminate|].
  destruct (N.eqb x c); [discriminate|].
  destruct (JsString.split c s); discriminate.
Qed.

(** A string has one piece more than it has separators. *)
Lemma split_length (c : N) (s : jsstring) :
  List.length (JsString.split c s) = S (count_occ N.eq_dec s c).
Proof.
  induction s as [|x s IH]; simpl; [reflexivity|].
  destruct (N.eq_dec x c) as [E|E].
  - apply N.eqb_eq in E. rewrite E. simpl. now rewrite IH.
  - apply N.eqb_neq in E. rewrite E.
    destruct (JsString.split c s) eqn:Es.
    + now apply split_not_nil in Es.
    + simpl in *. assumption.
Qed.

Lemma lineNumberAt_newlines (code : jsstring) (i : nat) :
  lineNumberAt code i = newlinesBefore code i + 1.
Proof.
  unfold lineNumberAt, newlinesBefore, JsString.substring0.
  rewrite split_length. lia.
Qed.

Lemma digits_inj (d d' : Decimal.uint) :
  JsString.digits d = JsString.digits d' -> d = d'.
Proof.
  revert d'; induction d; intros d'; destruct d'; simpl; intros H;
    try discriminate; try reflexivity;
    injection H as H; f_equal; now apply IHd.
Qed.

Lemma ofNat_inj (n n' : nat) : JsString.ofNat n = JsString.ofNat n' -> n = n'.
Proof.
  unfold JsString.ofNat. intros H.
  now apply Unsigned.to_uint_inj, digits_inj.
Qed.

Lemma digits_dashFree (d : Decimal.uint) : dashFree (JsString.digits d) = true.
Proof. induction d; simpl; auto. Qed.

Lemma ofNat_dashFree (n : nat) : dashFree (JsString.ofNat n) = true.
Proof. apply digits_dashFree. Qed.

Lemma dashFree_app (a b : jsstring) :
  dashFree (a ++ b) = dashFree a && dashFree b.
Proof. unfold dashFree. apply forallb_app. Qed.

(** The first dash of [a ++ "-" ++ b] is the one written between a
    dash-free [a] and [b]: the two halves can be read back. *)
Lemma dash_split (a a' b b' : jsstring) :
  dashFree a = true -> dashFree a' = true ->
  a ++ [DASH] ++ b = a' ++ [DASH] ++ b' -> a = a' /\ b = b'.
Proof.
  revert a'; induction a as [|x a IH]; intros [|y a'] Ha Ha' E; simpl in *.
  - injection E as ->. now split.
  - injection E as <- _. now rewrite N.eqb_refl in Ha'.
  - injection E as -> _. now rewrite N.eqb_refl in Ha.
  - injection E as -> E.
    apply andb_true_iff in Ha as [_ Ha]. apply andb_true_iff in Ha' as [_ Ha'].
    destruct (IH a' Ha Ha' E) as [-> ->]. now split.
Qed.

End StringFacts.

(** ** Regular expressions *)

Section RegExpFacts.
Import RegExp.

Lemma flat_map_nil_in {A B} (f : A -> list B) (l : list A) :
  (forall a, In a l -> f a = []) -> flat_map f l = [].
Proof.
  induction l as [|a l IH]; simpl; intros H; [reflexivity|].
  rewrite (H a) by now left. apply IH. intros b Hb. apply H. now right.
Qed.

Lemma flat_map_ext_in' {A B} (f g : A -> list B) (l : list A) :
  (forall a, In a l -> f a = g a) -> flat_map f l = flat_map g l.
Proof.
  induction l as [|a l IH]; simpl; intros H; [reflexivity|].
  rewrite (H a) by now left. f_equal. apply IH. intros b Hb. apply H. now right.
Qed.

Section RepeatFacts.
Variable once : list N -> list nat.
Hypothesis once_bound : forall s n, In n (once s) -> n <= List.length s.

Lemma repeatGreedy_bound fuel :
  forall s n, In n (repeatGreedy once fuel s) -> n <= List.length s.
Proof.
  induction fuel as [|fuel IH]; intros s n; simpl.
  - intros [<- | []]. lia.
  - rewrite in_app_iff, in_flat_map. intros [(n1 & H1 & Hn) | [<- | []]]; [|lia].
    destruct (Nat.eqb n1 0) eqn:E; [destruct Hn|].
    apply in_map_iff in Hn as (n2 & <- & H2).
    apply IH in H2. apply once_bound in H1. rewrite length_skipn in H2. lia.
Qed.

(** More fuel than the string is long changes nothing. *)
Lemma repeatGreedy_fuel fuel1 :
  forall fuel2 s, List.length s <= fuel1 -> List.length s <= fuel2 ->
                  repeatGreedy once fuel1 s = repeatGreedy once fuel2 s.
Proof.
  induction fuel1 as [|fuel1 IH]; intros [|fuel2] s H1 H2; simpl; try reflexivity.
  - rewrite flat_map_nil_in; [reflexivity|]. intros n Hn.
    apply once_bound in Hn. replace n with 0 by lia. reflexivity.
  - rewrite flat_map_nil_in; [reflexivity|]. intros n Hn.
    apply once_bound in Hn. replace n with 0 by lia. reflexivity.
  - f_equal. apply flat_map_ext_in'. intros n Hn.
    destruct (Nat.eqb n 0) eqn:E; [reflexivity|].
    apply Nat.eqb_neq in E. apply once_bound in Hn.
    f_equal. apply IH; rewrite length_skipn; lia.
Qed.

(** The repetition is one turn and the repetition again, or nothing. *)
Lemma repeatGreedy_unfold s :
  repeatGreedy once (List.length s) s =
  flat_map (fun n1 =>
              if Nat.eqb n1 0 then []
              else map (Nat.add n1)
                       (repeatGreedy once (List.length (skipn n1 s)) (skipn n1 s)))
           (once s)
  ++ [0].
Proof.
  destruct s as [|c s]; simpl List.length.
  - simpl repeatGreedy at 1. rewrite flat_map_nil_in; [reflexivity|].
    intros n Hn. apply once_bound in Hn. simpl in Hn.
    replace n with 0 by lia. reflexivity.
  - simpl repeatGreedy at 1. f_equal. apply flat_map_ext_in'. intros n Hn.
    destruct (Nat.eqb n 0) eqn:E; [reflexivity|].
    apply Nat.eqb_neq in E. apply once_bound in Hn. simpl in Hn.
    f_equal. apply repeatGreedy_fuel;
      rewrite length_skipn; simpl List.length; lia.
Qed.
End RepeatFacts.

(** A match never runs over the end of the string. *)
Lemma ends_bound ic r :
  forall s n, In n (ends ic r s) -> n <= List.length s.
Proof.
  induction r as [|p|invert items|r1 IH1 r2 IH2|r1 IH1 r2 IH2|r IH];
    intros s n; simpl.
  - intros [<- | []]. lia.
  - destruct s as [|c s]; [intros []|].
    destruct (unitMatches ic p c); [intros [<- | []]; simpl; lia | intros []].
  - destruct s as [|c s]; [intros []|].
    destruct (xorb invert (inClass ic items c)); [intros [<- | []]; simpl; lia | intros []].
  - rewrite in_flat_map. intros (n1 & H1 & Hn).
    apply in_map_iff in Hn as (n2 & <- & H2).
    apply IH1 in H1. apply IH2 in H2. rewrite length_skipn in H2. lia.
  - rewrite in_app_iff. intros [H | H]; [now apply IH1 | now apply IH2].
  - now apply repeatGreedy_bound.
Qed.

(** The star of the matcher: [r*] is [r r*] with a non-empty first
    turn, or the empty match. *)
Lemma ends_Star ic r s :
  ends ic (Star r) s =
  flat_map (fun n1 =>
              if Nat.eqb n1 0 then []
              else map (Nat.add n1) (ends ic (Star r) (skipn n1 s)))
           (ends ic r s)
  ++ [0].
Proof. simpl. apply repeatGreedy_unfold, ends_bound. Qed.

Lemma matchHere_bound re s len :
  matchHere re s = Some len -> len <= List.length s.
Proof.
  unfold matchHere. intros H. apply (ends_bound (ignoreCase re) (source re)).
  destruct (ends (ignoreCase re) (source re) s); [discriminate|].
  injection H as ->. now left.
Qed.

Lemma GlobalMatches_back re s lastIndex ms :
  matchHere re (skipn lastIndex s) = None ->
  GlobalMatches re s (S lastIndex) ms ->
  GlobalMatches re s lastIndex ms.
Proof.
  intros Hnone H. inversion H as [? Hgap | ? i len rest Hi Hgap Hm Hrest]; subst.
  - apply gm_done. intros p Hp.
    destruct (Nat.eq_dec p lastIndex) as [-> | Hne]; [assumption|].
    apply Hgap. lia.
  - apply gm_next; try assumption; [lia|].
    intros p Hp. destruct (Nat.eq_dec p lastIndex) as [-> | Hne]; [assumption|].
    apply Hgap. lia.
Qed.

Lemma matchAllFrom_spec re rest :
  forall pre pos skip,
    List.length pre = pos ->
    GlobalMatches re (pre ++ rest) (pos + skip) (matchAllFrom re pos skip rest).
Proof.
  induction rest as [|c rest IH]; intros pre pos skip Hpos.
  - destruct skip as [|k]; simpl.
    + destruct (matchHere re []) as [len|] eqn:Hm.
      * apply gm_next with (i := pos) (len := len).
        -- rewrite length_app. simpl. lia.
        -- intros p Hp. lia.
        -- rewrite <- Hpos, skipn_app, skipn_all, Nat.sub_diag. assumption.
        -- apply gm_done. intros p Hp. rewrite length_app in Hp. simpl in Hp. lia.
      * apply gm_done. intros p Hp. rewrite length_app in Hp. simpl in Hp.
        replace p with (List.length pre) by lia.
        now rewrite skipn_app, skipn_all, Nat.sub_diag.
    + apply gm_done. intros p Hp. rewrite length_app in Hp. simpl in Hp. lia.
  - assert (Hpre : forall k, GlobalMatches re (pre ++ c :: rest) (S pos + k)
                               (matchAllFrom re (S pos) k rest)).
    { intros k. replace (pre ++ c :: rest) with ((pre ++ [c]) ++ rest)
        by (rewrite <- app_assoc; reflexivity).
      apply IH. rewrite length_app. simpl. lia. }
    assert (Hhere : skipn pos (pre ++ c :: rest) = c :: rest).
    { rewrite <- Hpos, skipn_app, skipn_all, Nat.sub_diag. reflexivity. }
    destruct skip as [|k]; simpl.
    + destruct (matchHere re (c :: rest)) as [len|] eqn:Hm.
      * apply gm_next with (i := pos) (len := len).
        -- rewrite length_app. simpl. lia.
        -- intros p Hp. lia.
        -- now rewrite Hhere.
        -- replace (pos + Nat.max len 1) with (S pos + Nat.pred len) by lia.
           apply Hpre.
      * apply GlobalMatches_back.
        -- now rewrite Nat.add_0_r, Hhere.
        -- rewrite Nat.add_0_r. replace (S pos) with (S pos + 0) at 1 by lia.
           apply Hpre.
    + replace (pos + S k) with (S pos + k) by lia. apply Hpre.
Qed.

(** [matchAll] is the global iteration from [lastIndex = 0]. *)
Lemma matchAll_spec re s : GlobalMatches re s 0 (matchAll re s).
Proof. apply (matchAllFrom_spec re s [] 0 eq_refl). Qed.

(** The matches of a global iteration do not overlap, come in the
    order of their positions, and stay inside the string. *)
Lemma GlobalMatches_Disjoint re s lastIndex ms :
  GlobalMatches re s lastIndex ms -> Disjoint (List.length s) lastIndex ms.
Proof.
  induction 1 as [|lastIndex i len rest Hi Hgap Hm Hrest IH]; simpl; [exact I|].
  repeat split; [lia | | assumption].
  apply matchHere_bound in Hm. rewrite length_skipn in Hm. lia.
Qed.

End RegExpFacts.

(** ** The scanner *)

Section ScannerFacts.

Lemma push_all {A B} (f : A -> B) (l : list A) (acc : list B) :
  fold_left (fun issues m => issues ++ [f m]) l acc = acc ++ map f l.
Proof.
  revert acc; induction l as [|a l IH]; intros acc; simpl.
  - now rewrite app_nil_r.
  - rewrite IH, <- app_assoc. reflexivity.
Qed.

Lemma scan_fold (code fileType : jsstring) (ps : list securityPattern) :
  forall acc,
    fold_left
      (fun issues pattern =>
         if skipped pattern fileType then issues
         else
           let matches := RegExp.matchAll (sp_pattern pattern) code in
           if Nat.ltb 0 (List.length matches) then
             fold_left (fun issues m => issues ++ [issueOf pattern code m])
                       matches issues
           else issues)
      ps acc
    = acc ++ flat_map (findingsOf code) (filter (applies fileType) ps).
Proof.
  induction ps as [|p ps IH]; intros acc; simpl.
  - now rewrite app_nil_r.
  - rewrite IH. unfold applies at 2. destruct (skipped p fileType); simpl; [reflexivity|].
    unfold findingsOf at 2.
    destruct (RegExp.matchAll (sp_pattern p) code) as [|m ms] eqn:E; simpl.
    + reflexivity.
    + rewrite push_all, <- !app_assoc. reflexivity.
Qed.

(** The scan is the catalog filtered by file type, each entry giving
    its findings in match order. *)
Lemma scan_flat_map (code fileExt : jsstring) :
  scanForSecurityIssues code fileExt =
  flat_map (findingsOf code)
           (filter (applies (JsString.removeFirst DOT fileExt)) securityPatterns).
Proof. unfold scanForSecurityIssues. now rewrite scan_fold. Qed.

Lemma distinct_NoDup (l : list jsstring) : distinct l = true -> NoDup l.
Proof.
  induction l as [|x l IH]; simpl; intros H; constructor.
  - apply andb_true_iff in H as [H _]. apply negb_true_iff in H.
    intros Hin. apply arrayIncludes_In in Hin. congruence.
  - apply IH. now apply andb_true_iff in H as [_ H].
Qed.

(** The titles of the catalog tell its entries apart. *)
Lemma titles_NoDup : NoDup (map sp_title securityPatterns).
Proof. apply distinct_NoDup. vm_compute. reflexivity. Qed.

Lemma same_title_same_entry (ps : list securityPattern) (p q : securityPattern) :
  NoDup (map sp_title ps) -> In p ps -> In q ps ->
  sp_title p = sp_title q -> p = q.
Proof.
  induction ps as [|r ps IH]; simpl; intros Hnd Hp Hq E; [contradiction|].
  inversion Hnd as [|? ? Hnotin Hnd']; subst.
  destruct Hp as [<- | Hp], Hq as [<- | Hq]; auto.
  - exfalso. apply Hnotin. rewrite E. now apply in_map.
  - exfalso. apply Hnotin. rewrite <- E. now apply in_map.
Qed.

Lemma findingsOf_title (code : jsstring) (p : securityPattern) (f : securityIssue) :
  In f (findingsOf code p) -> title f = sp_title p /\ description f = sp_description p.
Proof.
  unfold findingsOf. intros H. apply in_map_iff in H as (m & <- & _). now split.
Qed.

Lemma filter_all {A} (P : A -> bool) (l : list A) :
  (forall a, In a l -> P a = true) -> filter P l = l.
Proof.
  induction l as [|a l IH]; simpl; intros H; [reflexivity|].
  rewrite (H a) by now left. f_equal. apply IH. intros; apply H; now right.
Qed.

Lemma filter_none {A} (P : A -> bool) (l : list A) :
  (forall a, In a l -> P a = false) -> filter P l = [].
Proof.
  induction l as [|a l IH]; simpl; intros H; [reflexivity|].
  rewrite (H a) by now left. apply IH. intros; apply H; now right.
Qed.

(** Among the findings of a list of entries with distinct titles, those
    that carry the title of [p] are the findings of [p]. *)
Lemma findings_by_title (code : jsstring) (ps : list securityPattern)
      (keep : securityPattern -> bool) (p : securityPattern) :
  NoDup (map sp_title ps) -> In p ps ->
  filter (fun f => JsString.eqb (title f) (sp_title p))
         (flat_map (findingsOf code) (filter keep ps))
  = if keep p then findingsOf code p else [].
Proof.
  induction ps as [|q ps IH]; simpl; intros Hnd Hp; [contradiction|].
  inversion Hnd as [|? ? Hnotin Hnd']; subst.
  assert (Hother : forall r, In r ps -> sp_title r <> sp_title q).
  { intros r Hr E. apply Hnotin. rewrite <- E. now apply in_map. }
  destruct Hp as [-> | Hp].
  - assert (Hrest : filter (fun f => JsString.eqb (title f) (sp_title p))
                           (flat_map (findingsOf code) (filter keep ps)) = []).
    { apply filter_none. intros f Hf. apply in_flat_map in Hf as (r & Hr & Hf).
      apply filter_In in Hr as [Hr _]. apply findingsOf_title in Hf as [-> _].
      apply eqb_neq. now apply Hother. }
    destruct (keep p); simpl; [|assumption].
    rewrite filter_app, Hrest, app_nil_r. apply filter_all.
    intros f Hf. apply findingsOf_title in Hf as [-> _]. apply eqb_refl.
  - rewrite <- (IH Hnd' Hp). destruct (keep q); simpl; [|reflexivity].
    rewrite filter_app. rewrite filter_none; [reflexivity|].
    intros f Hf. apply findingsOf_title in Hf as [-> _].
    apply eqb_neq. intros E. now apply (Hother p Hp).
Qed.

End ScannerFacts.

(** ** The file system and [lintCode] *)

Section WorldFacts.

Lemma present_setDir dir entries w : present dir (setDir dir entries w) = true.
Proof. unfold present, setDir. simpl. now rewrite eqb_refl. Qed.

Lemma lookupDir_setDir dir entries w :
  lookupDir dir (setDir dir entries w) = Some entries.
Proof. unfold lookupDir, setDir. simpl. now rewrite eqb_refl. Qed.

Lemma present_removeDir dir w : present dir (removeDir dir w) = false.
Proof.
  unfold present, removeDir. simpl.
  induction (directories w) as [|d ds IH]; simpl; [reflexivity|].
  destruct (JsString.eqb (fst d) dir) eqn:E; simpl; [assumption|].
  now rewrite E.
Qed.

Lemma present_lookupDir dir w :
  present dir w = true -> exists entries, lookupDir dir w = Some entries.
Proof.
  unfold present, lookupDir.
  induction (directories w) as [|d ds IH]; simpl; [discriminate|].
  destruct (JsString.eqb (fst d) dir); simpl; [intros _; now exists (snd d) | assumption].
Qed.

(** [lintCode] run in a world: its result, and whether its working
    directory is left behind. *)
Lemma lintCode_run (le : lintEnv) (code ext : jsstring) (w : world) :
  exists w', lintCode le code ext w = (lintCodeResult le, w')
             /\ present (lintTempDir le) w' = tempDirLeft le w.
Proof.
  unfold lintCode, lintCodeResult, lintOutput, tempDirLeft.
  set (dir := lintTempDir le).
  destruct (le_mkdir le) eqn:Hmk; simpl.
  2:{ unfold bind, mkdir, record, throw, bind. simpl. eexists. split; reflexivity. }
  unfold mkdir, bind at 1 2, record. simpl.
  set (w0 := mkWorld (directories w) (journal w ++ [EvMkdir dir])).
  set (w1 := if present dir w0 then w0 else setDir dir [] w0).
  assert (Hp1 : present dir w1 = true).
  { subst w1. destruct (present dir w0) eqn:E; [exact E | apply present_setDir]. }
  destruct (present_lookupDir _ _ Hp1) as (entries & Hl).
  destruct (le_writeFile le) eqn:Hwr; simpl.
  2:{ unfold bind, writeFile, record, throw, bind. simpl.
      eexists. split; [reflexivity | exact Hp1]. }
  unfold writeFile, bind at 1 2, record. simpl.
  assert (Hl' : forall j, lookupDir dir (mkWorld (directories w1) j) = Some entries)
    by (intros j; exact Hl).
  rewrite Hl'. unfold tryCatch at 1, bind at 1, lintFiles, bind, record. simpl.
  destruct (le_eslint le) as [messages|]; simpl.
  - unfold rm, bind, record, ret, throw. simpl.
    destruct (le_rm le); simpl.
    + eexists. split; [reflexivity | apply present_removeDir].
    + unfold tryCatch, bind, ret. simpl.
      destruct (le_rmCatch le); simpl.
      * eexists. split; [reflexivity | apply present_removeDir].
      * eexists. split; [reflexivity | apply present_setDir].
  - unfold throw, tryCatch, rm, bind, record, ret, throw. simpl.
    destruct (le_rmCatch le); simpl.
    + eexists. split; [reflexivity | apply present_removeDir].
    + eexists. split; [reflexivity | apply present_setDir].
Qed.

End WorldFacts.

(** ** The repository fan-out *)

#[local] Arguments scanForSecurityIssues : simpl never.
#[local] Arguments JsString.arrayIncludes : simpl never.
#[local] Arguments extOf : simpl never.
#[local] Arguments lintOutput : simpl never.
#[local] Arguments str : simpl never.
#[local] Opaque scanForSecurityIssues securityPatterns.

Section FanoutFacts.
Variable lintOf : jsstring -> lintEnv.

Lemma analyzeFile_run (f : jsstring * jsstring) (r : fanout) (w : world) :
  JsString.arrayIncludes analyzable (extOf f) = true ->
  exists w',
    analyzeFile lintOf (fst f) (snd f) (extOf f) (r, w) =
    if completes lintOf f
    then (Returned tt, (turn lintOf r f, w'))
    else (match lintCodeResult (lintOf (fst f)) with
          | Thrown e => Thrown e
          | Returned _ => Returned tt
          end, (r, w')).
Proof.
  intros Hext. unfold analyzeFile, turn, completes, lintThrows. rewrite Hext.
  cbv beta iota. rewrite andb_true_l.
  destruct (JsString.arrayIncludes lintable (extOf f)) eqn:Hlint.
  - destruct (lintCode_run (lintOf (fst f)) (snd f) (extOf f) w) as (w' & Hrun & _).
    exists w'. unfold bind at 1 2, onWorld. cbn [fst snd]. rewrite Hrun.
    unfold lintCodeResult.
    destruct (le_mkdir (lintOf (fst f))); cbn [negb andb]; [|reflexivity].
    destruct (le_writeFile (lintOf (fst f))); cbn [negb andb]; [|reflexivity].
   
    destruct (Nat.ltb 0 (List.length (lintOutput (lintOf (fst f)))));
      destruct (Nat.ltb 0 (List.length (scanForSecurityIssues (snd f) (extOf f))));
      unfold bind, pushLint, pushSecurity, pushProcessed, update, ret; cbn [fst snd lintByFile securityByFile fo_fileCount fo_processedFiles];
      rewrite ?app_nil_r; reflexivity.
  - exists w. cbn [negb andb].
    destruct (Nat.ltb 0 (List.length (scanForSecurityIssues (snd f) (extOf f))));
      unfold bind, pushLint, pushSecurity, pushProcessed, update, ret; cbn [fst snd lintByFile securityByFile fo_fileCount fo_processedFiles length];
      rewrite ?app_nil_r; reflexivity.
Qed.

Lemma forEachEntry_run (files : list (jsstring * jsstring)) :
  forall r w, exists w',
    forEachEntry lintOf files (r, w) = (Returned tt, (fold_left (turn lintOf) files r, w')).
Proof.
  induction files as [|[filePath content] files IH]; intros r w.
  - now exists w.
  - cbn [forEachEntry fold_left].
    change (JsString.toLowerCase (Path.extname filePath)) with (extOf (filePath, content)).
    destruct (JsString.arrayIncludes analyzable (extOf (filePath, content))) eqn:Hext.
    + destruct (analyzeFile_run (filePath, content) r w Hext) as (w1 & Hrun).
      cbn [fst snd] in Hrun. unfold bind at 1, tryCatch. rewrite Hrun.
      destruct (completes lintOf (filePath, content)) eqn:Hc.
      * apply IH.
      * assert (Ht : turn lintOf r (filePath, content) = r)
          by (unfold turn; now rewrite Hc).
        rewrite Ht.
        destruct (lintCodeResult (lintOf filePath)); apply IH.
    + assert (Ht : turn lintOf r (filePath, content) = r).
      { unfold turn, completes. now rewrite Hext. }
      rewrite Ht. unfold bind at 1, ret. apply IH.
Qed.

Lemma flatten_turns (files : list (jsstring * jsstring)) :
  forall r,
    flatten (fold_left (turn lintOf) files r) =
    {| lintIssues := lintIssues (flatten r) ++ flat_map (lintIssuesOf lintOf) files;
       securityIssues := securityIssues (flatten r) ++ flat_map (securityIssuesOf lintOf) files;
       fileCount := fo_fileCount r;
       processedFiles := fo_processedFiles r ++ map fst (filter (completes lintOf) files) |}.
Proof.
  induction files as [|f files IH]; intros r; cbn [fold_left flat_map filter map].
  - rewrite !app_nil_r. reflexivity.
  - rewrite IH. unfold turn, lintIssuesOf, securityIssuesOf.
    destruct (completes lintOf f) eqn:Hc; cbn [andb map]; [|reflexivity].
    unfold flatten; cbn [lintByFile securityByFile fo_fileCount fo_processedFiles
                         lintIssues securityIssues].
    rewrite !flat_map_app, <- !app_assoc. f_equal.
    + f_equal.
      destruct (JsString.arrayIncludes lintable (extOf f)).
      * destruct (lintOutput (lintOf (fst f))); cbn; [reflexivity|].
        now rewrite app_nil_r.
      * reflexivity.
    + f_equal.
      destruct (scanForSecurityIssues (snd f) (extOf f)); cbn; [reflexivity|].
      now rewrite app_nil_r.
Qed.

(** [processRepositoryFiles] always returns, and returns [reportOf]. *)
Lemma processRepositoryFiles_run (files : list (jsstring * jsstring)) (w : world) :
  exists w',
    processRepositoryFiles lintOf files w = (Returned (reportOf lintOf files), w').
Proof.
  unfold processRepositoryFiles.
  destruct (forEachEntry_run files (mkFanout [] [] (List.length files) []) w)
    as (w' & Hrun).
  rewrite Hrun, flatten_turns. now exists w'.
Qed.

End FanoutFacts.

(** ** The scan: findings, order and lines *)

Section FindingFacts.

Lemma issueOf_findingAtLine p code m : issueOf p code m = findingAtLine p code m.
Proof. unfold issueOf, findingAtLine. now rewrite lineNumberAt_newlines. Qed.

Lemma applies_languageAllowed p fileType :
  applies fileType p = true <-> languageAllowed p fileType.
Proof.
  unfold applies, skipped, languageAllowed.
  destruct (sp_languages p) as [langs|]; [|tauto].
  rewrite negb_involutive. apply arrayIncludes_In.
Qed.

Lemma scan_In code fileExt f :
  In f (scanForSecurityIssues code fileExt) <->
  exists p, In p securityPatterns
            /\ applies (JsString.removeFirst DOT fileExt) p = true
            /\ In f (findingsOf code p).
Proof.
  rewrite scan_flat_map, in_flat_map. split.
  - intros (p & Hp & Hf). apply filter_In in Hp as [Hp Ha]. now exists p.
  - intros (p & Hp & Ha & Hf). exists p. split; [now apply filter_In | assumption].
Qed.

End FindingFacts.

(** C2. For every content and file extension the scan is the catalog in
    its order, restricted to the entries that apply to the file type,
    each entry giving one finding per match of its pattern in match
    order; the line of a finding is the number of newlines before the
    start of the match plus one.  The matches of an entry are those of
    the global iteration of its pattern, which do not overlap, and an
    entry that applies has as many findings as matches. *)
Theorem scan_one_finding_per_match (code fileExt : jsstring) :
  let fileType := JsString.removeFirst DOT fileExt in
  scanForSecurityIssues code fileExt =
  flat_map (fun p => map (findingAtLine p code) (RegExp.matchAll (sp_pattern p) code))
           (filter (applies fileType) securityPatterns)
  /\ (forall p,
         In p securityPatterns ->
         GlobalMatches (sp_pattern p) code 0 (RegExp.matchAll (sp_pattern p) code)
         /\ Disjoint (List.length code) 0 (RegExp.matchAll (sp_pattern p) code))
  /\ (forall p,
         In p securityPatterns -> applies fileType p = true ->
         List.length (filter (fun f => JsString.eqb (title f) (sp_title p))
                             (scanForSecurityIssues code fileExt))
         = List.length (RegExp.matchAll (sp_pattern p) code)).
Proof.
  intros fileType. split; [|split].
  - rewrite scan_flat_map. fold fileType. apply flat_map_ext.
    intros p. unfold findingsOf. apply map_ext. intros m. apply issueOf_findingAtLine.
  - intros p _. split.
    + apply matchAll_spec.
    + apply GlobalMatches_Disjoint with (re := sp_pattern p). apply matchAll_spec.
  - intros p Hp Ha. rewrite scan_flat_map. fold fileType.
    rewrite (findings_by_title code securityPatterns (applies fileType) p titles_NoDup Hp).
    rewrite Ha. unfold findingsOf. apply length_map.
Qed.

(** Two calls of eval on two lines and an innerHTML assignment: three
    findings, the two of the eval entry first. *)
Lemma scan_one_finding_per_match_witness :
  let code := str "a = eval (x);" ++ [LF] ++ str "b.innerHTML = eval(y);" in
  exists p,
    In p securityPatterns
    /\ applies (str "js") p = true
    /\ List.length (filter (fun f => JsString.eqb (title f) (sp_title p))
                           (scanForSecurityIssues code (str ".js"))) = 2
    /\ map location (scanForSecurityIssues code (str ".js"))
       = [str "Line 1"; str "Line 2"; str "Line 2"].
Proof.
  intros code.
  exists (nth 0 securityPatterns (mkPattern (RegExp.mk RegExp.Eps false) [] [] None)).
  assert (Hin : In (nth 0 securityPatterns (mkPattern (RegExp.mk RegExp.Eps false) [] [] None))
                   securityPatterns) by (vm_compute; auto).
  assert (Happ : applies (str "js")
                   (nth 0 securityPatterns (mkPattern (RegExp.mk RegExp.Eps false) [] [] None))
                 = true) by reflexivity.
  split; [exact Hin | split; [exact Happ | split]].
  - rewrite (proj2 (proj2 (scan_one_finding_per_match code (str ".js"))) _ Hin Happ).
    vm_compute. reflexivity.
  - rewrite (proj1 (scan_one_finding_per_match code (str ".js"))).
    vm_compute. reflexivity.
Defined.

(** C8. The snippet [eval(userInput)] is taken for JavaScript, and its
    scan is the one finding of the eval entry at line 1; no other entry
    of the catalog matches it. *)
Theorem eval_snippet_one_finding :
  guessFileExtension evalSnippet = str ".js"
  /\ scanForSecurityIssues evalSnippet (guessFileExtension evalSnippet) = [evalFinding]
  /\ Forall (fun p => sp_title p = title evalFinding
                      \/ RegExp.matchAll (sp_pattern p) evalSnippet = [])
            securityPatterns.
Proof.
  split; [vm_compute; reflexivity | split; [vm_compute; reflexivity |]].
  apply Forall_forall. intros p Hp.
  assert (Hall : forallb (fun p => JsString.eqb (sp_title p) (title evalFinding)
                                   || Nat.eqb (List.length (RegExp.matchAll (sp_pattern p) evalSnippet)) 0)
                         securityPatterns = true) by (vm_compute; reflexivity).
  rewrite forallb_forall in Hall. specialize (Hall p Hp).
  apply orb_true_iff in Hall as [H | H].
  - left. now apply eqb_eq.
  - right. apply Nat.eqb_eq in H. now apply length_zero_iff_nil.
Qed.

(** ** The report of the fan-out, and what [lintCode] leaves *)

Section ReportFacts.
Variable lintOf : jsstring -> lintEnv.

(** Whether an entry completes depends on its path alone. *)
Lemma completes_path (f g : jsstring * jsstring) :
  fst f = fst g -> completes lintOf f = completes lintOf g.
Proof.
  intros E. unfold completes, lintThrows, extOf. now rewrite E.
Qed.

Lemma processed_In (files : list (jsstring * jsstring)) (path : jsstring) :
  In path (processedFiles (reportOf lintOf files)) <->
  exists f, In f files /\ fst f = path /\ completes lintOf f = true.
Proof.
  unfold reportOf. cbn [processedFiles]. rewrite in_map_iff. split.
  - intros (f & E & Hf). apply filter_In in Hf as [Hf Hc]. now exists f.
  - intros (f & Hf & E & Hc). exists f. split; [assumption | now apply filter_In].
Qed.

Lemma lintIssues_In (files : list (jsstring * jsstring)) (i : lintIssue) :
  In i (lintIssues (reportOf lintOf files)) <->
  exists f i0, In f files /\ completes lintOf f = true
               /\ JsString.arrayIncludes lintable (extOf f) = true
               /\ In i0 (lintOutput (lintOf (fst f)))
               /\ i = withLintPath (fst f) i0.
Proof.
  unfold reportOf. cbn [lintIssues]. rewrite in_flat_map. unfold lintIssuesOf. split.
  - intros (f & Hf & Hi).
    destruct (completes lintOf f) eqn:Hc; [|destruct Hi].
    destruct (JsString.arrayIncludes lintable (extOf f)) eqn:Hl; [|destruct Hi].
    cbn [andb] in Hi. apply in_map_iff in Hi as (i0 & <- & Hi0).
    now exists f, i0.
  - intros (f & i0 & Hf & Hc & Hl & Hi0 & ->). exists f. split; [assumption|].
    rewrite Hc, Hl. cbn [andb]. now apply in_map.
Qed.

Lemma securityIssues_In (files : list (jsstring * jsstring)) (s : securityIssue) :
  In s (securityIssues (reportOf lintOf files)) <->
  exists f s0, In f files /\ completes lintOf f = true
               /\ In s0 (scanForSecurityIssues (snd f) (extOf f))
               /\ s = withSecurityPath (fst f) s0.
Proof.
  unfold reportOf. cbn [securityIssues]. rewrite in_flat_map.
  unfold securityIssuesOf. split.
  - intros (f & Hf & Hs).
    destruct (completes lintOf f) eqn:Hc; [|destruct Hs].
    apply in_map_iff in Hs as (s0 & <- & Hs0). now exists f, s0.
  - intros (f & s0 & Hf & Hc & Hs0 & ->). exists f. split; [assumption|].
    rewrite Hc. now apply in_map.
Qed.

Lemma filter_length_two {A} (P : A -> bool) (l1 l2 l3 : list A) (a b : A) :
  P a = true -> P b = true ->
  2 <= List.length (filter P (l1 ++ a :: l2 ++ b :: l3)).
Proof.
  intros Ha Hb. rewrite filter_app, length_app. cbn [filter]. rewrite Ha.
  cbn [List.length]. rewrite filter_app, length_app. cbn [filter]. rewrite Hb.
  cbn [List.length]. lia.
Qed.

End ReportFacts.

Section CompletionFacts.
Variable lintOf : jsstring -> lintEnv.

(** Whether [lintCode] throws is decided by [mkdir] and [writeFile]. *)
Lemma LintCodeThrows_iff (f : jsstring * jsstring) :
  LintCodeThrows lintOf f <->
  le_mkdir (lintOf (fst f)) && le_writeFile (lintOf (fst f)) = false.
Proof.
  unfold LintCodeThrows. split.
  - intros (w & e & w' & Hrun).
    destruct (lintCode_run (lintOf (fst f)) (snd f) (extOf f) w) as (w1 & Hrun1 & _).
    rewrite Hrun1 in Hrun. unfold lintCodeResult in Hrun.
    destruct (le_mkdir (lintOf (fst f))); [|reflexivity].
    destruct (le_writeFile (lintOf (fst f))); [|reflexivity].
    cbn [negb] in Hrun. discriminate.
  - intros Hno.
    destruct (lintCode_run (lintOf (fst f)) (snd f) (extOf f) (mkWorld [] []))
      as (w1 & Hrun1 & _).
    exists (mkWorld [] []). unfold lintCodeResult in Hrun1.
    destruct (le_mkdir (lintOf (fst f))); cbn [negb andb] in *.
    + rewrite Hno in Hrun1. cbn [negb] in Hrun1. eexists _, _. exact Hrun1.
    + eexists _, _. exact Hrun1.
Qed.

Lemma LintCodeReturns_iff (f : jsstring * jsstring) (issues : list lintIssue) :
  LintCodeReturns lintOf f issues <->
  le_mkdir (lintOf (fst f)) && le_writeFile (lintOf (fst f)) = true
  /\ issues = lintOutput (lintOf (fst f)).
Proof.
  unfold LintCodeReturns. split.
  - intros (w & w' & Hrun).
    destruct (lintCode_run (lintOf (fst f)) (snd f) (extOf f) w) as (w1 & Hrun1 & _).
    rewrite Hrun1 in Hrun. unfold lintCodeResult in Hrun.
    destruct (le_mkdir (lintOf (fst f))); [|discriminate].
    destruct (le_writeFile (lintOf (fst f))); [|discriminate].
    cbn [negb] in Hrun. injection Hrun as <- _. split; reflexivity.
  - intros [Hok ->].
    destruct (lintCode_run (lintOf (fst f)) (snd f) (extOf f) (mkWorld [] []))
      as (w1 & Hrun1 & _).
    exists (mkWorld [] []), w1. rewrite Hrun1. unfold lintCodeResult.
    apply andb_true_iff in Hok as [-> ->]. reflexivity.
Qed.

Lemma lintThrows_spec (f : jsstring * jsstring) :
  lintThrows lintOf f = true <->
  JsString.arrayIncludes lintable (extOf f) = true /\ LintCodeThrows lintOf f.
Proof.
  unfold lintThrows. rewrite andb_true_iff, negb_true_iff, LintCodeThrows_iff.
  reflexivity.
Qed.

Lemma completes_spec (f : jsstring * jsstring) :
  completes lintOf f = true <-> Clean lintOf f.
Proof.
  unfold completes, Clean, lintThrows.
  rewrite andb_true_iff, negb_true_iff, andb_false_iff, negb_false_iff. split.
  - intros [Hext [Hno | Hok]]; (split; [assumption|]).
    + intros Hlint. congruence.
    + intros _. exists (lintOutput (lintOf (fst f))).
      apply LintCodeReturns_iff. now split.
  - intros [Hext Hok]. split; [assumption|].
    destruct (JsString.arrayIncludes lintable (extOf f)); [right | now left].
    destruct (Hok eq_refl) as (issues & Hret).
    now apply LintCodeReturns_iff in Hret as [Hret _].
Qed.

End CompletionFacts.

(** C3, amended.  The fan-out always returns.  A file whose call of
    [lintCode] throws is not in [processedFiles] and brings no issue;
    every other file with an analyzed extension is in [processedFiles],
    with all the findings of its scan and all the issues its lint
    returned.  A file on which ESLint throws brings no lint issue; a
    lint issue under the path of a file is a message ESLint returned
    for it, and a file that is staged and linted brings every message
    ESLint returned for it, the parsing error of a file that does not
    parse included, and is in [processedFiles].  With two files that are
    analyzed to the end, whatever the others do, [processedFiles] has at
    least two elements. *)
Theorem fanout_isolates_failures (lintOf : jsstring -> lintEnv)
        (files : list (jsstring * jsstring)) (w : world) :
  exists res w',
    processRepositoryFiles lintOf files w = (Returned res, w')
    /\ (forall f,
           In f files ->
           JsString.arrayIncludes lintable (extOf f) = true ->
           LintCodeThrows lintOf f ->
           ~ In (fst f) (processedFiles res)
           /\ (forall i, In i (lintIssues res) -> li_filePath i <> Some (fst f))
           /\ (forall s, In s (securityIssues res) -> si_filePath s <> Some (fst f)))
    /\ (forall f,
           In f files ->
           Clean lintOf f ->
           In (fst f) (processedFiles res)
           /\ (forall s, In s (scanForSecurityIssues (snd f) (extOf f)) ->
                         In (withSecurityPath (fst f) s) (securityIssues res))
           /\ (forall issues i,
                  JsString.arrayIncludes lintable (extOf f) = true ->
                  LintCodeReturns lintOf f issues -> In i issues ->
                  In (withLintPath (fst f) i) (lintIssues res)))
    /\ (forall f,
           In f files -> le_eslint (lintOf (fst f)) = None ->
           forall i, In i (lintIssues res) -> li_filePath i <> Some (fst f))
    /\ (forall f i,
           In f files -> In i (lintIssues res) -> li_filePath i = Some (fst f) ->
           exists messages m,
             le_eslint (lintOf (fst f)) = Some messages
             /\ In m messages
             /\ i = withLintPath (fst f) (formatMessage m))
    /\ (forall f messages m,
           In f files -> Clean lintOf f ->
           JsString.arrayIncludes lintable (extOf f) = true ->
           le_eslint (lintOf (fst f)) = Some messages ->
           le_rm (lintOf (fst f)) = true ->
           In m messages ->
           In (fst f) (processedFiles res)
           /\ In (withLintPath (fst f) (formatMessage m)) (lintIssues res))
    /\ (forall before clean1 between clean2 after,
           files = before ++ clean1 :: between ++ clean2 :: after ->
           Clean lintOf clean1 -> Clean lintOf clean2 ->
           2 <= List.length (processedFiles res)).
Proof.
  destruct (processRepositoryFiles_run lintOf files w) as (w' & Hrun).
  exists (reportOf lintOf files), w'. split; [exact Hrun|].
  split; [|split; [|split; [|split; [|split]]]].
  - intros f Hf Hlint Hthrow.
    assert (Hno : forall g, fst g = fst f -> completes lintOf g = false).
    { intros g E. rewrite (completes_path lintOf g f E).
      unfold completes.
      rewrite (proj2 (lintThrows_spec lintOf f) (conj Hlint Hthrow)).
      apply andb_false_r. }
    split; [|split].
    + intros Hin. apply (proj1 (processed_In lintOf files (fst f))) in Hin
        as (g & _ & E & Hc).
      rewrite (Hno g E) in Hc. discriminate Hc.
    + intros i Hi E. apply (proj1 (lintIssues_In lintOf files i)) in Hi
        as (g & i0 & _ & Hc & _ & _ & ->).
      cbn [withLintPath li_filePath] in E. injection E as E.
      rewrite (Hno g E) in Hc. discriminate Hc.
    + intros s Hs E. apply (proj1 (securityIssues_In lintOf files s)) in Hs
        as (g & s0 & _ & Hc & _ & ->).
      cbn [withSecurityPath si_filePath] in E. injection E as E.
      rewrite (Hno g E) in Hc. discriminate Hc.
  - intros f Hf Hclean.
    assert (Hc : completes lintOf f = true) by now apply completes_spec.
    split; [|split].
    + apply processed_In. exists f. repeat split; assumption.
    + intros s Hs. apply securityIssues_In. exists f, s. repeat split; assumption.
    + intros issues i Hl Hret Hi. apply LintCodeReturns_iff in Hret as [_ ->].
      apply lintIssues_In. exists f, i. repeat split; assumption.
  - intros f Hf Hnone i Hi E.
    apply (proj1 (lintIssues_In lintOf files i)) in Hi
      as (g & i0 & _ & _ & _ & Hi0 & ->).
    cbn [withLintPath li_filePath] in E. injection E as E. rewrite E in Hi0.
    unfold lintOutput in Hi0. rewrite Hnone in Hi0. destruct Hi0.
  - intros f i Hf Hi E.
    apply (proj1 (lintIssues_In lintOf files i)) in Hi
      as (g & i0 & _ & _ & _ & Hi0 & ->).
    cbn [withLintPath li_filePath] in E. injection E as E. rewrite E in Hi0 |- *.
    unfold lintOutput in Hi0.
    destruct (le_eslint (lintOf (fst f))) as [messages|]; [|destruct Hi0].
    destruct (le_rm (lintOf (fst f))); [|destruct Hi0].
    apply in_map_iff in Hi0 as (m0 & <- & Hm0).
    now exists messages, m0.
  - intros f messages m Hf Hclean Hlint Hes Hrm Hm.
    assert (Hc : completes lintOf f = true) by now apply completes_spec.
    split.
    + apply processed_In. exists f. repeat split; assumption.
    + apply lintIssues_In. exists f, (formatMessage m).
      split; [assumption | split; [assumption | split; [assumption | split]]];
        [|reflexivity].
      unfold lintOutput. rewrite Hes, Hrm. now apply in_map.
  - intros before clean1 between clean2 after -> H1 H2.
    unfold reportOf. cbn [processedFiles]. rewrite length_map.
    apply filter_length_two; now apply completes_spec.
Qed.

(** A file that cannot be written to the temporary area, a file that
    does not parse and two clean files: the first is left out, the
    second is processed and brings its parsing error. *)
Lemma fanout_isolates_failures_witness :
  let lintOf := fun path =>
                  if JsString.eqb path (str "full.js") then fullVolume
                  else unparsableLintOf path in
  let full := (str "full.js", str "let f = 1;") in
  exists res w',
    processRepositoryFiles lintOf (full :: unparsableFiles) (mkWorld [] [])
    = (Returned res, w')
    /\ 2 <= List.length (processedFiles res)
    /\ ~ In (str "full.js") (processedFiles res)
    /\ In (str "bad.js") (processedFiles res)
    /\ In (withLintPath (str "bad.js") (formatMessage parsingError)) (lintIssues res).
Proof.
  intros lintOf full.
  destruct (fanout_isolates_failures lintOf (full :: unparsableFiles) (mkWorld [] []))
    as (res & w' & Hrun & Hthrow & _ & _ & _ & Hall & Htwo).
  assert (Hclean : forall f, In f unparsableFiles -> Clean lintOf f).
  { intros f [<- | [<- | [<- | []]]].
    - split; [vm_compute; reflexivity | intros _].
      eexists _, (mkWorld [] []), _. vm_compute. reflexivity.
    - split; [vm_compute; reflexivity | intros _].
      eexists _, (mkWorld [] []), _. vm_compute. reflexivity.
    - split; [vm_compute; reflexivity | intros H]. vm_compute in H. discriminate H. }
  exists res, w'. split; [exact Hrun | split; [|split]].
  - apply (Htwo [full; (str "bad.js", str "function (")]
                (str "a.js", str "let a = 1;") [] (str "b.py", str "print(1)") []);
      [reflexivity | |]; apply Hclean; cbn; tauto.
  - apply (Hthrow full); [now left | vm_compute; reflexivity |].
    eexists (mkWorld [] []), _, _. vm_compute. reflexivity.
  - apply (Hall (str "bad.js", str "function (") [parsingError] parsingError);
      [right; now left | apply Hclean; now left | vm_compute; reflexivity
       | reflexivity | reflexivity | now left].
Defined.

(** The repository of the scenario: the file that does not parse is in
    [processedFiles], and the report holds a lint issue under its
    path. *)
Lemma unparsable_file_brings_its_parsing_error :
  exists res w',
    processRepositoryFiles unparsableLintOf unparsableFiles (mkWorld [] [])
    = (Returned res, w')
    /\ processedFiles res = [str "bad.js"; str "a.js"; str "b.py"]
    /\ lintIssues res = [withLintPath (str "bad.js") (formatMessage parsingError)].
Proof. eexists _, _. vm_compute. repeat split. Qed.

(** C1. A finding of the scan comes from a catalog entry whose languages
    contain the file type (or that has no language restriction), and an
    entry that excludes the file type has no finding in the scan.  For
    the repository of [a.py] with an [os.system] call and [b.js] with an
    [innerHTML] assignment, the second analyzed to the end, the fan-out
    reports one finding per file, each under the path of its file. *)
Theorem scan_only_applicable_rules :
  (forall code fileExt f,
      In f (scanForSecurityIssues code fileExt) ->
      exists p m,
        In p securityPatterns
        /\ languageAllowed p (JsString.removeFirst DOT fileExt)
        /\ In m (RegExp.matchAll (sp_pattern p) code)
        /\ f = issueOf p code m)
  /\ (forall code fileExt p,
         In p securityPatterns ->
         ~ languageAllowed p (JsString.removeFirst DOT fileExt) ->
         forall f, In f (scanForSecurityIssues code fileExt) -> title f <> sp_title p)
  /\ (forall lintOf w,
         Clean lintOf (str "b.js", str "el.innerHTML = x") ->
         exists res w',
           processRepositoryFiles lintOf scenarioFiles w = (Returned res, w')
           /\ securityIssues res = [systemFinding; innerHtmlFinding]).
Proof.
  split; [|split].
  - intros code fileExt f Hf.
    apply (proj1 (scan_In code fileExt f)) in Hf as (p & Hp & Ha & Hf).
    unfold findingsOf in Hf. apply in_map_iff in Hf as (m & <- & Hm).
    exists p, m. repeat split; try assumption. now apply applies_languageAllowed.
  - intros code fileExt p Hp Hno f Hf E.
    apply (proj1 (scan_In code fileExt f)) in Hf as (q & Hq & Ha & Hf).
    apply findingsOf_title in Hf as [Ht _].
    assert (q = p) as ->.
    { apply (same_title_same_entry securityPatterns); auto using titles_NoDup.
      congruence. }
    apply Hno. now apply applies_languageAllowed.
  - intros lintOf w Hclean.
    destruct (processRepositoryFiles_run lintOf scenarioFiles w) as (w' & Hrun).
    exists (reportOf lintOf scenarioFiles), w'. split; [exact Hrun|].
    unfold reportOf, scenarioFiles. cbn [securityIssues flat_map].
    unfold securityIssuesOf.
    rewrite (proj2 (completes_spec lintOf (str "b.js", str "el.innerHTML = x")) Hclean).
    replace (completes lintOf (str "a.py", str "os.system(cmd)")) with true
      by (vm_compute; reflexivity).
    vm_compute. reflexivity.
Qed.

(** The scenario with a linter that finds nothing in [b.js]. *)
Lemma scan_only_applicable_rules_witness :
  let lintOf := fun _ : jsstring => mkLintEnv (str "/tmp") (str "0001") true true (Some []) true true in
  exists res w',
    processRepositoryFiles lintOf scenarioFiles (mkWorld [] []) = (Returned res, w')
    /\ securityIssues res = [systemFinding; innerHtmlFinding].
Proof.
  intros lintOf.
  apply (proj2 (proj2 scan_only_applicable_rules) lintOf (mkWorld [] [])).
  split; [vm_compute; reflexivity | intros _].
  eexists _, (mkWorld [] []), _. vm_compute. reflexivity.
Defined.

(** X8. When the linter fails, [lintCode] returns the empty list, and its
    directory is gone as soon as the removal in the catch block works. *)
Lemma lintCode_linter_failure (le : lintEnv) (code ext : jsstring) (w : world) :
  le_mkdir le = true -> le_writeFile le = true -> le_eslint le = None ->
  exists w',
    lintCode le code ext w = (Returned [], w')
    /\ present (lintTempDir le) w' = negb (le_rmCatch le).
Proof.
  intros Hmk Hwr Hes.
  destruct (lintCode_run le code ext w) as (w' & Hrun & Hleft).
  exists w'. split.
  - rewrite Hrun. unfold lintCodeResult, lintOutput. now rewrite Hmk, Hwr, Hes.
  - rewrite Hleft. unfold tempDirLeft. now rewrite Hmk, Hwr, Hes.
Qed.

(** When [writeFile] fails after [mkdir] worked, [lintCode] throws and
    its directory stays. *)
Lemma lintCode_writeFile_failure (le : lintEnv) (code ext : jsstring) (w : world) :
  le_mkdir le = true -> le_writeFile le = false ->
  exists w',
    lintCode le code ext w = (Thrown (str "writeFile failed"), w')
    /\ present (lintTempDir le) w' = true.
Proof.
  intros Hmk Hwr.
  destruct (lintCode_run le code ext w) as (w' & Hrun & Hleft).
  exists w'. split.
  - rewrite Hrun. unfold lintCodeResult. now rewrite Hmk, Hwr.
  - rewrite Hleft. unfold tempDirLeft. now rewrite Hmk, Hwr.
Qed.

(** C7. On a temporary volume that takes the directory but not the
    file, [lintCode] leaves through the exception of [writeFile]: no
    [rm] is called and the directory it made is still there. *)
Theorem lintCode_leaves_directory_behind :
  exists w',
    lintCode fullVolume (str "let a = 1;") (str ".js") (mkWorld [] [])
    = (Thrown (str "writeFile failed"), w')
    /\ present (lintTempDir fullVolume) w' = true
    /\ journal w' = [EvMkdir (lintTempDir fullVolume);
                     EvWriteFile (Path.join (lintTempDir fullVolume) (str "temp.js"))].
Proof. eexists. repeat split; vm_compute; reflexivity. Qed.

(** ** The collector *)

Section CollectorFacts.
Variable extensions : list jsstring.

(** Induction on a tree, with the property known of every child of a
    directory. *)
Lemma dirent_tree_ind (P : dirent -> Prop) :
  (forall name content, P (File name content)) ->
  (forall name children, Forall P children -> P (Directory name children)) ->
  (forall name, P (Other name)) ->
  forall e, P e.
Proof.
  intros HFile HDir HOther. fix IH 1. intros [name content | name children | name].
  - apply HFile.
  - apply HDir. induction children as [|c children IHc]; constructor.
    + apply IH.
    + exact IHc.
  - apply HOther.
Qed.

Lemma FileAt_entry entries dirs name :
  FileAt entries dirs name <-> exists e, In e entries /\ FileAt [e] dirs name.
Proof.
  split.
  - intros H. inversion H as [? ? content Hin | ? d children ? ? Hin Hsub]; subst.
    + exists (File name content). split; [assumption|].
      apply fa_here with content. now left.
    + exists (Directory d children). split; [assumption|].
      apply fa_below with children; [now left | assumption].
  - intros (e & He & H).
    inversion H as [? ? content Hin | ? d children ? ? Hin Hsub]; subst.
    + destruct Hin as [-> | []]. now apply fa_here with content.
    + destruct Hin as [-> | []]. now apply fa_below with children.
Qed.

Lemma DirAt_entry entries d dirs :
  DirAt entries (d :: dirs) <-> exists e, In e entries /\ DirAt [e] (d :: dirs).
Proof.
  split.
  - intros H. inversion H as [| ? ? children ? Hin Hsub]; subst.
    exists (Directory d children). split; [assumption|].
    apply da_below with children; [now left | assumption].
  - intros (e & He & H). inversion H as [| ? ? children ? Hin Hsub]; subst.
    destruct Hin as [-> | []]. now apply da_below with children.
Qed.

Lemma FileAt_single e dirs name :
  FileAt [e] dirs name ->
  (dirs = [] /\ exists content, e = File name content)
  \/ (exists d children dirs',
         dirs = d :: dirs' /\ e = Directory d children /\ FileAt children dirs' name).
Proof.
  intros H. inversion H as [? ? content Hin | ? d children dirs' ? Hin Hsub]; subst.
  - destruct Hin as [-> | []]. left. split; [reflexivity | now exists content].
  - destruct Hin as [-> | []]. right. now exists d, children, dirs'.
Qed.

Lemma DirAt_single e d dirs :
  DirAt [e] (d :: dirs) -> exists children, e = Directory d children /\ DirAt children dirs.
Proof.
  intros H. inversion H as [| ? ? children ? Hin Hsub]; subst.
  destruct Hin as [-> | []]. now exists children.
Qed.

Lemma foundBelow_entry cur entries p :
  foundBelow extensions cur entries p <-> exists e, In e entries /\ foundBelow extensions cur [e] p.
Proof.
  unfold foundBelow. split.
  - intros (dirs & name & Hat & Hrest). apply FileAt_entry in Hat as (e & He & Hat).
    exists e. split; [assumption|]. now exists dirs, name.
  - intros (e & He & dirs & name & Hat & Hrest). exists dirs, name.
    split; [|assumption]. apply FileAt_entry. now exists e.
Qed.

Lemma readBelow_entry cur entries v :
  readBelow cur entries v <-> exists e, In e entries /\ readBelow cur [e] v.
Proof.
  unfold readBelow. split.
  - intros (d & dirs & Hat & Hrest). apply DirAt_entry in Hat as (e & He & Hat).
    exists e. split; [assumption|]. now exists d, dirs.
  - intros (e & He & d & dirs & Hat & Hrest). exists d, dirs.
    split; [|assumption]. apply DirAt_entry. now exists e.
Qed.

(** The loop over the entries of a directory, from what is known of
    each entry. *)
Lemma scanEntries_fold (cur : jsstring) (entries : list dirent) :
  Forall (fun e => forall cur st,
              (forall p, In p (files (scanEntry extensions cur e st)) <->
                         In p (files st) \/ foundBelow extensions cur [e] p)
              /\ (forall v, In v (visited (scanEntry extensions cur e st)) <->
                            In v (visited st) \/ readBelow cur [e] v))
         entries ->
  forall st,
    (forall p, In p (files (fold_left (fun st e => scanEntry extensions cur e st) entries st)) <->
               In p (files st) \/ foundBelow extensions cur entries p)
    /\ (forall v, In v (visited (fold_left (fun st e => scanEntry extensions cur e st) entries st)) <->
                  In v (visited st) \/ readBelow cur entries v).
Proof.
  induction 1 as [|e entries He Hes IH]; intros st; cbn [fold_left].
  - split; intros x; split; auto; intros [H | H]; auto.
    + apply foundBelow_entry in H as (e & [] & _).
    + apply readBelow_entry in H as (e & [] & _).
  - destruct (IH (scanEntry extensions cur e st)) as [IHf IHv].
    destruct (He cur st) as [Hf Hv]. split; intros x.
    + rewrite IHf, Hf, (foundBelow_entry cur (e :: entries)), (foundBelow_entry cur entries).
      split.
      * intros [[H | H] | (e' & He' & H)]; auto.
        -- right. exists e. split; [now left | assumption].
        -- right. exists e'. split; [now right | assumption].
      * intros [H | (e' & [<- | He'] & H)]; auto. right. now exists e'.
    + rewrite IHv, Hv, (readBelow_entry cur (e :: entries)), (readBelow_entry cur entries).
      split.
      * intros [[H | H] | (e' & He' & H)]; auto.
        -- right. exists e. split; [now left | assumption].
        -- right. exists e'. split; [now right | assumption].
      * intros [H | (e' & [<- | He'] & H)]; auto. right. now exists e'.
Qed.

Lemma scanEntry_spec (e : dirent) :
  forall cur st,
    (forall p, In p (files (scanEntry extensions cur e st)) <->
               In p (files st) \/ foundBelow extensions cur [e] p)
    /\ (forall v, In v (visited (scanEntry extensions cur e st)) <->
                  In v (visited st) \/ readBelow cur [e] v).
Proof.
  induction e as [name content | name children IH | name] using dirent_tree_ind;
    intros cur st.
  - (* a file *)
    cbn [scanEntry direntName].
    assert (Hread : forall v, ~ readBelow cur [File name content] v).
    { intros v (d & dirs & Hat & _).
      apply DirAt_single in Hat as (children & E & _). discriminate. }
    assert (Hfound : forall p, foundBelow extensions cur [File name content] p <->
                               extensionKept extensions name /\ p = Path.join cur name).
    { intros p. split.
      - intros (dirs & n & Hat & _ & Hext & ->).
        apply FileAt_single in Hat
          as [(-> & c & E) | (d & children & dirs' & _ & E & _)]; [|discriminate].
        injection E as -> _. now split.
      - intros (Hext & ->). exists [], name. repeat split; try assumption.
        + apply fa_here with content. now left.
        + constructor. }
    split; intros x.
    + rewrite Hfound. unfold extensionKept.
      destruct (JsString.arrayIncludes extensions _) eqn:Hext; cbn [pushFile files].
      * rewrite in_app_iff. cbn [In]. intuition.
      * intuition discriminate.
    + destruct (JsString.arrayIncludes extensions _); cbn [pushFile visited];
        split; auto; intros [H | H]; auto; now apply Hread in H.
  - (* a directory *)
    cbn [scanEntry direntName].
    assert (Hfound : forall p, foundBelow extensions cur [Directory name children] p <->
                               JsString.arrayIncludes skippedDirectories name = false
                               /\ foundBelow extensions (Path.join cur name) children p).
    { intros p. split.
      - intros (dirs & n & Hat & Hok & Hext & ->).
        apply FileAt_single in Hat
          as [(_ & c & E) | (d & children' & dirs' & -> & E & Hsub)]; [discriminate|].
        injection E as <- <-. inversion Hok; subst. split; [assumption|].
        now exists dirs', n.
      - intros (Hname & dirs & n & Hat & Hok & Hext & ->). exists (name :: dirs), n.
        repeat split; try assumption.
        + apply fa_below with children; [now left | assumption].
        + now constructor. }
    assert (Hread : forall v, readBelow cur [Directory name children] v <->
                              JsString.arrayIncludes skippedDirectories name = false
                              /\ (v = Path.join cur name
                                  \/ readBelow (Path.join cur name) children v)).
    { intros v. split.
      - intros (d & dirs & Hat & Hok & ->).
        apply DirAt_single in Hat as (children' & E & Hsub).
        injection E as <- <-. inversion Hok as [|? ? Hd Hdirs]; subst.
        split; [assumption|]. destruct dirs as [|d' dirs]; [now left | right].
        now exists d', dirs.
      - intros (Hname & [-> | (d & dirs & Hat & Hok & ->)]).
        + exists name, []. repeat split.
          * apply da_below with children; [now left | constructor].
          * constructor; [assumption | constructor].
        + exists name, (d :: dirs). repeat split.
          * apply da_below with children; [now left | assumption].
          * now constructor. }
    destruct (JsString.arrayIncludes skippedDirectories name) eqn:Hname; cbn [negb].
    + split; intros x; [rewrite Hfound | rewrite Hread]; intuition discriminate.
    + destruct (scanEntries_fold (Path.join cur name) IH (readdirOf (Path.join cur name) st))
        as [Hf Hv].
      split; intros x.
      * rewrite Hf, Hfound. cbn [readdirOf files]. intuition.
      * rewrite Hv, Hread. cbn [readdirOf visited]. rewrite in_app_iff. cbn [In].
        intuition.
  - (* neither *)
    cbn [scanEntry].
    split; intros x; split; auto; intros [H | H]; auto.
    + destruct H as (dirs & n & Hat & _).
      apply FileAt_single in Hat
        as [(_ & c & E) | (d & children & dirs' & _ & E & _)]; discriminate.
    + destruct H as (d & dirs & Hat & _).
      apply DirAt_single in Hat as (children & E & _). discriminate.
Qed.

(** The files [getCodeFiles] returns and the directories it reads. *)
Lemma collect_spec (dir : jsstring) (entries : list dirent) :
  (forall p, In p (files (collect extensions dir entries)) <-> foundBelow extensions dir entries p)
  /\ (forall v, In v (visited (collect extensions dir entries)) <->
                v = dir \/ readBelow dir entries v).
Proof.
  unfold collect, scanDirectory.
  destruct (scanEntries_fold dir (entries := entries)
              (proj2 (Forall_forall _ _) (fun e _ => scanEntry_spec e))
              (readdirOf dir (mkCollector [] []))) as [Hf Hv].
  split; intros x.
  - rewrite Hf. cbn. intuition.
  - rewrite Hv. cbn. intuition.
Qed.

End CollectorFacts.

(** C5, amended.  [getCodeFiles] returns exactly the files
    that are reached from the root through directories none of which has
    a skipped name and whose extension, lower-cased, is one of
    [extensions]; and it reads, besides the root, only directories
    reached in that way: nothing below a skipped directory is read or
    returned. *)
Theorem collector_prunes_skipped_directories
        (extensions : list jsstring) (dir : jsstring) (entries : list dirent) (w : world) :
  lookupDir dir w = Some entries ->
  exists paths w',
    getCodeFiles extensions dir w = (Returned paths, w')
    /\ (forall p,
           In p paths <->
           exists dirs name,
             FileAt entries dirs name
             /\ allEntered dirs
             /\ extensionKept extensions name
             /\ p = Path.join (pathBelow dir dirs) name)
    /\ (forall v,
           In (EvReaddir v) (journal w') ->
           In (EvReaddir v) (journal w)
           \/ exists dirs, DirAt entries dirs /\ allEntered dirs /\ v = pathBelow dir dirs).
Proof.
  intros Hdir. unfold getCodeFiles. rewrite Hdir.
  destruct (collect_spec extensions dir entries) as [Hf Hv].
  eexists _, _. split; [reflexivity | split].
  - intros p. rewrite Hf. reflexivity.
  - cbn [journal]. intros v Hin. apply in_app_iff in Hin as [Hin | Hin]; [now left | right].
    apply in_map_iff in Hin as (v' & E & Hin). injection E as ->.
    apply Hv in Hin as [-> | (d & dirs & Hat & Hok & ->)].
    + exists []. repeat split; constructor.
    + now exists (d :: dirs).
Qed.

(** The sample checkout: its two source files are returned, the one
    under [node_modules] is not. *)
Lemma collector_prunes_skipped_directories_witness :
  let w := mkWorld [(str "/repo", sampleTree)] [] in
  exists paths w',
    getCodeFiles defaultExtensions (str "/repo") w = (Returned paths, w')
    /\ paths = [str "/repo/a.js"; str "/repo/src/B.PY"]
    /\ (forall p,
           In p paths <->
           exists dirs name,
             FileAt sampleTree dirs name
             /\ allEntered dirs
             /\ extensionKept defaultExtensions name
             /\ p = Path.join (pathBelow (str "/repo") dirs) name).
Proof.
  intros w.
  destruct (collector_prunes_skipped_directories defaultExtensions (str "/repo")
              (entries := sampleTree) w eq_refl) as (paths & w' & Hrun & Hpaths & _).
  exists paths, w'. split; [exact Hrun | split; [|exact Hpaths]].
  vm_compute in Hrun. now injection Hrun as <- _.
Defined.

(** A returned file whose extension is not in the list: the comparison
    is made on the lower-cased extension. *)
Lemma collector_keeps_upper_case_extension :
  In (str "/repo/src/B.PY") (files (collect defaultExtensions (str "/repo") sampleTree))
  /\ JsString.arrayIncludes defaultExtensions (Path.extname (str "/repo/src/B.PY")) = false.
Proof. split; [vm_compute; auto | vm_compute; reflexivity]. Qed.

(** ** De-duplication *)

Section UniqueFacts.
Variable A : Type.
Variable identifier : A -> jsstring.

Lemma seen_in_unique (unique : list A) (item : A) :
  existsb (fun issue => JsString.eqb (identifier issue) (identifier item)) unique
  = JsString.arrayIncludes (map identifier unique) (identifier item).
Proof.
  unfold JsString.arrayIncludes. induction unique as [|u unique IH]; cbn; [reflexivity|].
  now rewrite IH, eqb_sym.
Qed.

Lemma reduce_from (items : list A) :
  forall unique,
    fold_left
      (fun unique item =>
         if existsb (fun issue => JsString.eqb (identifier issue) (identifier item)) unique
         then unique
         else unique ++ [item])
      items unique
    = unique ++ firstOccurrences identifier (map identifier unique) items.
Proof.
  induction items as [|item items IH]; intros unique; cbn [fold_left firstOccurrences].
  - now rewrite app_nil_r.
  - rewrite IH, seen_in_unique.
    destruct (JsString.arrayIncludes (map identifier unique) (identifier item)).
    + reflexivity.
    + rewrite map_app, <- app_assoc. reflexivity.
Qed.

(** The pass keeps the first occurrences. *)
Lemma uniqueBy_first (items : list A) :
  uniqueBy identifier items = firstOccurrences identifier [] items.
Proof. unfold uniqueBy. now rewrite reduce_from. Qed.

Lemma first_Subsequence (items : list A) :
  forall seen, Subsequence (firstOccurrences identifier seen items) items.
Proof.
  induction items as [|item items IH]; intros seen; cbn [firstOccurrences].
  - constructor.
  - destruct (JsString.arrayIncludes seen (identifier item)).
    + apply sub_skip, IH.
    + apply sub_keep, IH.
Qed.

Lemma first_unseen (items : list A) :
  forall seen x, In x (firstOccurrences identifier seen items) ->
                 ~ In (identifier x) seen.
Proof.
  induction items as [|item items IH]; intros seen x; cbn [firstOccurrences].
  - intros [].
  - destruct (JsString.arrayIncludes seen (identifier item)) eqn:E.
    + apply IH.
    + intros [<- | Hin].
      * intros Hs. apply arrayIncludes_In in Hs. congruence.
      * intros Hs. apply (IH _ _ Hin). apply in_app_iff. now left.
Qed.

Lemma first_NoDup (items : list A) :
  forall seen, NoDup (map identifier (firstOccurrences identifier seen items)).
Proof.
  induction items as [|item items IH]; intros seen; cbn [firstOccurrences].
  - constructor.
  - destruct (JsString.arrayIncludes seen (identifier item)); [apply IH|].
    cbn [map]. constructor; [|apply IH].
    intros Hin. apply in_map_iff in Hin as (x & E & Hx).
    apply first_unseen in Hx. apply Hx. rewrite E. apply in_app_iff. right. now left.
Qed.

Lemma first_find (items : list A) :
  forall seen y,
    ~ In (identifier y) seen ->
    find (duplicateOf identifier y) (firstOccurrences identifier seen items)
    = find (duplicateOf identifier y) items.
Proof.
  induction items as [|item items IH]; intros seen y Hy; cbn [firstOccurrences find];
    [reflexivity|].
  destruct (JsString.arrayIncludes seen (identifier item)) eqn:E.
  - unfold duplicateOf at 2.
    destruct (JsString.eqb (identifier item) (identifier y)) eqn:Ek.
    + apply eqb_eq in Ek. apply arrayIncludes_In in E. rewrite Ek in E. contradiction.
    + now apply IH.
  - cbn [find]. unfold duplicateOf at 1 3.
    destruct (JsString.eqb (identifier item) (identifier y)) eqn:Ek; [reflexivity|].
    apply IH. intros Hin. apply in_app_iff in Hin as [Hin | [Hin | []]]; [contradiction|].
    apply eqb_neq in Ek. congruence.
Qed.

(** A list without duplicates outside [seen] is left as it is. *)
Lemma first_fixed (items : list A) :
  forall seen,
    NoDup (map identifier items) ->
    (forall x, In x items -> ~ In (identifier x) seen) ->
    firstOccurrences identifier seen items = items.
Proof.
  induction items as [|item items IH]; intros seen Hnd Hout; cbn [firstOccurrences];
    [reflexivity|].
  cbn [map] in Hnd. inversion Hnd as [|? ? Hnotin Hnd']; subst.
  destruct (JsString.arrayIncludes seen (identifier item)) eqn:E.
  - apply arrayIncludes_In in E. exfalso. apply (Hout item); [now left | assumption].
  - f_equal. apply IH; [assumption|].
    intros x Hx Hin. apply in_app_iff in Hin as [Hin | [Hin | []]].
    + apply (Hout x); [now right | assumption].
    + apply Hnotin. rewrite Hin. now apply in_map.
Qed.

(** The four properties of the pass. *)
Lemma uniqueBy_properties (items : list A) :
  Subsequence (uniqueBy identifier items) items
  /\ NoDup (map identifier (uniqueBy identifier items))
  /\ (forall y, find (duplicateOf identifier y) (uniqueBy identifier items)
                = find (duplicateOf identifier y) items)
  /\ uniqueBy identifier (uniqueBy identifier items) = uniqueBy identifier items.
Proof.
  rewrite !uniqueBy_first. repeat split.
  - apply first_Subsequence.
  - apply first_NoDup.
  - intros y. apply first_find. intros [].
  - apply first_fixed; [apply first_NoDup | intros x _ []].
Qed.

End UniqueFacts.

Lemma lintIdentifier_pair (a b : lintIssue) :
  lintIdentifier a = lintIdentifier b <-> line a = line b /\ message a = message b.
Proof.
  unfold lintIdentifier. split.
  - intros E. apply dash_split in E as [El Em]; try apply ofNat_dashFree.
    split; [now apply ofNat_inj | assumption].
  - intros [-> ->]. reflexivity.
Qed.

Lemma securityIdentifier_pair (a b : securityIssue) :
  dashFree (location a) = true -> dashFree (location b) = true ->
  (securityIdentifier a = securityIdentifier b <->
   location a = location b /\ title a = title b).
Proof.
  intros Ha Hb. unfold securityIdentifier. split.
  - intros E. now apply dash_split in E.
  - intros [-> ->]. reflexivity.
Qed.

(** The locations the scanner writes have no dash. *)
Lemma scan_location_dashFree (code fileExt : jsstring) (f : securityIssue) :
  In f (scanForSecurityIssues code fileExt) -> dashFree (location f) = true.
Proof.
  intros Hf. apply (proj1 (scan_In code fileExt f)) in Hf as (p & _ & _ & Hf).
  unfold findingsOf in Hf. apply in_map_iff in Hf as (m & <- & _).
  cbn [issueOf location]. rewrite dashFree_app, ofNat_dashFree.
  vm_compute. reflexivity.
Qed.

(** C4. Each of the two passes keeps, of the elements with one
    identifier, the first and only the first, leaves the kept elements in
    their order, and changes nothing when run again.  Two lint issues
    have one identifier exactly when they agree on line and message,
    whatever their file paths; two security issues with locations as the
    scanner writes them, exactly when they agree on location and
    title. *)
Theorem dedupe_keeps_first_occurrences :
  (forall items : list lintIssue,
      Subsequence (uniqueLintIssues items) items
      /\ NoDup (map lintIdentifier (uniqueLintIssues items))
      /\ (forall y, find (duplicateOf lintIdentifier y) (uniqueLintIssues items)
                    = find (duplicateOf lintIdentifier y) items)
      /\ uniqueLintIssues (uniqueLintIssues items) = uniqueLintIssues items)
  /\ (forall items : list securityIssue,
         Subsequence (uniqueSecurityIssues items) items
         /\ NoDup (map securityIdentifier (uniqueSecurityIssues items))
         /\ (forall y, find (duplicateOf securityIdentifier y) (uniqueSecurityIssues items)
                       = find (duplicateOf securityIdentifier y) items)
         /\ uniqueSecurityIssues (uniqueSecurityIssues items) = uniqueSecurityIssues items)
  /\ (forall a b : lintIssue,
         lintIdentifier a = lintIdentifier b <-> line a = line b /\ message a = message b)
  /\ (forall a b : securityIssue,
         dashFree (location a) = true -> dashFree (location b) = true ->
         (securityIdentifier a = securityIdentifier b <->
          location a = location b /\ title a = title b))
  /\ (forall code fileExt f,
         In f (scanForSecurityIssues code fileExt) -> dashFree (location f) = true).
Proof.
  split; [|split; [|split; [|split]]].
  - intros items. apply (uniqueBy_properties lintIdentifier items).
  - intros items. apply (uniqueBy_properties securityIdentifier items).
  - apply lintIdentifier_pair.
  - apply securityIdentifier_pair.
  - apply scan_location_dashFree.
Qed.

(** Two issues on one line with one message, from two files; and one
    finding with and without its file path. *)
Lemma dedupe_keeps_first_occurrences_witness :
  let a := mkLintIssue 3 1 (str "warning") (str "'x' is defined but never used.")
                       (Some (str "no-unused-vars")) (Some (str "a.js")) in
  let b := mkLintIssue 3 9 (str "warning") (str "'x' is defined but never used.")
                       (Some (str "no-unused-vars")) (Some (str "b.js")) in
  uniqueLintIssues [a; b; a] = [a]
  /\ lintIdentifier a = lintIdentifier b
  /\ (securityIdentifier evalFinding
      = securityIdentifier (withSecurityPath (str "x.js") evalFinding)
      <-> location evalFinding = location (withSecurityPath (str "x.js") evalFinding)
          /\ title evalFinding = title (withSecurityPath (str "x.js") evalFinding)).
Proof.
  intros a b.
  destruct dedupe_keeps_first_occurrences as (_ & _ & Hlint & Hsecurity & _).
  split; [vm_compute; reflexivity | split].
  - apply (Hlint a b). split; reflexivity.
  - apply (Hsecurity evalFinding (withSecurityPath (str "x.js") evalFinding));
      vm_compute; reflexivity.
Defined.

(** ** The handler *)

Section HandlerFacts.
Variable env : environment.

Lemma getAIReview_returns (code : jsstring) (w : world) :
  exists text w', getAIReview (openai env) code w = (Returned text, w').
Proof.
  unfold getAIReview, bind, record, ret.
  destruct (openai env code); eexists _, _; reflexivity.
Qed.

(** The gate of the repository branch: nothing is called. *)
Lemma handleRepository_rejects (content : jsstring) (w : world) :
  JsString.includes content (str "github.com") = false ->
  handleRepository env content w = (Returned invalidUrlResponse, w).
Proof.
  intros Hno. unfold handleRepository, tryCatch. rewrite Hno. reflexivity.
Qed.

(** Behind the gate [processRepository] runs, and the answer is 500
    when it throws, 404 when it finds no file, 200 otherwise. *)
Lemma handleRepository_fetches (content : jsstring) (w : world) :
  JsString.includes content (str "github.com") = true ->
  exists resp w',
    handleRepository env content w = (Returned resp, w')
    /\ match processRepository (repoEnvOf env) content w with
       | (Thrown e, w1) =>
           resp = mkResponse 500 (ErrorBody (str "Error processing repository: " ++ e))
           /\ w' = w1
       | (Returned files, w1) =>
           if Nat.eqb (List.length files) 0
           then status resp = 404 /\ w' = w1
           else exists processed lint security ai,
               resp = mkResponse 200
                        (RepositoryBody content (List.length files) processed
                                        lint security ai)
       end.
Proof.
  intros Hyes. unfold handleRepository, tryCatch. rewrite Hyes. cbn [negb].
  unfold bind at 1.
  destruct (processRepository (repoEnvOf env) content w) as [[files | e] w1].
  - destruct (Nat.eqb (List.length files) 0) eqn:Hlen.
    + eexists _, _. split; [reflexivity | split; reflexivity].
    + unfold bind at 1.
      destruct (processRepositoryFiles_run (fileLint env) files w1) as (w2 & Hrun).
      rewrite Hrun. unfold bind at 1.
      destruct (Nat.ltb 0 (List.length (firstn 3 files))).
      * destruct (getAIReview_returns (combinedContent files) w2) as (text & w3 & Hai).
        rewrite Hai. eexists _, _. split; [reflexivity|].
        eexists _, _, _, _. reflexivity.
      * eexists _, _. split; [reflexivity|].
        eexists _, _, _, _. reflexivity.
  - eexists _, _. split; [reflexivity | split; reflexivity].
Qed.

Lemma POST_repo (content : jsstring) (w : world) :
  POST env (repoRequest content) w =
  if JsString.eqb content []
  then (Returned (mkResponse 400 (ErrorBody (str "No content provided"))), w)
  else handleRepository env content w.
Proof.
  unfold POST, repoRequest. cbn [req_content req_type].
  destruct (JsString.eqb content []); reflexivity.
Qed.

End HandlerFacts.

(** C9. The request for [https://example.com/not-github] is answered
    with status 400 and the invalid-URL error, and the world is as
    before: no directory made, nothing cloned, read, linted or reviewed. *)
Theorem not_github_rejected_before_fetch (env : environment) (w : world) :
  POST env (repoRequest notGithubUrl) w = (Returned invalidUrlResponse, w).
Proof.
  rewrite POST_repo.
  replace (JsString.eqb notGithubUrl []) with false by (vm_compute; reflexivity).
  apply handleRepository_rejects. vm_compute. reflexivity.
Qed.

(** A clone that fails after the address was accepted and the directory
    made: [processRepository] throws, and [git.clone] was called. *)
Lemma processRepository_clone_fails (re : repoEnv) (url : jsstring) (w : world)
      (parsed : parsedUrl) (owner repo : jsstring) (more : list jsstring) :
  re_URL re url = Some parsed ->
  JsString.includes (hostname parsed) (str "github.com") = true ->
  pathParts (pathname parsed) = owner :: repo :: more ->
  re_mkdir re = true ->
  re_clone re = None ->
  exists e w',
    processRepository re url w = (Thrown e, w') /\ cloneAttempted w'.
Proof.
  intros Hurl Hhost Hparts Hmk Hclone.
  unfold processRepository, cloneRepository, bind at 1, lift, parseGitHubUrl.
  rewrite Hurl, Hhost, Hparts. cbn [negb].
  set (dir := Path.join _ _).
  unfold tryCatch at 1, bind at 1, mkdir. rewrite Hmk.
  unfold bind at 1, record.
  unfold bind at 1, gitClone. rewrite Hclone.
  unfold bind at 1, record, throw.
  unfold bind at 1, tryCatch, rm, bind, record, throw, ret.
  destruct (re_rmCatch re); cbn [journal directories removeDir];
    eexists _, _; (split; [reflexivity|]); exists url, dir;
    unfold removeDir, setDir; cbn [journal directories];
    destruct (present dir _); cbn [journal directories];
    rewrite !in_app_iff; cbn [In]; tauto.
Qed.

(** C10. A repository request is answered with status 400 and nothing
    called exactly when its content does not contain [github.com], which
    [includes] tests as a substring at any position; when it does,
    [processRepository] runs, the status is 200, 404 or 500, and it is
    500 whenever [processRepository] throws.  The address
    [https://notgithub.com/a/b] contains the substring: when its host is
    read as [notgithub.com], the directory is made and the clone fails,
    [git.clone] has been called and the status is 500. *)
Theorem github_gate_is_substring_test (env : environment) (w : world) :
  (forall content,
      JsString.includes content (str "github.com") = false ->
      exists e, POST env (repoRequest content) w = (Returned (mkResponse 400 (ErrorBody e)), w))
  /\ (forall content,
         JsString.includes content (str "github.com") = true ->
         exists resp w',
           POST env (repoRequest content) w = (Returned resp, w')
           /\ (status resp = 200 \/ status resp = 404 \/ status resp = 500)
           /\ (forall e w1,
                  processRepository (repoEnvOf env) content w = (Thrown e, w1) ->
                  status resp = 500 /\ w' = w1))
  /\ (forall content,
         JsString.includes content (str "github.com") = true <->
         exists before after, content = before ++ str "github.com" ++ after)
  /\ JsString.includes lookalikeUrl (str "github.com") = true
  /\ (re_URL (repoEnvOf env) lookalikeUrl = Some (mkUrl (str "notgithub.com") (str "/a/b")) ->
      re_mkdir (repoEnvOf env) = true ->
      re_clone (repoEnvOf env) = None ->
      exists e w',
        POST env (repoRequest lookalikeUrl) w = (Returned (mkResponse 500 (ErrorBody e)), w')
        /\ cloneAttempted w').
Proof.
  split; [|split; [|split; [|split]]].
  - intros content Hno. rewrite POST_repo.
    destruct (JsString.eqb content []); eexists; [reflexivity|].
    now apply handleRepository_rejects.
  - intros content Hyes. rewrite POST_repo.
    assert (Hne : JsString.eqb content [] = false).
    { apply eqb_neq. intros ->. vm_compute in Hyes. discriminate. }
    rewrite Hne.
    destruct (handleRepository_fetches env content w Hyes) as (resp & w' & Hrun & Hcase).
    exists resp, w'. split; [exact Hrun|].
    destruct (processRepository (repoEnvOf env) content w) as [[files | e] w1].
    + split.
      * destruct (Nat.eqb (List.length files) 0); [right; left; apply Hcase | left].
        destruct Hcase as (processed & lint & security & ai & ->). reflexivity.
      * intros e w2 E. discriminate.
    + destruct Hcase as [-> ->]. split; [right; right; reflexivity|].
      intros e' w2 E. injection E as _ <-. split; reflexivity.
  - intros content. apply includes_spec.
  - vm_compute. reflexivity.
  - intros Hurl Hmk Hclone. rewrite POST_repo.
    replace (JsString.eqb lookalikeUrl []) with false by (vm_compute; reflexivity).
    assert (Hhost : JsString.includes (hostname (mkUrl (str "notgithub.com") (str "/a/b")))
                                      (str "github.com") = true)
      by (vm_compute; reflexivity).
    assert (Hparts : pathParts (pathname (mkUrl (str "notgithub.com") (str "/a/b")))
                     = [str "a"; str "b"])
      by (vm_compute; reflexivity).
    destruct (processRepository_clone_fails (repoEnvOf env) lookalikeUrl w
                Hurl Hhost Hparts Hmk Hclone) as (e & w1 & Hthrow & Hattempt).
    assert (Hyes : JsString.includes lookalikeUrl (str "github.com") = true)
      by (vm_compute; reflexivity).
    destruct (handleRepository_fetches env lookalikeUrl w Hyes) as (resp & w' & Hrun & Hcase).
    rewrite Hthrow in Hcase. destruct Hcase as [-> ->].
    eexists _, w1. split; [exact Hrun | exact Hattempt].
Qed.

(** The look-alike address on a system where its clone fails. *)
Lemma github_gate_is_substring_test_witness :
  exists e w',
    POST lookalikeEnvironment (repoRequest lookalikeUrl) (mkWorld [] [])
    = (Returned (mkResponse 500 (ErrorBody e)), w')
    /\ cloneAttempted w'.
Proof.
  apply (proj2 (proj2 (proj2 (proj2
           (github_gate_is_substring_test lookalikeEnvironment (mkWorld [] []))))));
    reflexivity.
Defined.

(** C6. [fileCount] is the number of entries of [files], whatever
    happens to each of them: files that are skipped or that fail count
    all the same, so that [processedFiles] is never longer.  The
    response to a repository request carries that number: the number of
    files [processRepository] returned. *)
Theorem fileCount_counts_collected (env : environment) (w : world) :
  (forall files,
      exists res w',
        processRepositoryFiles (fileLint env) files w = (Returned res, w')
        /\ fileCount res = List.length files
        /\ List.length (processedFiles res) <= fileCount res)
  /\ (forall content files w1,
         JsString.includes content (str "github.com") = true ->
         processRepository (repoEnvOf env) content w = (Returned files, w1) ->
         files <> [] ->
         exists processed lint security ai w',
           POST env (repoRequest content) w
           = (Returned (mkResponse 200
                          (RepositoryBody content (List.length files) processed
                                          lint security ai)), w')).
Proof.
  split.
  - intros files.
    destruct (processRepositoryFiles_run (fileLint env) files w) as (w' & Hrun).
    exists (reportOf (fileLint env) files), w'. split; [exact Hrun|].
    unfold reportOf. cbn [fileCount processedFiles]. split; [reflexivity|].
    rewrite length_map. apply filter_length_le.
  - intros content files w1 Hyes Hfiles Hne. rewrite POST_repo.
    assert (Hcontent : JsString.eqb content [] = false).
    { apply eqb_neq. intros ->. vm_compute in Hyes. discriminate. }
    rewrite Hcontent.
    destruct (handleRepository_fetches env content w Hyes) as (resp & w' & Hrun & Hcase).
    rewrite Hfiles in Hcase.
    assert (Hlen : Nat.eqb (List.length files) 0 = false).
    { apply Nat.eqb_neq. intros E. apply length_zero_iff_nil in E. contradiction. }
    rewrite Hlen in Hcase. destruct Hcase as (processed & lint & security & ai & ->).
    now exists processed, lint, security, ai, w'.
Qed.

(** The sample checkout behind a GitHub address: two files are
    collected and counted, and the one that cannot be staged for the
    linter is counted too. *)
Lemma fileCount_counts_collected_witness :
  exists processed lint security ai w',
    POST sampleEnvironment (repoRequest sampleUrl) (mkWorld [] [])
    = (Returned (mkResponse 200 (RepositoryBody sampleUrl 2 processed lint security ai)), w')
    /\ processed = [str "src/B.PY"].
Proof.
  destruct (proj2 (fileCount_counts_collected sampleEnvironment (mkWorld [] []))
              sampleUrl
              [(str "a.js", str "let a = 1;"); (str "src/B.PY", str "print(1)")]
              (mkWorld [] [EvMkdir (str "/tmp/github-owner-repo-0002");
                           EvClone sampleUrl (str "/tmp/github-owner-repo-0002");
                           EvReaddir (str "/tmp/github-owner-repo-0002");
                           EvReaddir (str "/tmp/github-owner-repo-0002/src");
                           EvReadFile (str "/tmp/github-owner-repo-0002/a.js");
                           EvReadFile (str "/tmp/github-owner-repo-0002/src/B.PY");
                           EvRm (str "/tmp/github-owner-repo-0002")]))
    as (processed & lint & security & ai & w' & Hrun).
  - vm_compute. reflexivity.
  - vm_compute. reflexivity.
  - discriminate.
  - exists processed, lint, security, ai, w'. split; [exact Hrun|].
    vm_compute in Hrun. now injection Hrun as <- _ _ _ _.
Defined.

(** * Further properties *)

(** ** The scanner: file types, empty matches and lines *)

Section ScanMoreFacts.

Lemma catalog_languages_known (p : securityPattern) :
  In p securityPatterns ->
  exists langs,
    sp_languages p = Some langs
    /\ forall x, In x langs -> JsString.arrayIncludes knownTypes x = true.
Proof.
  intros Hp.
  assert (Hall : forallb (fun p => match sp_languages p with
                                   | Some langs => forallb (JsString.arrayIncludes knownTypes) langs
                                   | None => false
                                   end) securityPatterns = true)
    by (vm_compute; reflexivity).
  rewrite forallb_forall in Hall. specialize (Hall p Hp).
  destruct (sp_languages p) as [langs|]; [|discriminate Hall].
  exists langs. split; [reflexivity|]. now apply forallb_forall.
Qed.

Lemma catalog_not_nullable (p : securityPattern) :
  In p securityPatterns -> nullable (RegExp.source (sp_pattern p)) = false.
Proof.
  intros Hp.
  assert (Hall : forallb (fun p => negb (nullable (RegExp.source (sp_pattern p))))
                         securityPatterns = true)
    by (vm_compute; reflexivity).
  rewrite forallb_forall in Hall. specialize (Hall p Hp).
  now apply negb_true_iff.
Qed.

(** A pattern that is not nullable has no empty match. *)
Lemma ends_positive ic r :
  nullable r = false -> forall s, ~ In 0 (RegExp.ends ic r s).
Proof.
  induction r as [|c|invert items|r1 IH1 r2 IH2|r1 IH1 r2 IH2|r IH];
    cbn [nullable]; intros Hn s; try discriminate Hn.
  - cbn [RegExp.ends]. destruct s as [|x s]; [intros []|].
    destruct (RegExp.unitMatches ic c x); [intros [H | []]; discriminate H | intros []].
  - cbn [RegExp.ends]. destruct s as [|x s]; [intros []|].
    destruct (xorb invert (RegExp.inClass ic items x));
      [intros [H | []]; discriminate H | intros []].
  - cbn [RegExp.ends]. intros Hin. apply in_flat_map in Hin as (n1 & H1 & Hin).
    apply in_map_iff in Hin as (n2 & E & H2).
    assert (n1 = 0 /\ n2 = 0) as [-> ->] by lia.
    apply andb_false_iff in Hn as [Hn | Hn].
    + now apply (IH1 Hn s).
    + now apply (IH2 Hn (skipn 0 s)).
  - cbn [RegExp.ends]. intros Hin. apply orb_false_iff in Hn as [Hn1 Hn2].
    apply in_app_iff in Hin as [Hin | Hin].
    + now apply (IH1 Hn1 s).
    + now apply (IH2 Hn2 s).
Qed.

Lemma matchHere_positive re s len :
  nullable (RegExp.source re) = false ->
  RegExp.matchHere re s = Some len -> 1 <= len.
Proof.
  intros Hn Hm. unfold RegExp.matchHere in Hm.
  destruct (RegExp.ends (RegExp.ignoreCase re) (RegExp.source re) s) as [|n l] eqn:E;
    [discriminate Hm|].
  injection Hm as ->.
  destruct len as [|len]; [|lia].
  exfalso. apply (ends_positive (RegExp.ignoreCase re) (RegExp.source re) Hn s).
  rewrite E. now left.
Qed.

(** Every match of a global iteration is a match at its index. *)
Lemma GlobalMatches_In re s lastIndex ms :
  GlobalMatches re s lastIndex ms ->
  forall m, In m ms ->
            lastIndex <= RegExp.index m
            /\ RegExp.matchHere re (skipn (RegExp.index m) s) = Some (RegExp.matched m).
Proof.
  induction 1 as [|lastIndex i len rest Hi Hgap Hm Hrest IH]; intros m Hin.
  - destruct Hin.
  - destruct Hin as [<- | Hin].
    + cbn [RegExp.index RegExp.matched]. split; [lia | assumption].
    + destruct (IH m Hin) as [Hle Hmatch]. split; [lia | assumption].
Qed.

Lemma Disjoint_count n ms :
  forall from,
    Disjoint n from ms ->
    (forall m, In m ms -> 1 <= RegExp.matched m) ->
    List.length ms <= n - from.
Proof.
  induction ms as [|m ms IH]; intros from Hd Hpos; cbn [List.length]; [lia|].
  cbn [Disjoint] in Hd. destruct Hd as (Hfrom & Hin & Hrest).
  assert (Hm : 1 <= RegExp.matched m) by (apply Hpos; now left).
  apply IH in Hrest; [|intros m' Hm'; apply Hpos; now right].
  lia.
Qed.

Lemma newlinesBefore_mono code i j :
  i <= j -> newlinesBefore code i <= newlinesBefore code j.
Proof.
  unfold newlinesBefore. revert i j.
  induction code as [|c code IH]; intros i j Hij.
  - rewrite !firstn_nil. lia.
  - destruct i as [|i]; [cbn; lia|].
    destruct j as [|j]; [lia|].
    cbn [firstn count_occ]. specialize (IH i j ltac:(lia)).
    destruct (N.eq_dec c LF); lia.
Qed.

Lemma newlinesBefore_le_all code i :
  newlinesBefore code i <= count_occ N.eq_dec code LF.
Proof.
  unfold newlinesBefore. rewrite <- (firstn_skipn i code) at 2.
  rewrite count_occ_app. lia.
Qed.

Lemma Disjoint_lines code n ms :
  forall from,
    Disjoint n from ms ->
    Forall (fun m => from <= RegExp.index m) ms
    /\ StronglySorted le (map (fun m => lineNumberAt code (RegExp.index m)) ms).
Proof.
  induction ms as [|m ms IH]; intros from Hd; cbn [map].
  - split; constructor.
  - cbn [Disjoint] in Hd. destruct Hd as (Hfrom & Hin & Hrest).
    destruct (IH _ Hrest) as [Hall Hsorted]. split.
    + constructor; [assumption|].
      eapply Forall_impl; [|exact Hall]. cbn beta. intros m' Hm'. lia.
    + constructor; [assumption|].
      apply Forall_forall. intros l Hl. apply in_map_iff in Hl as (m' & <- & Hm').
      rewrite Forall_forall in Hall. specialize (Hall m' Hm').
      rewrite !lineNumberAt_newlines.
      assert (newlinesBefore code (RegExp.index m) <= newlinesBefore code (RegExp.index m'))
        by (apply newlinesBefore_mono; lia).
      lia.
Qed.

End ScanMoreFacts.

(** X1. A file type that no catalog entry names has no finding, whatever the
    content. *)
Theorem scan_unknown_type_finds_nothing (code fileExt : jsstring) :
  JsString.arrayIncludes knownTypes (JsString.removeFirst DOT fileExt) = false ->
  scanForSecurityIssues code fileExt = [].
Proof.
  intros Hno. rewrite scan_flat_map.
  rewrite filter_none; [reflexivity|].
  intros p Hp. destruct (catalog_languages_known Hp) as (langs & Hl & Hknown).
  unfold applies, skipped. rewrite Hl, negb_involutive.
  destruct (JsString.arrayIncludes langs (JsString.removeFirst DOT fileExt)) eqn:E;
    [|reflexivity].
  apply arrayIncludes_In in E. apply Hknown in E. congruence.
Qed.

Lemma scan_unknown_type_finds_nothing_witness :
  scanForSecurityIssues (str "<script>eval(document.cookie)</script>") (str ".html") = [].
Proof.
  apply scan_unknown_type_finds_nothing. vm_compute. reflexivity.
Defined.

(** X2. The four JavaScript file types are scanned alike, and the dot of the
    extension is optional. *)
Theorem scan_javascript_family (code : jsstring) :
  scanForSecurityIssues code (str ".jsx") = scanForSecurityIssues code (str ".js")
  /\ scanForSecurityIssues code (str ".ts") = scanForSecurityIssues code (str ".js")
  /\ scanForSecurityIssues code (str ".tsx") = scanForSecurityIssues code (str ".js")
  /\ scanForSecurityIssues code (str "js") = scanForSecurityIssues code (str ".js").
Proof.
  rewrite !scan_flat_map.
  repeat split; f_equal; vm_compute; reflexivity.
Qed.

(** X3. No catalog pattern matches the empty string: every match has at
    least one code unit and lies inside the content, an entry has at
    most as many findings as the content has code units, and the empty
    content has no finding. *)
Theorem scan_matches_are_not_empty (code fileExt : jsstring) :
  (forall p m,
      In p securityPatterns -> In m (RegExp.matchAll (sp_pattern p) code) ->
      1 <= RegExp.matched m
      /\ RegExp.index m + RegExp.matched m <= List.length code)
  /\ (forall p,
         In p securityPatterns ->
         List.length (filter (fun f => JsString.eqb (title f) (sp_title p))
                             (scanForSecurityIssues code fileExt))
         <= List.length code)
  /\ scanForSecurityIssues [] fileExt = [].
Proof.
  assert (Hpos : forall s p m,
             In p securityPatterns -> In m (RegExp.matchAll (sp_pattern p) s) ->
             1 <= RegExp.matched m
             /\ RegExp.index m + RegExp.matched m <= List.length s).
  { intros s p m Hp Hm.
    destruct (GlobalMatches_In (matchAll_spec (sp_pattern p) s) m Hm) as [_ Hhere].
    split.
    - apply (matchHere_positive (sp_pattern p) _ (catalog_not_nullable Hp) Hhere).
    - apply matchHere_bound in Hhere. rewrite length_skipn in Hhere.
      destruct (GlobalMatches_In (matchAll_spec (sp_pattern p) s) m Hm) as [_ H2].
      assert (1 <= RegExp.matched m)
        by apply (matchHere_positive (sp_pattern p) _ (catalog_not_nullable Hp) H2).
      lia. }
  assert (Hcount : forall s p, In p securityPatterns ->
                               List.length (RegExp.matchAll (sp_pattern p) s) <= List.length s).
  { intros s p Hp.
    pose proof (@Disjoint_count (List.length s) (RegExp.matchAll (sp_pattern p) s) 0
                  (GlobalMatches_Disjoint (matchAll_spec (sp_pattern p) s))
                  (fun m Hm => proj1 (Hpos s p m Hp Hm))) as H.
    lia. }
  split; [exact (Hpos code) | split].
  - intros p Hp. rewrite scan_flat_map.
    rewrite (findings_by_title code securityPatterns
               (applies (JsString.removeFirst DOT fileExt)) p titles_NoDup Hp).
    destruct (applies (JsString.removeFirst DOT fileExt) p); cbn [List.length]; [|lia].
    unfold findingsOf. rewrite length_map. now apply Hcount.
  - rewrite scan_flat_map. apply flat_map_nil_in. intros p Hp.
    apply filter_In in Hp as [Hp _]. unfold findingsOf.
    specialize (Hcount [] p Hp). cbn [List.length] in Hcount.
    destruct (RegExp.matchAll (sp_pattern p) []); [reflexivity | cbn in Hcount; lia].
Qed.

Lemma scan_matches_are_not_empty_witness :
  exists p m,
    In p securityPatterns
    /\ In m (RegExp.matchAll (sp_pattern p) evalSnippet)
    /\ 1 <= RegExp.matched m
    /\ RegExp.index m + RegExp.matched m <= List.length evalSnippet.
Proof.
  exists (nth 0 securityPatterns (mkPattern (RegExp.mk RegExp.Eps false) [] [] None)),
         (RegExp.mkResult 0 5).
  assert (Hp : In (nth 0 securityPatterns (mkPattern (RegExp.mk RegExp.Eps false) [] [] None))
                  securityPatterns) by (vm_compute; auto).
  assert (Hm : In (RegExp.mkResult 0 5)
                  (RegExp.matchAll
                     (sp_pattern (nth 0 securityPatterns
                                      (mkPattern (RegExp.mk RegExp.Eps false) [] [] None)))
                     evalSnippet)) by (vm_compute; auto).
  split; [exact Hp | split; [exact Hm|]].
  apply (proj1 (scan_matches_are_not_empty evalSnippet (str ".js")) _ _ Hp Hm).
Defined.

(** X4. The line of every finding is a line of the content: at least 1 and
    at most the number of lines the editor counts; and the findings of
    one entry come in the order of their lines. *)
Theorem finding_lines_are_lines_of_the_content (code fileExt : jsstring) :
  (forall f,
      In f (scanForSecurityIssues code fileExt) ->
      exists n,
        location f = str "Line " ++ JsString.ofNat n
        /\ 1 <= n <= lineCount code)
  /\ (forall p, StronglySorted le (linesOf code p)).
Proof.
  split.
  - intros f Hf. apply (proj1 (scan_In code fileExt f)) in Hf as (p & _ & _ & Hf).
    unfold findingsOf in Hf. apply in_map_iff in Hf as (m & <- & _).
    exists (lineNumberAt code (RegExp.index m)). split; [reflexivity|].
    rewrite lineNumberAt_newlines. unfold lineCount. rewrite split_length.
    pose proof (newlinesBefore_le_all code (RegExp.index m)). lia.
  - intros p. unfold linesOf.
    apply (@Disjoint_lines code (List.length code)
                           (RegExp.matchAll (sp_pattern p) code) 0).
    apply GlobalMatches_Disjoint with (re := sp_pattern p). apply matchAll_spec.
Qed.

Lemma finding_lines_are_lines_of_the_content_witness :
  let code := str "a = eval (x);" ++ [LF] ++ str "b.innerHTML = eval(y);" in
  lineCount code = 2
  /\ forall f,
      In f (scanForSecurityIssues code (str ".js")) ->
      exists n, location f = str "Line " ++ JsString.ofNat n /\ 1 <= n <= lineCount code.
Proof.
  intros code. split; [vm_compute; reflexivity|].
  apply (proj1 (finding_lines_are_lines_of_the_content code (str ".js"))).
Defined.

(** ** The temporary area: what each call does to it *)

Section AreaFacts.

Lemma Extends_refl dir w : Extends dir [] w w.
Proof. split; [now rewrite app_nil_r | reflexivity]. Qed.

Lemma Extends_trans dir e1 e2 w w1 w2 :
  Extends dir e1 w w1 -> Extends dir e2 w1 w2 -> Extends dir (e1 ++ e2) w w2.
Proof.
  intros [Hj1 Hd1] [Hj2 Hd2]. split.
  - now rewrite Hj2, Hj1, app_assoc.
  - intros d Hd. now rewrite Hd2, Hd1.
Qed.

Lemma find_filter_other (dir d : jsstring) (ds : list (jsstring * list dirent)) :
  d <> dir ->
  find (fun x => JsString.eqb (fst x) d)
       (filter (fun x => negb (JsString.eqb (fst x) dir)) ds)
  = find (fun x => JsString.eqb (fst x) d) ds.
Proof.
  intros Hne. induction ds as [|x ds IH]; cbn [filter find]; [reflexivity|].
  destruct (JsString.eqb (fst x) dir) eqn:Ex; cbn [negb find].
  - destruct (JsString.eqb (fst x) d) eqn:Ed; [|exact IH].
    apply eqb_eq in Ex. apply eqb_eq in Ed. congruence.
  - destruct (JsString.eqb (fst x) d); [reflexivity | exact IH].
Qed.

Lemma lookupDir_removeDir_other dir d w :
  d <> dir -> lookupDir d (removeDir dir w) = lookupDir d w.
Proof.
  intros Hne. unfold lookupDir, removeDir. cbn [directories].
  now rewrite find_filter_other.
Qed.

Lemma lookupDir_setDir_other dir entries d w :
  d <> dir -> lookupDir d (setDir dir entries w) = lookupDir d w.
Proof.
  intros Hne. unfold lookupDir, setDir. cbn [directories find fst].
  destruct (JsString.eqb dir d) eqn:E.
  - apply eqb_eq in E. congruence.
  - fold (lookupDir d (removeDir dir w)). now apply lookupDir_removeDir_other.
Qed.

Lemma lookupDir_removeDir dir w : lookupDir dir (removeDir dir w) = None.
Proof.
  pose proof (present_removeDir dir w) as H. unfold present, lookupDir in *.
  destruct (find _ (directories (removeDir dir w))) as [x|] eqn:E; [|reflexivity].
  apply find_some in E as [Hin Hx].
  assert (existsb (fun d => JsString.eqb (fst d) dir) (directories (removeDir dir w)) = true)
    by (apply existsb_exists; now exists x).
  congruence.
Qed.

Lemma mkdir_ok dir w :
  exists w',
    mkdir true dir w = (Returned tt, w')
    /\ Extends dir [EvMkdir dir] w w'
    /\ present dir w' = true.
Proof.
  unfold mkdir, bind, record.
  set (w0 := mkWorld (directories w) (journal w ++ [EvMkdir dir])).
  destruct (present dir w0) eqn:E.
  - exists w0. repeat split; assumption.
  - exists (setDir dir [] w0). repeat split.
    + intros d Hd. now rewrite lookupDir_setDir_other.
    + apply present_setDir.
Qed.

Lemma mkdir_fails dir w :
  exists w',
    mkdir false dir w = (Thrown (str "mkdir failed"), w')
    /\ Extends dir [EvMkdir dir] w w'
    /\ directories w' = directories w.
Proof. unfold mkdir, bind, record, throw. eexists. repeat split. Qed.

Lemma writeFile_ok dir name data w :
  present dir w = true ->
  exists w',
    writeFile true dir name data w = (Returned tt, w')
    /\ Extends dir [EvWriteFile (Path.join dir name)] w w'
    /\ present dir w' = true.
Proof.
  intros Hp. unfold writeFile, bind, record.
  destruct (present_lookupDir dir w Hp) as (entries & Hl).
  assert (Hl' : lookupDir dir (mkWorld (directories w)
                                       (journal w ++ [EvWriteFile (Path.join dir name)]))
                = Some entries) by exact Hl.
  rewrite Hl'. eexists. repeat split.
  - intros d Hd. now rewrite lookupDir_setDir_other.
  - apply present_setDir.
Qed.

Lemma writeFile_fails dir name data w :
  exists w',
    writeFile false dir name data w = (Thrown (str "writeFile failed"), w')
    /\ Extends dir [EvWriteFile (Path.join dir name)] w w'
    /\ directories w' = directories w.
Proof. unfold writeFile, bind, record, throw. eexists. repeat split. Qed.

Lemma rm_ok dir w :
  exists w',
    rm true dir w = (Returned tt, w')
    /\ Extends dir [EvRm dir] w w'
    /\ directories w' = directories (removeDir dir w).
Proof.
  unfold rm, bind, record. eexists. repeat split.
  intros d Hd. now rewrite lookupDir_removeDir_other.
Qed.

Lemma rm_fails dir w :
  exists w',
    rm false dir w = (Thrown (str "rm failed"), w')
    /\ Extends dir [EvRm dir] w w'
    /\ directories w' = directories w.
Proof. unfold rm, bind, record, throw. eexists. repeat split. Qed.

Lemma present_directories dir w w' :
  directories w' = directories w -> present dir w' = present dir w.
Proof. unfold present. now intros ->. Qed.

(** The calls of [lintCode] and its working directory, case by case. *)
Lemma lintCode_effects (le : lintEnv) (code ext : jsstring) (w : world) :
  exists w',
    lintCode le code ext w = (lintCodeResult le, w')
    /\ Extends (lintTempDir le) (lintCalls le ext) w w'.
Proof.
  unfold lintCode, lintCodeResult, lintOutput, lintCalls.
  set (dir := lintTempDir le).
  set (name := str "temp" ++ ext).
  destruct (le_mkdir le); cbn [negb].
  2:{ destruct (mkdir_fails dir w) as (w1 & H1 & E1 & _).
      unfold bind at 1. rewrite H1. now exists w1. }
  destruct (mkdir_ok dir w) as (w1 & H1 & E1 & P1).
  unfold bind at 1. rewrite H1.
  destruct (le_writeFile le); cbn [negb].
  2:{ destruct (writeFile_fails dir name code w1) as (w2 & H2 & E2 & _).
      unfold bind at 1. rewrite H2. exists w2. split; [reflexivity|].
      apply (Extends_trans E1 E2). }
  destruct (writeFile_ok dir name code w1 P1) as (w2 & H2 & E2 & P2).
  unfold bind at 1. rewrite H2.
  unfold tryCatch at 1, bind at 1, lintFiles, bind at 1, record.
  set (w3 := mkWorld (directories w2) (journal w2 ++ [EvLintFiles (Path.join dir name)])).
  assert (E3 : Extends dir [EvLintFiles (Path.join dir name)] w2 w3)
    by (split; reflexivity).
  pose proof (Extends_trans E1 (Extends_trans E2 E3)) as E13. cbn [app] in E13.
  destruct (le_eslint le) as [messages|].
  - unfold ret at 1. unfold bind at 1.
    destruct (le_rm le).
    + destruct (rm_ok dir w3) as (w4 & H4 & E4 & _). rewrite H4.
      exists w4. split; [reflexivity|]. apply (Extends_trans E13 E4).
    + destruct (rm_fails dir w3) as (w4 & H4 & E4 & _). rewrite H4.
      unfold bind at 1, tryCatch.
      destruct (le_rmCatch le).
      * destruct (rm_ok dir w4) as (w5 & H5 & E5 & _). rewrite H5.
        exists w5. split; [reflexivity|].
        apply (Extends_trans E13 (Extends_trans E4 E5)).
      * destruct (rm_fails dir w4) as (w5 & H5 & E5 & _). rewrite H5.
        exists w5. split; [reflexivity|].
        apply (Extends_trans E13 (Extends_trans E4 E5)).
  - unfold throw at 1. unfold bind at 1, tryCatch.
    destruct (le_rmCatch le).
    + destruct (rm_ok dir w3) as (w4 & H4 & E4 & _). rewrite H4.
      exists w4. split; [reflexivity|]. apply (Extends_trans E13 E4).
    + destruct (rm_fails dir w3) as (w4 & H4 & E4 & _). rewrite H4.
      exists w4. split; [reflexivity|]. apply (Extends_trans E13 E4).
Qed.

End AreaFacts.

(** ** [lintCode]: what it returns and what it leaves *)

(** X5. When the directory is made, the file written, the linting done and
    the directory removed, [lintCode] returns the messages of ESLint,
    formatted, in their order; its directory is gone, the other
    directories are as before, and the calls were these four. *)
Theorem lintCode_returns_formatted_messages
        (le : lintEnv) (code ext : jsstring) (w : world) (messages : list eslintMessage) :
  le_mkdir le = true -> le_writeFile le = true ->
  le_eslint le = Some messages -> le_rm le = true ->
  exists w',
    lintCode le code ext w = (Returned (map formatMessage messages), w')
    /\ present (lintTempDir le) w' = false
    /\ (forall d, d <> lintTempDir le -> lookupDir d w' = lookupDir d w)
    /\ journal w' = journal w ++
                    [EvMkdir (lintTempDir le);
                     EvWriteFile (Path.join (lintTempDir le) (str "temp" ++ ext));
                     EvLintFiles (Path.join (lintTempDir le) (str "temp" ++ ext));
                     EvRm (lintTempDir le)].
Proof.
  intros Hmk Hwr Hes Hrm.
  destruct (lintCode_effects le code ext w) as (w' & Hrun & Hj & Hd).
  destruct (lintCode_run le code ext w) as (w1 & Hrun1 & Hleft).
  rewrite Hrun in Hrun1. injection Hrun1 as <-.
  exists w'. split; [|split; [|split]].
  - rewrite Hrun. unfold lintCodeResult, lintOutput. now rewrite Hmk, Hwr, Hes, Hrm.
  - rewrite Hleft. unfold tempDirLeft. now rewrite Hmk, Hwr, Hes, Hrm.
  - exact Hd.
  - rewrite Hj. unfold lintCalls. now rewrite Hmk, Hwr, Hes, Hrm.
Qed.

Lemma lintCode_returns_formatted_messages_witness :
  exists w',
    lintCode workingLint (str "let a = 1") (str ".js") (mkWorld [] [])
    = (Returned (map formatMessage twoMessages), w')
    /\ present (lintTempDir workingLint) w' = false
    /\ map severity (map formatMessage twoMessages) = [str "warning"; str "error"].
Proof.
  destruct (lintCode_returns_formatted_messages workingLint (str "let a = 1") (str ".js")
              (mkWorld [] []) (messages := twoMessages) eq_refl eq_refl eq_refl eq_refl)
    as (w' & Hrun & Hgone & _).
  exists w'. split; [exact Hrun | split; [exact Hgone|]]. vm_compute. reflexivity.
Defined.

(** X6. When the removal after a successful linting fails, the issues are
    lost: the catch block takes over, tries the removal again and
    returns the empty list. *)
Theorem lintCode_failed_removal_discards_issues
        (le : lintEnv) (code ext : jsstring) (w : world) (messages : list eslintMessage) :
  le_mkdir le = true -> le_writeFile le = true ->
  le_eslint le = Some messages -> le_rm le = false ->
  exists w',
    lintCode le code ext w = (Returned [], w')
    /\ present (lintTempDir le) w' = negb (le_rmCatch le)
    /\ journal w' = journal w ++
                    [EvMkdir (lintTempDir le);
                     EvWriteFile (Path.join (lintTempDir le) (str "temp" ++ ext));
                     EvLintFiles (Path.join (lintTempDir le) (str "temp" ++ ext));
                     EvRm (lintTempDir le);
                     EvRm (lintTempDir le)].
Proof.
  intros Hmk Hwr Hes Hrm.
  destruct (lintCode_effects le code ext w) as (w' & Hrun & Hj & Hd).
  destruct (lintCode_run le code ext w) as (w1 & Hrun1 & Hleft).
  rewrite Hrun in Hrun1. injection Hrun1 as <-.
  exists w'. split; [|split].
  - rewrite Hrun. unfold lintCodeResult, lintOutput. now rewrite Hmk, Hwr, Hes, Hrm.
  - rewrite Hleft. unfold tempDirLeft. now rewrite Hmk, Hwr, Hes, Hrm.
  - rewrite Hj. unfold lintCalls. now rewrite Hmk, Hwr, Hes, Hrm.
Qed.

Lemma lintCode_failed_removal_discards_issues_witness :
  exists w',
    lintCode stuckLint (str "let a = 1") (str ".js") (mkWorld [] []) = (Returned [], w')
    /\ present (lintTempDir stuckLint) w' = false.
Proof.
  destruct (lintCode_failed_removal_discards_issues stuckLint (str "let a = 1") (str ".js")
              (mkWorld [] []) (messages := twoMessages) eq_refl eq_refl eq_refl eq_refl)
    as (w' & Hrun & Hleft & _).
  exists w'. split; [exact Hrun | exact Hleft].
Defined.

(** X7. Whatever happens, [lintCode] touches no directory but its own, all
    its calls are on that directory or on the file in it, and ESLint is
    only called on a file that was written. *)
Theorem lintCode_keeps_to_its_directory (le : lintEnv) (code ext : jsstring) (w : world) :
  exists r w' calls,
    lintCode le code ext w = (r, w')
    /\ journal w' = journal w ++ calls
    /\ (forall d, d <> lintTempDir le -> lookupDir d w' = lookupDir d w)
    /\ Forall (fun e =>
                 e = EvMkdir (lintTempDir le)
                 \/ e = EvRm (lintTempDir le)
                 \/ e = EvWriteFile (Path.join (lintTempDir le) (str "temp" ++ ext))
                 \/ e = EvLintFiles (Path.join (lintTempDir le) (str "temp" ++ ext)))
              calls
    /\ (forall file, In (EvLintFiles file) calls ->
                     le_mkdir le = true /\ le_writeFile le = true).
Proof.
  destruct (lintCode_effects le code ext w) as (w' & Hrun & Hj & Hd).
  exists (lintCodeResult le), w', (lintCalls le ext).
  split; [exact Hrun | split; [exact Hj | split; [exact Hd | split]]].
  - unfold lintCalls.
    destruct (le_mkdir le), (le_writeFile le), (le_eslint le), (le_rm le);
      repeat (apply Forall_cons;
              [first [ left; reflexivity
                     | right; left; reflexivity
                     | right; right; left; reflexivity
                     | right; right; right; reflexivity ] |]);
      apply Forall_nil.
  - intros file. unfold lintCalls.
    destruct (le_mkdir le), (le_writeFile le), (le_eslint le), (le_rm le);
      cbn [In]; intros H; repeat (destruct H as [H | H]; try discriminate H);
      try (destruct H); split; reflexivity.
Qed.

(** A linter that throws, on a system where everything else works. *)
Lemma lintCode_linter_failure_witness :
  exists w',
    lintCode brokenLinter (str "let a = ") (str ".js") (mkWorld [] []) = (Returned [], w')
    /\ present (lintTempDir brokenLinter) w' = false.
Proof.
  apply (lintCode_linter_failure brokenLinter (str "let a = ") (str ".js") (mkWorld [] []));
    reflexivity.
Defined.

(** ** The fan-out: what the report holds and what is linted *)

Section ReportMoreFacts.
Variable lintOf : jsstring -> lintEnv.

Lemma filter_map_Subsequence {A B} (g : A -> B) (P : A -> bool) (l : list A) :
  Subsequence (map g (filter P l)) (map g l).
Proof.
  induction l as [|a l IH]; cbn [filter map]; [constructor|].
  destruct (P a); cbn [map]; [now apply sub_keep | now apply sub_skip].
Qed.

(** A file that is not linted leaves the world as it is. *)
Lemma analyzeFile_world (filePath content fileExt : jsstring) (r : fanout) (w : world) :
  JsString.arrayIncludes lintable fileExt = false ->
  snd (snd (analyzeFile lintOf filePath content fileExt (r, w))) = w.
Proof.
  intros Hl. unfold analyzeFile. rewrite Hl.
  destruct (Nat.ltb 0 (List.length (scanForSecurityIssues content fileExt)));
    unfold bind, pushSecurity, pushProcessed, update, ret; reflexivity.
Qed.

Lemma forEachEntry_world (files : list (jsstring * jsstring)) :
  (forall f, In f files -> JsString.arrayIncludes lintable (extOf f) = false) ->
  forall r w,
    forEachEntry lintOf files (r, w) = (Returned tt, (fold_left (turn lintOf) files r, w)).
Proof.
  induction files as [|[filePath content] files IH]; intros Hno r w; [reflexivity|].
  destruct (forEachEntry_run lintOf ((filePath, content) :: files) r w) as (w' & Hrun).
  rewrite Hrun. f_equal. f_equal.
  assert (Hw : snd (snd (forEachEntry lintOf ((filePath, content) :: files) (r, w))) = w).
  { cbn [forEachEntry].
    change (JsString.toLowerCase (Path.extname filePath)) with (extOf (filePath, content)).
    assert (Hl : JsString.arrayIncludes lintable (extOf (filePath, content)) = false)
      by (apply Hno; now left).
    unfold bind at 1.
    destruct (JsString.arrayIncludes analyzable (extOf (filePath, content))).
    - unfold tryCatch.
      pose proof (analyzeFile_world filePath content (extOf (filePath, content)) r w Hl) as Hw.
      destruct (analyzeFile lintOf filePath content (extOf (filePath, content)) (r, w))
        as [[u | e] [r1 w1]]; cbn [snd] in Hw; subst w1.
      + rewrite IH by (intros f Hf; apply Hno; now right). reflexivity.
      + unfold ret. rewrite IH by (intros f Hf; apply Hno; now right). reflexivity.
    - unfold ret. rewrite IH by (intros f Hf; apply Hno; now right). reflexivity. }
  rewrite Hrun in Hw. exact Hw.
Qed.

End ReportMoreFacts.

(** X9. The files of [processedFiles] are files of the repository, in their
    order; every issue of the report carries the path of a processed
    file, and every lint issue that of a file whose extension,
    lower-cased, is one of [.js], [.jsx], [.ts] and [.tsx]: the
    comparison is made on the lower-cased extension, so that [A.JS] is
    linted too. *)
Theorem report_issues_belong_to_processed_files
        (lintOf : jsstring -> lintEnv) (files : list (jsstring * jsstring)) (w : world) :
  exists res w',
    processRepositoryFiles lintOf files w = (Returned res, w')
    /\ Subsequence (processedFiles res) (map fst files)
    /\ (forall s, In s (securityIssues res) ->
                  exists path, si_filePath s = Some path /\ In path (processedFiles res))
    /\ (forall i, In i (lintIssues res) ->
                  exists path,
                    li_filePath i = Some path
                    /\ In path (processedFiles res)
                    /\ JsString.arrayIncludes lintable
                         (JsString.toLowerCase (Path.extname path)) = true).
Proof.
  destruct (processRepositoryFiles_run lintOf files w) as (w' & Hrun).
  exists (reportOf lintOf files), w'. split; [exact Hrun | split; [|split]].
  - unfold reportOf. cbn [processedFiles]. apply filter_map_Subsequence.
  - intros s Hs. apply (proj1 (securityIssues_In lintOf files s)) in Hs
      as (f & s0 & Hf & Hc & _ & ->).
    exists (fst f). split; [reflexivity|].
    apply processed_In. exists f. repeat split; assumption.
  - intros i Hi. apply (proj1 (lintIssues_In lintOf files i)) in Hi
      as (f & i0 & Hf & Hc & Hl & _ & ->).
    exists (fst f). split; [reflexivity | split; [|exact Hl]].
    apply processed_In. exists f. repeat split; assumption.
Qed.

(** X10. A repository in which no file has an extension that is,
    lower-cased, one of [.js], [.jsx], [.ts] and [.tsx] is analyzed
    without a single call on the temporary area or to ESLint: Python
    files are scanned, never linted. *)
Theorem fanout_never_lints_python
        (lintOf : jsstring -> lintEnv) (files : list (jsstring * jsstring)) (w : world) :
  (forall f, In f files -> JsString.arrayIncludes lintable (extOf f) = false) ->
  exists res,
    processRepositoryFiles lintOf files w = (Returned res, w)
    /\ lintIssues res = []
    /\ processedFiles res
       = map fst (filter (fun f => JsString.arrayIncludes analyzable (extOf f)) files).
Proof.
  intros Hno. exists (reportOf lintOf files). split; [|split].
  - unfold processRepositoryFiles. rewrite (forEachEntry_world lintOf files Hno).
    now rewrite flatten_turns.
  - unfold reportOf. cbn [lintIssues]. apply flat_map_nil_in. intros f Hf.
    unfold lintIssuesOf. rewrite (Hno f Hf). now rewrite andb_false_r.
  - unfold reportOf. cbn [processedFiles]. f_equal. apply filter_ext_in.
    intros f Hf. unfold completes, lintThrows. rewrite (Hno f Hf). cbn [andb negb].
    now rewrite andb_true_r.
Qed.

Lemma fanout_never_lints_python_witness :
  let files := [(str "app.py", str "import os" ++ [LF] ++ str "os.system(cmd)");
                (str "notes.txt", str "eval(");
                (str "LIB.PY", str "print(1)")] in
  exists res,
    processRepositoryFiles (fun _ => fullVolume) files (mkWorld [] []) = (Returned res, mkWorld [] [])
    /\ lintIssues res = []
    /\ processedFiles res = [str "app.py"; str "LIB.PY"].
Proof.
  intros files.
  destruct (fanout_never_lints_python (fun _ => fullVolume) files (mkWorld [] []))
    as (res & Hrun & Hlint & Hproc).
  - intros f [<- | [<- | [<- | []]]]; vm_compute; reflexivity.
  - exists res. split; [exact Hrun | split; [exact Hlint|]].
    rewrite Hproc. vm_compute. reflexivity.
Defined.

(** ** The handler: its answers and its calls *)

Section HandlerMoreFacts.
Variable env : environment.

Lemma getAIReview_run (code : jsstring) (w : world) :
  getAIReview (openai env) code w
  = (Returned (reviewText env code),
     mkWorld (directories w) (journal w ++ [EvReview code])).
Proof.
  unfold getAIReview, reviewText, bind, record, ret.
  destruct (openai env code); reflexivity.
Qed.

(** The snippet branch never throws: its answer and its calls. *)
Lemma handleSnippet_run (content : jsstring) (w : world) :
  exists w',
    handleSnippet env content w = (Returned (snippetResponse env content), w')
    /\ journal w' = journal w ++ snippetCalls env content
    /\ (unsupportedSnippet (guessFileExtension content) = true -> w' = w).
Proof.
  unfold handleSnippet, snippetResponse, snippetCalls, tryCatch.
  fold (unsupportedSnippet (guessFileExtension content)).
  destruct (unsupportedSnippet (guessFileExtension content)).
  - exists w. unfold ret. rewrite app_nil_r. repeat split.
  - destruct (lintCode_effects (snippetLint env) content (guessFileExtension content) w)
      as (w1 & Hrun & Hj & _).
    unfold bind at 1. rewrite Hrun.
    destruct (lintCodeResult (snippetLint env)) as [lint | e].
    + unfold bind at 1. rewrite getAIReview_run. unfold ret.
      eexists. split; [reflexivity | split; [|discriminate]].
      cbn [journal]. now rewrite Hj, app_assoc.
    + unfold ret. exists w1. split; [reflexivity | split; [|discriminate]].
      now rewrite Hj, app_nil_r.
Qed.

Lemma POST_code (content : jsstring) (w : world) :
  POST env (codeRequest content) w =
  if JsString.eqb content []
  then (Returned (mkResponse 400 (ErrorBody (str "No content provided"))), w)
  else handleSnippet env content w.
Proof.
  unfold POST, codeRequest. cbn [req_content req_type].
  destruct (JsString.eqb content []); [reflexivity|].
  replace (JsString.eqb (str "code") (str "code")) with true by (vm_compute; reflexivity).
  reflexivity.
Qed.

Lemma snippetResponse_status (content : jsstring) :
  let resp := snippetResponse env content in
  isResults (body resp) = Nat.eqb (status resp) 200
  /\ In (status resp) [200; 400; 500]
  /\ (status resp = 400 -> unsupportedSnippet (guessFileExtension content) = true).
Proof.
  unfold snippetResponse.
  destruct (unsupportedSnippet (guessFileExtension content)).
  - cbn. tauto.
  - destruct (lintCodeResult (snippetLint env)); cbn; repeat split; try tauto; discriminate.
Qed.

(** The repository branch behind the substring test: its answer and the
    world it leaves, by the outcome of [processRepository]. *)
Lemma handleRepository_run (content : jsstring) (w : world) :
  JsString.includes content (str "github.com") = true ->
  match processRepository (repoEnvOf env) content w with
  | (Thrown e, w1) =>
      handleRepository env content w
      = (Returned (mkResponse 500
                     (ErrorBody (str "Error processing repository: " ++ e))), w1)
  | (Returned [], w1) =>
      handleRepository env content w
      = (Returned (mkResponse 404
                     (ErrorBody (str "No JavaScript or Python files found in the repository."))),
         w1)
  | (Returned files, w1) =>
      exists w2,
        processRepositoryFiles (fileLint env) files w1
        = (Returned (reportOf (fileLint env) files), w2)
        /\ handleRepository env content w
           = (Returned (mkResponse 200
                (RepositoryBody content (List.length files)
                   (processedFiles (reportOf (fileLint env) files))
                   (lintIssues (reportOf (fileLint env) files))
                   (securityIssues (reportOf (fileLint env) files))
                   (reviewText env (combinedContent files)))),
              mkWorld (directories w2)
                      (journal w2 ++ [EvReview (combinedContent files)]))
  end.
Proof.
  intros Hyes.
  destruct (processRepository (repoEnvOf env) content w) as [[files | e] w1] eqn:Hfetch.
  2:{ unfold handleRepository, tryCatch. rewrite Hyes. cbn [negb].
      unfold bind at 1. rewrite Hfetch. reflexivity. }
  destruct files as [|f files].
  { unfold handleRepository, tryCatch. rewrite Hyes. cbn [negb].
    unfold bind at 1. rewrite Hfetch. reflexivity. }
  set (fs := f :: files) in *.
  destruct (processRepositoryFiles_run (fileLint env) fs w1) as (w2 & Hrun).
  exists w2. split; [exact Hrun|].
  unfold handleRepository, tryCatch. rewrite Hyes. cbn [negb].
  unfold bind at 1. rewrite Hfetch.
  replace (Nat.eqb (List.length fs) 0) with false by reflexivity.
  replace (Nat.ltb 0 (List.length (firstn 3 fs))) with true by reflexivity.
  unfold bind at 1. rewrite Hrun.
  unfold bind at 1. rewrite getAIReview_run. reflexivity.
Qed.

(** The handler never throws; what each status tells. *)
Lemma POST_cases (req : option request) (w : world) :
  exists resp w',
    POST env req w = (Returned resp, w')
    /\ In (status resp) [200; 400; 404; 500]
    /\ (status resp = 400 -> w' = w)
    /\ isResults (body resp) = Nat.eqb (status resp) 200.
Proof.
  destruct req as [r|].
  2:{ eexists _, _. split; [reflexivity|]. cbn. repeat split; try discriminate. tauto. }
  unfold POST.
  destruct (JsString.eqb (req_content r) []).
  { eexists _, _. split; [reflexivity|]. cbn. repeat split; try discriminate. tauto. }
  destruct (JsString.eqb (req_type r) (str "code")).
  { destruct (handleSnippet_run (req_content r) w) as (w' & Hrun & _ & Hsame).
    exists (snippetResponse env (req_content r)), w'. split; [exact Hrun|].
    destruct (snippetResponse_status (req_content r)) as (Hb & Hs & Hu).
    repeat split.
    - cbn in Hs |- *. tauto.
    - intros H4. apply Hsame, Hu, H4.
    - exact Hb. }
  destruct (JsString.eqb (req_type r) (str "repo")).
  2:{ eexists _, _. split; [reflexivity|]. cbn. repeat split; try discriminate. tauto. }
  destruct (JsString.includes (req_content r) (str "github.com")) eqn:Hgate.
  - pose proof (handleRepository_run (req_content r) w Hgate) as Hrun.
    destruct (processRepository (repoEnvOf env) (req_content r) w) as [[files | e] w1].
    + destruct files as [|f files].
      * eexists _, _. split; [exact Hrun|]. cbn. repeat split; try discriminate. tauto.
      * destruct Hrun as (w2 & _ & Hrun).
        eexists _, _. split; [exact Hrun|]. cbn [status body isResults].
        repeat split; try discriminate. cbn; tauto.
    + eexists _, _. split; [exact Hrun|]. cbn [status body isResults].
      repeat split; try discriminate. cbn; tauto.
  - rewrite (handleRepository_rejects env (req_content r) w Hgate).
    eexists _, _. split; [reflexivity|]. cbn. repeat split; try discriminate. tauto.
Qed.

End HandlerMoreFacts.

(** X11. Whatever the request and the system, [POST] answers: no exception
    leaves the handler.  The status is 200, 400, 404 or 500; the body
    carries results exactly when the status is 200, and an answer 400 was
    given without any call on the system. *)
Theorem POST_always_answers (env : environment) (req : option request) (w : world) :
  exists resp w',
    POST env req w = (Returned resp, w')
    /\ In (status resp) [200; 400; 404; 500]
    /\ (status resp = 400 -> w' = w)
    /\ isResults (body resp) = Nat.eqb (status resp) 200.
Proof.
  apply POST_cases.
Qed.

(** X12. A snippet of a supported type that cannot be staged for the linter
    (the directory or the file cannot be written) is answered by 500 with
    the message of the failure behind "Failed to analyze code: "; neither
    ESLint nor the review service has been called, and the findings of
    the scan are not reported. *)
Theorem snippet_staging_failure_answers_500
        (env : environment) (content : jsstring) (w : world) :
  content <> [] ->
  unsupportedSnippet (guessFileExtension content) = false ->
  le_mkdir (snippetLint env) && le_writeFile (snippetLint env) = false ->
  exists e w',
    POST env (codeRequest content) w
    = (Returned (mkResponse 500 (ErrorBody (str "Failed to analyze code: " ++ e))), w')
    /\ forall ev, In ev (journal w') ->
                  In ev (journal w)
                  \/ ev = EvMkdir (lintTempDir (snippetLint env))
                  \/ exists file, ev = EvWriteFile file.
Proof.
  intros Hne Hsup Hstage. rewrite POST_code.
  apply eqb_neq in Hne. rewrite Hne.
  destruct (handleSnippet_run env content w) as (w' & Hrun & Hj & _).
  unfold snippetResponse, snippetCalls in Hrun, Hj. rewrite Hsup in Hrun, Hj.
  unfold lintCodeResult, lintCalls in Hrun, Hj.
  destruct (le_mkdir (snippetLint env)); cbn [negb] in Hrun, Hj.
  - cbn [andb] in Hstage. rewrite Hstage in Hrun, Hj. cbn [negb] in Hrun, Hj.
    eexists _, w'. split; [exact Hrun|].
    intros ev Hev. rewrite Hj in Hev.
    apply in_app_or in Hev. destruct Hev as [Hev | Hev]; [now left|].
    rewrite app_nil_r in Hev.
    destruct Hev as [<- | [<- | []]]; [right; left; reflexivity | right; right; eauto].
  - eexists _, w'. split; [exact Hrun|].
    intros ev Hev. rewrite Hj in Hev.
    apply in_app_or in Hev. destruct Hev as [Hev | Hev]; [now left|].
    rewrite app_nil_r in Hev.
    destruct Hev as [<- | []]. right; left; reflexivity.
Qed.

Lemma snippet_staging_failure_answers_500_witness :
  exists e w',
    POST sampleEnvironment (codeRequest (str "let a = eval(b);")) (mkWorld [] [])
    = (Returned (mkResponse 500 (ErrorBody (str "Failed to analyze code: " ++ e))), w')
    /\ forall ev, In ev (journal w') ->
                  In ev (journal (mkWorld [] []))
                  \/ ev = EvMkdir (lintTempDir (snippetLint sampleEnvironment))
                  \/ exists file, ev = EvWriteFile file.
Proof.
  apply (@snippet_staging_failure_answers_500
           sampleEnvironment (str "let a = eval(b);") (mkWorld [] [])).
  - discriminate.
  - vm_compute. reflexivity.
  - vm_compute. reflexivity.
Defined.

(** X13. A snippet of a supported type that can be staged is answered by 200,
    whatever ESLint and the removal of the directory do: the answer
    carries what [lintCode] returned (nothing when ESLint or the removal
    failed), the findings of the scan on the guessed type, and the text
    of the review, empty when the service failed.  The review is asked
    once, on the snippet itself, after the linting. *)
Theorem snippet_answer (env : environment) (content : jsstring) (w : world) :
  content <> [] ->
  unsupportedSnippet (guessFileExtension content) = false ->
  le_mkdir (snippetLint env) = true ->
  le_writeFile (snippetLint env) = true ->
  exists w',
    POST env (codeRequest content) w
    = (Returned (mkResponse 200
         (SnippetBody (lintOutput (snippetLint env))
                      (scanForSecurityIssues content (guessFileExtension content))
                      (reviewText env content))), w')
    /\ journal w'
       = journal w ++ lintCalls (snippetLint env) (guessFileExtension content)
                   ++ [EvReview content].
Proof.
  intros Hne Hsup Hmk Hwr. rewrite POST_code.
  apply eqb_neq in Hne. rewrite Hne.
  destruct (handleSnippet_run env content w) as (w' & Hrun & Hj & _).
  unfold snippetResponse, snippetCalls in Hrun, Hj. rewrite Hsup in Hrun, Hj.
  unfold lintCodeResult in Hrun, Hj. rewrite Hmk, Hwr in Hrun, Hj.
  cbn [negb] in Hrun, Hj.
  exists w'. split; [exact Hrun | exact Hj].
Qed.

Lemma snippet_answer_witness :
  exists w',
    POST workingEnvironment (codeRequest (str "let a = eval(b)")) (mkWorld [] [])
    = (Returned (mkResponse 200
         (SnippetBody (map formatMessage twoMessages)
                      [mkSecurityIssue (str "Dangerous use of eval()")
                         (str "The eval() function can execute arbitrary code, posing a security risk.")
                         (str "Line 1") None]
                      (Some (str "Looks fine.")))), w')
    /\ journal w'
       = [EvMkdir (str "/tmp/code-review-0003");
          EvWriteFile (str "/tmp/code-review-0003/temp.js");
          EvLintFiles (str "/tmp/code-review-0003/temp.js");
          EvRm (str "/tmp/code-review-0003");
          EvReview (str "let a = eval(b)")].
Proof.
  destruct (@snippet_answer workingEnvironment (str "let a = eval(b)") (mkWorld [] []))
    as (w' & Hrun & Hj); try reflexivity; try discriminate.
  exists w'. split.
  - rewrite Hrun. vm_compute. reflexivity.
  - rewrite Hj. vm_compute. reflexivity.
Defined.



(** X15. The review changes nothing but its own field: with another review
    service the handler gives the same status, the same body up to the
    text of the review, and leaves the same directories. *)
Theorem review_changes_only_its_field
        (env : environment) (service : jsstring -> option (option jsstring))
        (req : option request) (w : world) :
  exists r1 w1 r2 w2,
    POST env req w = (Returned r1, w1)
    /\ POST (withReview env service) req w = (Returned r2, w2)
    /\ status r1 = status r2
    /\ withoutReview (body r1) = withoutReview (body r2)
    /\ directories w1 = directories w2.
Proof.
  destruct req as [r|].
  2:{ eexists _, _, _, _. repeat split. }
  unfold POST.
  destruct (JsString.eqb (req_content r) []).
  { eexists _, _, _, _. repeat split. }
  destruct (JsString.eqb (req_type r) (str "code")).
  { unfold handleSnippet, tryCatch.
    fold (unsupportedSnippet (guessFileExtension (req_content r))).
    destruct (unsupportedSnippet (guessFileExtension (req_content r))).
    { eexists _, _, _, _. repeat split. }
    unfold bind at 1. unfold bind at 2. cbn [snippetLint withReview].
    destruct (lintCode (snippetLint env) (req_content r)
                       (guessFileExtension (req_content r)) w) as [[lint | e] w1].
    - unfold bind. rewrite (getAIReview_run env), (getAIReview_run (withReview env service)).
      eexists _, _, _, _. repeat split.
    - eexists _, _, _, _. repeat split. }
  destruct (JsString.eqb (req_type r) (str "repo")).
  2:{ eexists _, _, _, _. repeat split. }
  destruct (JsString.includes (req_content r) (str "github.com")) eqn:Hgate.
  - pose proof (handleRepository_run env (req_content r) w Hgate) as H1.
    pose proof (handleRepository_run (withReview env service) (req_content r) w Hgate) as H2.
    cbn [repoEnvOf fileLint withReview] in H2.
    destruct (processRepository (repoEnvOf env) (req_content r) w) as [[files | e] w1].
    + destruct files as [|f files].
      * eexists _, _, _, _. split; [exact H1 | split; [exact H2|]]. repeat split.
      * destruct H1 as (w2 & Hrun1 & H1). destruct H2 as (w2' & Hrun2 & H2).
        rewrite Hrun1 in Hrun2. injection Hrun2 as <-.
        eexists _, _, _, _. split; [exact H1 | split; [exact H2|]]. repeat split.
    + eexists _, _, _, _. split; [exact H1 | split; [exact H2|]]. repeat split.
  - rewrite (handleRepository_rejects env (req_content r) w Hgate).
    rewrite (handleRepository_rejects (withReview env service) (req_content r) w Hgate).
    eexists _, _, _, _. repeat split.
Qed.

(** X16. A repository whose fetch gives at least one file is answered by 200
    with the report of the fan-out over all the files.  The review is
    always asked in that case, once, after the fan-out, on the first
    three files only, and the answer carries what [getAIReview]
    returned: the content of the service's answer as it is, [null] when
    the service answered without content, the empty string when the
    call failed. *)
Theorem repository_answer (env : environment) (content : jsstring)
        (files : list (jsstring * jsstring)) (w w1 : world) :
  JsString.includes content (str "github.com") = true ->
  processRepository (repoEnvOf env) content w = (Returned files, w1) ->
  files <> [] ->
  exists w2,
    processRepositoryFiles (fileLint env) files w1
    = (Returned (reportOf (fileLint env) files), w2)
    /\ POST env (repoRequest content) w
       = (Returned (mkResponse 200
            (RepositoryBody content (List.length files)
               (map fst (filter (completes (fileLint env)) files))
               (lintIssues (reportOf (fileLint env) files))
               (securityIssues (reportOf (fileLint env) files))
               (reviewText env (combinedContent (firstn 3 files))))),
          mkWorld (directories w2)
                  (journal w2 ++ [EvReview (combinedContent (firstn 3 files))])).
Proof.
  intros Hyes Hfetch Hne. rewrite POST_repo.
  assert (Hcontent : JsString.eqb content [] = false).
  { apply eqb_neq. intros ->. vm_compute in Hyes. discriminate. }
  rewrite Hcontent.
  pose proof (handleRepository_run env content w Hyes) as Hrun.
  rewrite Hfetch in Hrun.
  destruct files as [|f files]; [contradiction|].
  destruct Hrun as (w2 & Hfan & Hrun). exists w2. split; [exact Hfan|].
  rewrite Hrun.
  assert (Hfirst : combinedContent (firstn 3 (f :: files)) = combinedContent (f :: files)).
  { unfold combinedContent. now rewrite firstn_firstn. }
  rewrite Hfirst. reflexivity.
Qed.

(** The sample checkout on a system whose review service answers
    without content: both collected files are processed, the review is
    asked on the two of them, and the answer carries [null]. *)
Lemma repository_answer_witness :
  let files := [(str "a.js", str "let a = 1;"); (str "src/B.PY", str "print(1)")] in
  exists w2 lint,
    POST emptyReviewEnvironment (repoRequest sampleUrl) (mkWorld [] [])
    = (Returned (mkResponse 200
         (RepositoryBody sampleUrl 2 [str "a.js"; str "src/B.PY"] lint [] None)),
       mkWorld (directories w2) (journal w2 ++ [EvReview (combinedContent files)])).
Proof.
  intros files.
  destruct (@repository_answer emptyReviewEnvironment sampleUrl files (mkWorld [] [])
              (mkWorld [] [EvMkdir (str "/tmp/github-owner-repo-0002");
                           EvClone sampleUrl (str "/tmp/github-owner-repo-0002");
                           EvReaddir (str "/tmp/github-owner-repo-0002");
                           EvReaddir (str "/tmp/github-owner-repo-0002/src");
                           EvReadFile (str "/tmp/github-owner-repo-0002/a.js");
                           EvReadFile (str "/tmp/github-owner-repo-0002/src/B.PY");
                           EvRm (str "/tmp/github-owner-repo-0002")]))
    as (w2 & _ & Hrun).
  - vm_compute. reflexivity.
  - vm_compute. reflexivity.
  - discriminate.
  - exists w2, (lintIssues (reportOf (fileLint emptyReviewEnvironment) files)).
    rewrite Hrun. vm_compute. reflexivity.
Defined.

(** ** The GitHub processor: addresses, the checkout and its removal *)

Section ProcessorFacts.

Lemma split_pieces_free (c : N) (s piece : jsstring) :
  In piece (JsString.split c s) -> ~ In c piece.
Proof.
  revert piece. induction s as [|x s IH]; intros piece Hin.
  - cbn in Hin. destruct Hin as [<- | []]. intros [].
  - cbn [JsString.split] in Hin. destruct (N.eqb x c) eqn:Ex.
    + destruct Hin as [<- | Hin]; [intros [] | now apply IH].
    + apply N.eqb_neq in Ex.
      destruct (JsString.split c s) as [|p ps] eqn:Es.
      * destruct Hin as [<- | []]. intros [E | []]. congruence.
      * destruct Hin as [<- | Hin].
        -- intros [E | Hc]; [congruence|]. apply (IH p); [now left | exact Hc].
        -- apply IH. now right.
Qed.

Lemma pathParts_In (pathname part : jsstring) :
  In part (pathParts pathname) -> part <> [] /\ ~ In SLASH part.
Proof.
  unfold pathParts. intros Hin. apply filter_In in Hin as [Hin Hne]. split.
  - apply eqb_neq. now apply negb_true_iff.
  - now apply split_pieces_free with (s := pathname).
Qed.

Lemma gitClone_ok re url dir tree w :
  re_clone re = Some tree ->
  exists w',
    gitClone re url dir w = (Returned tt, w')
    /\ Extends dir [EvClone url dir] w w'
    /\ lookupDir dir w' = Some tree.
Proof.
  intros Hc. unfold gitClone, bind, record. rewrite Hc. eexists. repeat split.
  - intros d Hd. now rewrite lookupDir_setDir_other.
  - apply lookupDir_setDir.
Qed.

Lemma gitClone_fails re url dir w :
  re_clone re = None ->
  exists w',
    gitClone re url dir w = (Thrown (str "git clone failed"), w')
    /\ Extends dir [EvClone url dir] w w'
    /\ directories w' = directories w.
Proof.
  intros Hc. unfold gitClone, bind, record, throw. rewrite Hc. eexists. repeat split.
Qed.

(** The removal in a [catch] or [finally] block, whose own failure is
    caught. *)
Lemma rm_caught (ok : bool) dir w :
  exists w',
    tryCatch (rm ok dir) (fun _ => ret tt) w = (Returned tt, w')
    /\ Extends dir [EvRm dir] w w'
    /\ (ok = true -> present dir w' = false)
    /\ (ok = false -> directories w' = directories w).
Proof.
  unfold tryCatch. destruct ok.
  - destruct (rm_ok dir w) as (w' & Hrun & Hext & Hd). rewrite Hrun.
    exists w'. repeat split; [apply Hext | apply Hext | | discriminate].
    intros _. rewrite (present_directories dir _ _ Hd). apply present_removeDir.
  - destruct (rm_fails dir w) as (w' & Hrun & Hext & Hd). rewrite Hrun.
    exists w'. repeat split; [apply Hext | apply Hext | discriminate | now intros _].
Qed.

Lemma lookupDir_directories dir w w' :
  directories w' = directories w -> lookupDir dir w' = lookupDir dir w.
Proof. unfold lookupDir. now intros ->. Qed.

(** [cloneRepository] on an address that parses. *)
Lemma cloneRepository_run (re : repoEnv) (url owner repo : jsstring) (w : world) :
  parseGitHubUrl (re_URL re) url = Returned (owner, repo) ->
  let dir := cloneDir re owner repo in
  exists w',
    cloneRepository re url w = (cloneResult re dir, w')
    /\ Extends dir (cloneCalls re url dir) w w'
    /\ (forall tree, re_mkdir re = true -> re_clone re = Some tree ->
                     lookupDir dir w' = Some tree)
    /\ (cloneResult re dir <> Returned dir ->
        re_rmCatch re = true -> present dir w' = false).
Proof.
  intros Hparse dir. unfold cloneRepository, lift.
  unfold bind at 1. rewrite Hparse. fold (cloneDir re owner repo). fold dir.
  unfold cloneResult, cloneCalls. unfold tryCatch at 1.
  destruct (re_mkdir re).
  - destruct (mkdir_ok dir w) as (w1 & H1 & E1 & P1).
    unfold bind at 1. rewrite H1.
    destruct (re_clone re) as [tree|] eqn:Hclone.
    + destruct (gitClone_ok re url dir w1 Hclone) as (w2 & H2 & E2 & L2).
      unfold bind at 1. rewrite H2. unfold ret.
      exists w2. repeat split.
      * rewrite (proj1 E2), (proj1 E1), <- app_assoc. reflexivity.
      * intros d Hd. rewrite (proj2 E2 d Hd). now apply E1.
      * intros tree' _ E. now injection E as <-.
      * intros Hno. now contradiction Hno.
    + destruct (gitClone_fails re url dir w1 Hclone) as (w2 & H2 & E2 & D2).
      unfold bind at 1. rewrite H2.
      destruct (rm_caught (re_rmCatch re) dir w2) as (w3 & H3 & E3 & P3 & _).
      unfold bind at 1. rewrite H3. unfold throw.
      exists w3. repeat split.
      * rewrite (proj1 E3), (proj1 E2), (proj1 E1), <- !app_assoc. reflexivity.
      * intros d Hd. rewrite (proj2 E3 d Hd), (proj2 E2 d Hd). now apply E1.
      * discriminate.
      * intros _. exact P3.
  - destruct (mkdir_fails dir w) as (w1 & H1 & E1 & D1).
    unfold bind at 1. rewrite H1.
    destruct (rm_caught (re_rmCatch re) dir w1) as (w3 & H3 & E3 & P3 & _).
    unfold bind at 1. rewrite H3. unfold throw.
    exists w3. repeat split.
    + rewrite (proj1 E3), (proj1 E1), <- !app_assoc. reflexivity.
    + intros d Hd. rewrite (proj2 E3 d Hd). now apply E1.
    + discriminate.
    + intros _. exact P3.
Qed.








End ProcessorFacts.

(** X17. [parseGitHubUrl] returns the first two non-empty segments of the
    path of an address whose host contains [github.com]; neither is
    empty or contains a slash, and what follows them is ignored.  Every
    failure, that of [new URL] included, is thrown behind "Invalid
    GitHub URL: ". *)
Theorem parseGitHubUrl_result (URL : jsstring -> option parsedUrl) (url : jsstring) :
  match parseGitHubUrl URL url with
  | Returned (owner, repo) =>
      exists parsed rest,
        URL url = Some parsed
        /\ JsString.includes (hostname parsed) (str "github.com") = true
        /\ pathParts (pathname parsed) = owner :: repo :: rest
        /\ owner <> [] /\ repo <> []
        /\ ~ In SLASH owner /\ ~ In SLASH repo
  | Thrown e =>
      JsString.startsWith (str "Invalid GitHub URL: ") e = true
      /\ (URL url = None
          \/ exists parsed,
               URL url = Some parsed
               /\ (JsString.includes (hostname parsed) (str "github.com") = false
                   \/ List.length (pathParts (pathname parsed)) < 2))
  end.
Proof.
  unfold parseGitHubUrl.
  destruct (URL url) as [parsed|].
  2:{ split; [vm_compute; reflexivity | now left]. }
  destruct (JsString.includes (hostname parsed) (str "github.com")) eqn:Hhost; cbn [negb].
  2:{ split; [vm_compute; reflexivity | right]. exists parsed.
      split; [reflexivity | left; exact Hhost]. }
  destruct (pathParts (pathname parsed)) as [|owner [|repo rest]] eqn:Hparts.
  - split; [vm_compute; reflexivity | right]. exists parsed.
    split; [reflexivity | right]. rewrite Hparts. cbn. lia.
  - split; [vm_compute; reflexivity | right]. exists parsed.
    split; [reflexivity | right]. rewrite Hparts. cbn. lia.
  - exists parsed, rest. split; [reflexivity | split; [exact Hhost | split; [exact Hparts|]]].
    assert (Ho : In owner (pathParts (pathname parsed))) by (rewrite Hparts; now left).
    assert (Hr : In repo (pathParts (pathname parsed)))
      by (rewrite Hparts; right; now left).
    apply pathParts_In in Ho. apply pathParts_In in Hr. tauto.
Qed.

(** X18. An address that [parseGitHubUrl] refuses makes [processRepository]
    throw before anything is called: no directory is made, nothing is
    cloned or removed.  When the address has passed the substring test
    of the handler, the answer is 500 and its message carries the prefix
    "Error processing repository: " twice. *)
Theorem refused_address_touches_nothing
        (env : environment) (content e : jsstring) (w : world) :
  parseGitHubUrl (re_URL (repoEnvOf env)) content = Thrown e ->
  JsString.includes content (str "github.com") = true ->
  processRepository (repoEnvOf env) content w
  = (Thrown (str "Error processing repository: " ++ e), w)
  /\ POST env (repoRequest content) w
     = (Returned (mkResponse 500
          (ErrorBody (str "Error processing repository: "
                      ++ str "Error processing repository: " ++ e))), w).
Proof.
  intros Hparse Hyes.
  assert (Hrun : processRepository (repoEnvOf env) content w
                 = (Thrown (str "Error processing repository: " ++ e), w)).
  { unfold processRepository, cloneRepository, lift. unfold bind at 1.
    rewrite Hparse. reflexivity. }
  split; [exact Hrun|].
  rewrite POST_repo.
  assert (Hcontent : JsString.eqb content [] = false).
  { apply eqb_neq. intros ->. vm_compute in Hyes. discriminate. }
  rewrite Hcontent.
  pose proof (handleRepository_run env content w Hyes) as H.
  rewrite Hrun in H. rewrite H. reflexivity.
Qed.

Lemma refused_address_touches_nothing_witness :
  processRepository (repoEnvOf pathOnlyEnvironment) pathOnlyUrl (mkWorld [] [])
  = (Thrown (str "Error processing repository: Invalid GitHub URL: Not a GitHub URL"),
     mkWorld [] [])
  /\ POST pathOnlyEnvironment (repoRequest pathOnlyUrl) (mkWorld [] [])
     = (Returned (mkResponse 500
          (ErrorBody (str "Error processing repository: Error processing repository: Invalid GitHub URL: Not a GitHub URL"))),
        mkWorld [] []).
Proof.
  apply (@refused_address_touches_nothing pathOnlyEnvironment pathOnlyUrl
           (str "Invalid GitHub URL: Not a GitHub URL") (mkWorld [] [])).
  - vm_compute. reflexivity.
  - vm_compute. reflexivity.
Defined.

(** X19. When the directory cannot be made or the clone fails,
    [processRepository] throws behind "Error processing repository:
    Failed to clone repository: "; the directory is removed once, by
    [cloneRepository] and not again by the [finally] block, so that it
    is gone when that removal works; no other directory is touched and
    nothing is read. *)
Theorem failed_clone_is_cleaned_up
        (re : repoEnv) (url owner repo : jsstring) (w : world) :
  parseGitHubUrl (re_URL re) url = Returned (owner, repo) ->
  re_mkdir re = false \/ re_clone re = None ->
  let dir := cloneDir re owner repo in
  exists e w',
    processRepository re url w
    = (Thrown (str "Error processing repository: "
               ++ str "Failed to clone repository: " ++ e), w')
    /\ journal w'
       = journal w ++ EvMkdir dir
                   :: (if re_mkdir re then [EvClone url dir] else []) ++ [EvRm dir]
    /\ (forall d, d <> dir -> lookupDir d w' = lookupDir d w)
    /\ (re_rmCatch re = true -> present dir w' = false).
Proof.
  intros Hparse Hfail dir.
  destruct (cloneRepository_run re url w Hparse) as (w' & Hrun & [Hj Hd] & _ & Hgone).
  fold dir in Hrun, Hj, Hd, Hgone.
  unfold processRepository. rewrite Hrun.
  unfold cloneResult, cloneCalls in *.
  destruct (re_mkdir re).
  - destruct Hfail as [Hfail | Hfail]; [discriminate|].
    rewrite Hfail in *. eexists _, w'. split; [reflexivity|].
    split; [exact Hj | split; [exact Hd|]].
    apply Hgone. discriminate.
  - eexists _, w'. split; [reflexivity|].
    split; [exact Hj | split; [exact Hd|]].
    apply Hgone. discriminate.
Qed.

Lemma failed_clone_is_cleaned_up_witness :
  exists e w',
    processRepository (repoEnvOf lookalikeEnvironment) lookalikeUrl (mkWorld [] [])
    = (Thrown (str "Error processing repository: "
               ++ str "Failed to clone repository: " ++ e), w')
    /\ journal w' = [EvMkdir (str "/tmp/github-a-b-0002");
                     EvClone lookalikeUrl (str "/tmp/github-a-b-0002");
                     EvRm (str "/tmp/github-a-b-0002")]
    /\ present (str "/tmp/github-a-b-0002") w' = false.
Proof.
  destruct (@failed_clone_is_cleaned_up (repoEnvOf lookalikeEnvironment) lookalikeUrl
              (str "a") (str "b") (mkWorld [] []))
    as (e & w' & Hrun & Hj & _ & Hgone).
  - vm_compute. reflexivity.
  - right. reflexivity.
  - exists e, w'. split; [exact Hrun | split; [exact Hj|]].
    apply Hgone. reflexivity.
Defined.




(** ** The page: the gutter of the editor and the submission *)

Section PageFacts.

Lemma split_app_free (c : N) (p s : jsstring) :
  ~ In c p -> JsString.split c (p ++ c :: s) = p :: JsString.split c s.
Proof.
  induction p as [|x p IH]; intros Hfree.
  - cbn [app JsString.split]. now rewrite N.eqb_refl.
  - cbn [app JsString.split].
    destruct (N.eqb x c) eqn:E.
    + apply N.eqb_eq in E. subst x. contradiction Hfree. now left.
    + rewrite IH; [reflexivity|]. intros Hin. apply Hfree. now right.
Qed.

Lemma split_free (c : N) (p : jsstring) :
  ~ In c p -> JsString.split c p = [p].
Proof.
  induction p as [|x p IH]; intros Hfree; [reflexivity|].
  cbn [JsString.split].
  destruct (N.eqb x c) eqn:E.
  - apply N.eqb_eq in E. subst x. contradiction Hfree. now left.
  - rewrite IH; [reflexivity|]. intros Hin. apply Hfree. now right.
Qed.

(** Joining pieces without the separator, then splitting, gives the
    pieces back. *)
Lemma split_join (c : N) (pieces : list jsstring) :
  pieces <> [] ->
  Forall (fun p => ~ In c p) pieces ->
  JsString.split c (JsString.join [c] pieces) = pieces.
Proof.
  induction pieces as [|p rest IH]; intros Hne Hfree; [contradiction|].
  inversion Hfree as [|? ? Hp Hrest]; subst.
  destruct rest as [|q rest].
  - cbn [JsString.join]. now apply split_free.
  - change (JsString.join [c] (p :: q :: rest))
      with (p ++ c :: JsString.join [c] (q :: rest)).
    rewrite split_app_free by exact Hp.
    rewrite IH; [reflexivity | discriminate | exact Hrest].
Qed.

Lemma digits_decimal (d : Decimal.uint) (x : N) :
  In x (JsString.digits d) -> (48 <= x <= 57)%N.
Proof.
  induction d; cbn [JsString.digits In]; intros H;
    try (destruct H as [<- | H]; [lia | now apply IHd]).
  contradiction.
Qed.

Lemma ofNat_one_line (n : nat) : ~ In LF (JsString.ofNat n).
Proof.
  intros H. apply digits_decimal in H. unfold LF in H. lia.
Qed.

Lemma responseOk_200 (r : response) :
  In (status r) [200; 400; 404; 500] ->
  responseOk r = Nat.eqb (status r) 200.
Proof.
  unfold responseOk.
  intros [<- | [<- | [<- | [<- | []]]]]; reflexivity.
Qed.

End PageFacts.

(** X24. The gutter of the editor numbers every line of the text: its lines
    are the numbers from one to the number of lines of the text, which
    is one more than the number of newlines, and it has as many lines as
    the text. *)
Theorem gutter_numbers_every_line (value : jsstring) :
  lineCount value = S (count_occ N.eq_dec value LF)
  /\ JsString.split LF (lineNumbers value)
     = map JsString.ofNat (seq 1 (lineCount value))
  /\ lineCount (lineNumbers value) = lineCount value.
Proof.
  assert (Hcount : lineCount value = S (count_occ N.eq_dec value LF))
    by apply split_length.
  assert (Hmap : map (fun i => JsString.ofNat (i + 1)) (seq 0 (lineCount value))
                 = map JsString.ofNat (seq 1 (lineCount value))).
  { rewrite <- seq_shift, map_map. apply map_ext. intros i. now rewrite Nat.add_1_r. }
  assert (Hsplit : JsString.split LF (lineNumbers value)
                   = map JsString.ofNat (seq 1 (lineCount value))).
  { unfold lineNumbers. rewrite Hmap. apply split_join.
    - rewrite Hcount. discriminate.
    - apply Forall_forall. intros p Hp. apply in_map_iff in Hp as (n & <- & _).
      apply ofNat_one_line. }
  split; [exact Hcount | split; [exact Hsplit|]].
  unfold lineCount at 1. rewrite Hsplit. now rewrite length_map, length_seq.
Qed.

(** X25. What a submission leaves on the page.  Without input no request is
    made and only the error changes.  Otherwise the page is no longer
    loading, and it shows either the de-duplicated results of the answer
    and no error, or an error that is not empty next to the results of
    the submission before, which stay on display.  The inputs and the
    input type are never changed. *)
Theorem handleSubmit_outcomes (fetch : request -> outcome response) (st : pageState) :
  let st' := handleSubmit fetch st in
  inputType st' = inputType st
  /\ codeInput st' = codeInput st
  /\ repoInput st' = repoInput st
  /\ (getCurrentInput st = [] ->
      st' = setError (str "Please enter code or a GitHub repository URL") st)
  /\ (getCurrentInput st <> [] ->
      isLoading st' = false
      /\ ((pageError st' = []
           /\ exists r data,
                fetch (mkRequest (kindName (inputType st)) (getCurrentInput st)) = Returned r
                /\ responseOk r = true
                /\ showData (body r) = Returned data
                /\ pageResults st' = Some data)
          \/ (pageError st' <> [] /\ pageResults st' = pageResults st))).
Proof.
  unfold handleSubmit. cbv zeta.
  destruct (JsString.eqb (getCurrentInput st) []) eqn:Hempty.
  - apply eqb_eq in Hempty.
    split; [reflexivity | split; [reflexivity | split; [reflexivity | split]]].
    + intros _. reflexivity.
    + intros Hne. contradiction.
  - apply eqb_neq in Hempty.
    assert (Hmsg : forall e, (if JsString.eqb e []
                              then str "An error occurred during code analysis"
                              else e) <> []).
    { intros e. destruct (JsString.eqb e []) eqn:E; [discriminate | now apply eqb_neq]. }
    destruct (fetch (mkRequest (kindName (inputType st)) (getCurrentInput st)))
      as [r | e].
    + destruct (responseOk r) eqn:Hok; cbn [negb].
      * destruct (showData (body r)) as [data | e] eqn:Hshow.
        -- split; [reflexivity | split; [reflexivity | split; [reflexivity | split]]];
             [intros E; contradiction|].
           intros _. split; [reflexivity|].
           left. split; [reflexivity|]. now exists r, data.
        -- split; [reflexivity | split; [reflexivity | split; [reflexivity | split]]];
             [intros E; contradiction|].
           intros _. split; [reflexivity|].
           right. split; [apply Hmsg | reflexivity].
      * split; [reflexivity | split; [reflexivity | split; [reflexivity | split]]];
          [intros E; contradiction|].
        intros _. split; [reflexivity|].
        right. split; [discriminate | reflexivity].
    + split; [reflexivity | split; [reflexivity | split; [reflexivity | split]]];
        [intros E; contradiction|].
      intros _. split; [reflexivity|].
      right. split; [apply Hmsg | reflexivity].
Qed.

(** X26. The page in front of the handler.  A submission with input is always
    answered; the page shows results exactly when the status is 200, and
    then the two [reduce] passes do not throw.  Every other answer, 400,
    404 or 500, is shown as the same fixed message: the error text of
    the server never reaches the page. *)
Theorem page_shows_server_answer (env : environment) (w : world) (st : pageState) :
  getCurrentInput st <> [] ->
  let st' := handleSubmit (serverFetch env w) st in
  exists resp w',
    POST env (Some (mkRequest (kindName (inputType st)) (getCurrentInput st))) w
    = (Returned resp, w')
    /\ isLoading st' = false
    /\ (status resp = 200 ->
        exists data,
          showData (body resp) = Returned data
          /\ pageResults st' = Some data
          /\ pageError st' = [])
    /\ (status resp <> 200 ->
        pageResults st' = pageResults st
        /\ pageError st'
           = str "Failed to analyze code please check the code or link and try again").
Proof.
  intros Hne st'. subst st'. unfold handleSubmit, serverFetch.
  apply eqb_neq in Hne. rewrite Hne.
  destruct (POST_cases env
              (Some (mkRequest (kindName (inputType st)) (getCurrentInput st))) w)
    as (resp & w' & Hrun & Hstatus & _ & Hbody).
  exists resp, w'. split; [exact Hrun|]. rewrite Hrun. cbn [fst].
  rewrite (responseOk_200 resp Hstatus).
  destruct (Nat.eqb (status resp) 200) eqn:H200; cbn [negb].
  - apply Nat.eqb_eq in H200.
    destruct (body resp) as [e | lint security ai | url n processed lint security ai];
      [discriminate Hbody | |]; cbn [showData].
    + split; [reflexivity|]. split; [|intros H; contradiction].
      intros _. eexists. repeat split.
    + split; [reflexivity|]. split; [|intros H; contradiction].
      intros _. eexists. repeat split.
  - apply Nat.eqb_neq in H200.
    split; [reflexivity|]. split; [intros H; contradiction|].
    intros _. split; reflexivity.
Qed.

Lemma page_shows_server_answer_witness :
  let st := mkPage RepoInput [] notGithubUrl false None [] in
  let st' := handleSubmit (serverFetch workingEnvironment (mkWorld [] [])) st in
  pageResults st' = None
  /\ pageError st'
     = str "Failed to analyze code please check the code or link and try again".
Proof.
  intros st st'.
  destruct (@page_shows_server_answer workingEnvironment (mkWorld [] []) st)
    as (resp & w' & Hrun & _ & _ & Hfail).
  - discriminate.
  - apply Hfail. vm_compute in Hrun. injection Hrun as <- _. discriminate.
Defined.

(** ** The guess of the file type *)

Section GuessFacts.

Lemma map_NoDup_inj {A B : Type} (f : A -> B) (l : list A) (x y : A) :
  NoDup (map f l) -> In x l -> In y l -> f x = f y -> x = y.
Proof.
  induction l as [|a l IH]; cbn [map]; intros Hnd Hx Hy E; [contradiction|].
  inversion Hnd as [|? ? Hnot Hnd']; subst.
  destruct Hx as [-> | Hx], Hy as [-> | Hy].
  - reflexivity.
  - contradiction Hnot. rewrite E. now apply in_map.
  - contradiction Hnot. rewrite <- E. now apply in_map.
  - now apply IH.
Qed.

Lemma finding_title (code : jsstring) (p : securityPattern) (f : securityIssue) :
  In f (findingsOf code p) -> title f = sp_title p.
Proof.
  unfold findingsOf. intros Hin. apply in_map_iff in Hin as (m & <- & _). reflexivity.
Qed.

(** The entries of the catalog that apply to [jsx] or [tsx] files apply
    to [js] files. *)
Lemma catalog_javascript_alike (p : securityPattern) :
  In p securityPatterns ->
  applies (str "jsx") p = applies (str "js") p
  /\ applies (str "tsx") p = applies (str "js") p.
Proof.
  intros Hp.
  assert (Hall : forallb (fun p => Bool.eqb (applies (str "jsx") p) (applies (str "js") p)
                                   && Bool.eqb (applies (str "tsx") p) (applies (str "js") p))
                         securityPatterns = true)
    by (vm_compute; reflexivity).
  rewrite forallb_forall in Hall. specialize (Hall p Hp).
  apply andb_true_iff in Hall as [H1 H2].
  split; now apply Bool.eqb_prop.
Qed.

(** The three outcomes of the first two tests. *)
Lemma guess_javascript (code : jsstring) :
  javascriptWords code = true ->
  guessFileExtension code = str ".tsx"
  \/ guessFileExtension code = str ".jsx"
  \/ guessFileExtension code = str ".js".
Proof.
  intros Hwords. unfold guessFileExtension. fold (javascriptWords code).
  rewrite Hwords.
  destruct (includesLit code "import React"
            || includesLit code "class" && includesLit code "extends React.Component"
            || includesLit code "ReactDOM.render").
  - destruct (includesLit code "tsx"); tauto.
  - tauto.
Qed.

End GuessFacts.


(** X23. Code in which one of the five JavaScript words occurs is scanned as
    JavaScript, whatever else it contains: no finding of the scan on the
    guessed type comes from a catalog entry that does not apply to [js]
    files, such as the ones for [os.system] and [pickle.load]. *)
Theorem javascript_words_hide_python_findings (code : jsstring) :
  javascriptWords code = true ->
  In (guessFileExtension code) [str ".tsx"; str ".jsx"; str ".js"]
  /\ forall f p,
       In f (scanForSecurityIssues code (guessFileExtension code)) ->
       In p securityPatterns ->
       applies (str "js") p = false ->
       title f <> sp_title p.
Proof.
  intros Hwords. split.
  { destruct (guess_javascript code Hwords) as [-> | [-> | ->]]; cbn [In]; tauto. }
  intros f p Hf Hp Hjs Htitle.
  apply (proj1 (scan_In code (guessFileExtension code) f)) in Hf.
  destruct Hf as (p' & Hp' & Happ & Hin).
  apply finding_title in Hin.
  assert (E : p' = p).
  { apply (map_NoDup_inj sp_title securityPatterns p' p titles_NoDup Hp' Hp).
    congruence. }
  subst p'.
  destruct (catalog_javascript_alike Hp) as [Hjsx Htsx].
  destruct (guess_javascript code Hwords) as [Hg | [Hg | Hg]]; rewrite Hg in Happ.
  - replace (JsString.removeFirst DOT (str ".tsx")) with (str "tsx") in Happ
      by (vm_compute; reflexivity).
    congruence.
  - replace (JsString.removeFirst DOT (str ".jsx")) with (str "jsx") in Happ
      by (vm_compute; reflexivity).
    congruence.
  - replace (JsString.removeFirst DOT (str ".js")) with (str "js") in Happ
      by (vm_compute; reflexivity).
    congruence.
Qed.

(** A Python function named [letter]: its call of [os.system] is not
    reported. *)
Lemma javascript_words_hide_python_findings_witness :
  guessFileExtension pythonLetter = str ".js"
  /\ scanForSecurityIssues pythonLetter (str ".py") <> []
  /\ forall f p,
       In f (scanForSecurityIssues pythonLetter (guessFileExtension pythonLetter)) ->
       In p securityPatterns ->
       applies (str "js") p = false ->
       title f <> sp_title p.
Proof.
  split; [vm_compute; reflexivity | split; [vm_compute; discriminate|]].
  apply (@javascript_words_hide_python_findings pythonLetter).
  vm_compute. reflexivity.
Defined.

(** ** The extension of a path below a directory *)

Section ExtnameFacts.













End ExtnameFacts.


